(** * pi_cam: the ST7735S display driver (src/display_driver.py)

    A shallow embedding of [ST7735Display] and the properties of its colour
    codec, bus transport, start-up sequence, drawing primitives and
    teardown.

    Conventions of the model
    - Python integers are [Z]; bytes handed to [spi.xfer2] are [Z] in 0..255.
    - [time.sleep] takes seconds as a decimal literal; the model counts
      milliseconds ([0.01] is [10], [0.12] is [120], [0.5] is [500]).
    - The driver object is a record passed explicitly; every method is a
      function from the driver state to an outcome and a new state, so
      that the effects of a method that raises are kept, as in Python.
    - PIL [Image] objects live in a store and are named by references:
      [self.image] is a reference, and [self.draw] (an [ImageDraw.Draw]) keeps
      the reference of the image it was created on. *)

From stdpp Require Import base list gmap strings.
From Stdlib Require Import ZArith Lia.

Local Open Scope Z_scope.

(* ===================================================================== *)
(** * Part I: definitions                                                 *)
(* ===================================================================== *)

(** ** Colour codec (the loop body of [update], lines 251-263) *)

(** An RGB pixel as PIL's [getdata] yields it: a triple [(r, g, b)]. *)
Definition rgb : Type := Z * Z * Z.

(** [rgb565 = r565 | g565 | b565] with [r565 = (r >> 3) << 11],
    [g565 = (g >> 2) << 5], [b565 = b >> 3]. *)
Definition rgb565 (pixel : rgb) : Z :=
  let '(r, g, b) := pixel in
  let r565 := Z.shiftl (Z.shiftr r 3) 11 in
  let g565 := Z.shiftl (Z.shiftr g 2) 5 in
  let b565 := Z.shiftr b 3 in
  Z.lor (Z.lor r565 g565) b565.

(** The two bytes appended for one pixel: [(rgb565 >> 8) & 0xFF] and then
    [rgb565 & 0xFF]. *)
Definition high_byte (v : Z) : Z := Z.land (Z.shiftr v 8) 255.
Definition low_byte (v : Z) : Z := Z.land v 255.

Definition rgb565_bytes (pixel : rgb) : list Z :=
  [high_byte (rgb565 pixel); low_byte (rgb565 pixel)].

(** The [for pixel in pixels] loop: two appends per pixel, in order. *)
Fixpoint rgb565_data (pixels : list rgb) : list Z :=
  match pixels with
  | [] => []
  | pixel :: rest =>
      high_byte (rgb565 pixel) :: low_byte (rgb565 pixel) :: rgb565_data rest
  end.

(** The reading side of the 5-6-5 format, as the specification words it:
    the packed value is rebuilt from the two bytes (high byte first) and
    each field is moved back to the top of its 8-bit channel. *)
Definition packed_of_bytes (hi lo : Z) : Z := Z.lor (Z.shiftl hi 8) lo.

Definition decode565 (v : Z) : rgb :=
  (Z.shiftl (Z.land (Z.shiftr v 11) 31) 3,
   Z.shiftl (Z.land (Z.shiftr v 5) 63) 2,
   Z.shiftl (Z.land v 31) 3).

(** Bounded universal quantification, used to check the bit fields. *)
Definition all_below (n : Z) (f : Z -> bool) : bool :=
  forallb f (seqZ 0 n).

Definition is_byte (v : Z) : bool := (0 <=? v) && (v <=? 255).

(** The 5-6-5 layout stated on the three fields [r5 = r >> 3],
    [g6 = g >> 2], [b5 = b >> 3]. *)
Definition field_check (r5 g6 b5 : Z) : bool :=
  let v := Z.lor (Z.lor (Z.shiftl r5 11) (Z.shiftl g6 5)) b5 in
  (Z.shiftr v 11 =? r5) && (Z.land (Z.shiftr v 5) 63 =? g6)
  && (Z.land v 31 =? b5)
  && is_byte (high_byte v) && is_byte (low_byte v)
  && (packed_of_bytes (high_byte v) (low_byte v) =? v).


(** ** Chunked transfer ([_send_data], lines 169-177) *)

Definition chunk_size : nat := 4096.

(** Python's [range(0, stop, step)]: the offsets [0, step, 2*step, ...]
    below [stop]; there are [ceil (stop / step)] of them. *)
Definition py_range0 (stop step : nat) : list nat :=
  (fun k => (k * step)%nat) <$> seq 0 ((stop + step - 1) `div` step)%nat.

(** The slice [data[i:i + chunk_size]]. *)
Definition slice_from {A} (i n : nat) (data : list A) : list A :=
  take n (drop i data).

(** The chunks [_send_data] hands to [spi.xfer2], one per loop turn. *)
Definition data_chunks (data : list Z) : list (list Z) :=
  (fun i => slice_from i chunk_size data)
    <$> py_range0 (length data) chunk_size.

(** ** PIL images and the drawing calls the driver makes

    The imaging library is not part of the repository; the model keeps what
    its reference documents for the calls the driver makes: an image is its
    size and its pixels in row-major order ([getdata]); [ImageDraw.rectangle]
    paints the bounding box inclusive of both end points, clipped to the
    image; a colour tuple is stored with each component clipped to 0..255. *)

Record pil_image := PilImage {
  im_width : Z;
  im_height : Z;
  im_data : list rgb
}.

(** [Image.new('RGB', (w, h), color)] *)
Definition image_new (w h : Z) (color : rgb) : pil_image :=
  PilImage w h (replicate (Z.to_nat (w * h)) color).

(** Column and row of the [i]-th pixel of [getdata], for an image [w] wide. *)
Definition pixel_x (w i : Z) : Z := i `mod` w.
Definition pixel_y (w i : Z) : Z := i `div` w.

(** The pixel at column [x], row [y] ([Image.getpixel]). *)
Definition getpixel (im : pil_image) (x y : Z) : option rgb :=
  if (0 <=? x) && (x <? im_width im) && (0 <=? y) && (y <? im_height im)
  then im_data im !! Z.to_nat (y * im_width im + x)
  else None.

Definition clip8 (v : Z) : Z := Z.max 0 (Z.min 255 v).

Definition ink_of (c : rgb) : rgb :=
  let '(r, g, b) := c in (clip8 r, clip8 g, clip8 b).

Definition in_box (x0 y0 x1 y1 x y : Z) : bool :=
  (x0 <=? x) && (x <=? x1) && (y0 <=? y) && (y <=? y1).

Definition on_edge (x0 y0 x1 y1 x y : Z) : bool :=
  in_box x0 y0 x1 y1 x y
  && ((x =? x0) || (x =? x1) || (y =? y0) || (y =? y1)).

(** Paint with [ink] the pixels selected by [sel]: one pass over the
    pixels, [i] being the index of the first one of [data]. *)
Fixpoint paint_from (sel : Z -> Z -> bool) (ink : rgb) (w i : Z)
    (data : list rgb) : list rgb :=
  match data with
  | [] => []
  | p :: rest =>
      (if sel (pixel_x w i) (pixel_y w i) then ink else p)
        :: paint_from sel ink w (i + 1) rest
  end.

Definition paint (sel : Z -> Z -> bool) (ink : rgb) (im : pil_image) : pil_image :=
  PilImage (im_width im) (im_height im)
    (paint_from sel ink (im_width im) 0 (im_data im)).

(** Exceptions. [OSError] is what [spidev] raises on a failed transfer and
    what [ImageFont.truetype] raises on an unreadable file; [ValueError] and
    [TypeError] come from [time.sleep] and the imaging library on bad
    arguments. [NotReady] and [Closed] are the error kinds the
    specification names; no statement of the driver raises them. *)
Inductive exn := OSError | ValueError | TypeError | NotReady | Closed.

Inductive result (A : Type) :=
| Ok (a : A)
| Raise (e : exn).
Arguments Ok {A} a.
Arguments Raise {A} e.

(** A colour argument as a caller may pass it: a tuple of integers, or any
    other value (a list, say). *)
Inductive color_arg :=
| ColorTuple (cs : list Z)
| ColorOther.

(** [color[:3] if isinstance(color, tuple) and len(color) >= 3 else default] *)
Definition rgb_or (default : rgb) (color : color_arg) : rgb :=
  match color with
  | ColorTuple (r :: g :: b :: _) => (r, g, b)
  | _ => default
  end.

(** The library's reading of an outline colour handed over as it came:
    a tuple of three or four integers is an ink, anything else is refused. *)
Definition getink (c : color_arg) : result rgb :=
  match c with
  | ColorTuple [r; g; b] => Ok (ink_of (r, g, b))
  | ColorTuple [r; g; b; _] => Ok (ink_of (r, g, b))
  | _ => Raise TypeError
  end.

(** [ImageDraw.rectangle([(x0, y0), (x1, y1)], fill=fill, outline=outline)]:
    both inks are read first, the box must be ordered, the fill covers the
    closed box, and a differing outline is drawn over its edge. *)
Definition pil_rectangle (x0 y0 x1 y1 : Z) (fill : rgb)
    (outline : option color_arg) (im : pil_image) : result pil_image :=
  let fill_ink := ink_of fill in
  let paint_box ink :=
    if (x0 <=? x1) && (y0 <=? y1) then
      let filled := paint (in_box x0 y0 x1 y1) fill_ink im in
      Ok match ink with
         | Some o => if decide (o = fill_ink) then filled
                     else paint (on_edge x0 y0 x1 y1) o filled
         | None => filled
         end
    else Raise ValueError in
  match outline with
  | None => paint_box None
  | Some c => match getink c with
              | Ok o => paint_box (Some o)
              | Raise e => Raise e
              end
  end.

(** ** Fonts ([load_fonts], lines 49-81) *)

Inductive font :=
| TrueType (path : string) (size : Z)
| DefaultFont.

Definition font_paths : list string :=
  ["/usr/share/fonts/truetype/dejavu/DejaVuSans.ttf";
   "/usr/share/fonts/truetype/liberation/LiberationSans-Regular.ttf";
   "/usr/share/fonts/truetype/droid/DroidSans.ttf"]%string.

Definition supported_sizes : list Z := [8; 9; 10; 12; 14; 16; 20; 24].

(** The dictionary literal built for one font file. *)
Definition truetype_fonts (font_path : string) : gmap Z font :=
  <[24 := TrueType font_path 24]> (<[20 := TrueType font_path 20]>
  (<[16 := TrueType font_path 16]> (<[14 := TrueType font_path 14]>
  (<[12 := TrueType font_path 12]> (<[10 := TrueType font_path 10]>
  (<[9 := TrueType font_path 9]> (<[8 := TrueType font_path 8]> ∅))))))).

(** [{size: default_font for size in [8, 9, 10, 12, 14, 16, 20, 24]}] *)
Definition default_fonts : gmap Z font :=
  list_to_map ((fun size => (size, DefaultFont)) <$> supported_sizes).

(** The [for font_path in font_paths] loop: [readable] tells which files
    [ImageFont.truetype] can open; the first one that opens wins. *)
Fixpoint first_readable (readable : string -> bool) (paths : list string)
    : option string :=
  match paths with
  | [] => None
  | font_path :: rest =>
      if readable font_path then Some font_path
      else first_readable readable rest
  end.

(** [self.fonts.get(size, self.fonts.get(10))] when no [font] is passed. *)
Definition select_font (fonts : gmap Z font) (size : Z) (font_arg : option font)
    : option font :=
  match font_arg with
  | Some f => Some f
  | None => match fonts !! size with
            | Some f => Some f
            | None => fonts !! 10
            end
  end.

(** The size a font was opened at; the built-in default has none. *)
Definition font_size (f : font) : option Z :=
  match f with
  | TrueType _ size => Some size
  | DefaultFont => None
  end.

(** The specification's "nearest supported size": a supported size whose
    distance to the request is minimal. *)
Definition is_nearest_supported (size nearest : Z) : Prop :=
  nearest ∈ supported_sizes
  /\ forall s, s ∈ supported_sizes -> Z.abs (nearest - size) <= Z.abs (s - size).

(** ** The driver object and its effects *)

(** What the driver does to the outside world, in order. *)
Inductive message :=
| MsgDriverInitialized
| MsgFontsLoaded (font_path : string)
| MsgDefaultFont
| MsgInitializing
| MsgDisplayReady
| MsgInvalidImage
| MsgCleanupComplete
| MsgCleanupError (e : exn).

Inductive event :=
| GpioOutput (pin : Z) (level : bool)
| SpiXfer (bytes : list Z)
| SpiClose
| Sleep (ms : Z)
| Print (msg : message).

Definition HIGH : bool := true.
Definition LOW : bool := false.

Definition DC_PIN : Z := 24.
Definition RST_PIN : Z := 25.
Definition CS_PIN : Z := 8.
Definition WIDTH : Z := 128.
Definition HEIGHT : Z := 128.

(** The fields of [self] together with the hardware it owns.
    - [store] holds the PIL images; [image] is [self.image] and [draw] is the
      image [self.draw] paints on.
    - [spi_open] tells whether the bus handle is open; [fail_after] is the
      environment's say on bus faults: [Some n] makes the transfer after the
      next [n] fail once, [None] never fails.
    - [trace] is everything done so far, oldest first. *)
Record driver := Driver {
  store : list pil_image;
  image : nat;
  draw : nat;
  fonts : gmap Z font;
  spi_open : bool;
  pins : gmap Z bool;
  fail_after : option nat;
  trace : list event
}.

Definition set_store (v : list pil_image) (s : driver) : driver :=
  Driver v (image s) (draw s) (fonts s) (spi_open s) (pins s) (fail_after s) (trace s).
Definition set_image (v : nat) (s : driver) : driver :=
  Driver (store s) v (draw s) (fonts s) (spi_open s) (pins s) (fail_after s) (trace s).
Definition set_fonts (v : gmap Z font) (s : driver) : driver :=
  Driver (store s) (image s) (draw s) v (spi_open s) (pins s) (fail_after s) (trace s).
Definition set_spi_open (v : bool) (s : driver) : driver :=
  Driver (store s) (image s) (draw s) (fonts s) v (pins s) (fail_after s) (trace s).
Definition set_pins (v : gmap Z bool) (s : driver) : driver :=
  Driver (store s) (image s) (draw s) (fonts s) (spi_open s) v (fail_after s) (trace s).
Definition set_fail_after (v : option nat) (s : driver) : driver :=
  Driver (store s) (image s) (draw s) (fonts s) (spi_open s) (pins s) v (trace s).
Definition emit (e : event) (s : driver) : driver :=
  Driver (store s) (image s) (draw s) (fonts s) (spi_open s) (pins s)
         (fail_after s) (trace s ++ [e]).

(** The image a reference names. References are handed out by [image_copy]
    and the constructor only, so a lookup never misses on a driver built by
    them; the blank image stands in otherwise. *)
Definition deref (s : driver) (ref : nat) : pil_image :=
  default (PilImage 0 0 []) (store s !! ref).

(** The buffer [update] sends: the image [self.image] names. *)
Definition buffer (s : driver) : pil_image := deref s (image s).

(** The image the drawing primitives paint on. *)
Definition canvas (s : driver) : pil_image := deref s (draw s).

(** A method: it ends with a value or an exception, and a new state. *)
Definition M (A : Type) : Type := driver -> result A * driver.

#[global] Instance M_ret : MRet M := fun A a s => (Ok a, s).

#[global] Instance M_bind : MBind M := fun A B f m s =>
  match m s with
  | (Ok a, s') => f a s'
  | (Raise e, s') => (Raise e, s')
  end.

(** [try: body except Exception as e: handler(e)] *)
Definition try_except (body : M unit) (handler : exn -> M unit) : M unit :=
  fun s =>
    match body s with
    | (Ok tt, s') => (Ok tt, s')
    | (Raise e, s') => handler e s'
    end.

Definition print (msg : message) : M unit := fun s => (Ok tt, emit (Print msg) s).

(** The level of an output pin changed. *)
Definition write_pin (pin : Z) (level : bool) (s : driver) : driver :=
  set_pins (<[pin := level]> (pins s)) s.

(** [GPIO.output(pin, level)] *)
Definition gpio_output (pin : Z) (level : bool) : M unit := fun s =>
  (Ok tt, emit (GpioOutput pin level) (write_pin pin level s)).

(** [time.sleep(seconds)]: a negative length is refused. *)
Definition sleep (ms : Z) : M unit := fun s =>
  if ms <? 0 then (Raise ValueError, s) else (Ok tt, emit (Sleep ms) s).

(** [self.spi.xfer2(bytes)]: fails on a closed handle and when the
    environment says so. *)
Definition spi_xfer2 (bytes : list Z) : M unit := fun s =>
  if spi_open s then
    match fail_after s with
    | Some O => (Raise OSError, set_fail_after None s)
    | Some (S n) => (Ok tt, emit (SpiXfer bytes) (set_fail_after (Some n) s))
    | None => (Ok tt, emit (SpiXfer bytes) s)
    end
  else (Raise OSError, s).

(** [self.spi.close()] *)
Definition spi_close : M unit := fun s =>
  (Ok tt, emit SpiClose (set_spi_open false s)).

(** A call on [self.draw]: the image it was created on is changed in place. *)
Definition on_canvas (f : pil_image -> result pil_image) : M unit := fun s =>
  match f (canvas s) with
  | Ok im => (Ok tt, set_store (<[draw s := im]> (store s)) s)
  | Raise e => (Raise e, s)
  end.

(** [self.image.copy()]: a new image with the same pixels. *)
Definition image_copy : M nat := fun s =>
  (Ok (length (store s)), set_store (store s ++ [buffer s]) s).

(** [for x in xs: f(x)] *)
Fixpoint for_each {A} (f : A -> M unit) (xs : list A) : M unit :=
  match xs with
  | [] => mret tt
  | x :: rest => f x ;; for_each f rest
  end.

(** ** Methods of [ST7735Display] *)

(** [load_fonts] (lines 49-81) *)
Definition load_fonts (readable : string -> bool) : M unit :=
  match first_readable readable font_paths with
  | Some font_path =>
      (fun s => (Ok tt, set_fonts (truetype_fonts font_path) s)) ;;
      print (MsgFontsLoaded font_path)
  | None =>
      (fun s => (Ok tt, set_fonts default_fonts s)) ;;
      print MsgDefaultFont
  end.

(** [__init__] (lines 16-47): the bus is opened, the buffer is created black
    and [self.draw] is bound to it, the fonts are loaded. *)
Definition construct (readable : string -> bool) (faults : option nat) : driver :=
  let s0 := Driver [image_new WIDTH HEIGHT (0, 0, 0)] 0 0 ∅ true ∅ faults [] in
  snd ((load_fonts readable ;; print MsgDriverInitialized) s0).

(** [_send_command] (lines 160-167); [if data:] is false for [None] and
    for an empty list. *)
Definition _send_command (cmd : Z) (data : option (list Z)) : M unit :=
  gpio_output DC_PIN LOW ;;
  spi_xfer2 [cmd] ;;
  match data with
  | Some (b :: bs) =>
      gpio_output DC_PIN HIGH ;;
      spi_xfer2 (b :: bs)
  | _ => mret tt
  end.

(** [_send_data] (lines 169-177) *)
Definition _send_data (data : list Z) : M unit :=
  gpio_output DC_PIN HIGH ;;
  for_each spi_xfer2 (data_chunks data).

(** [clear] (lines 179-186) *)
Definition clear (color : color_arg) : M unit :=
  let fill_color := rgb_or (0, 0, 0) color in
  on_canvas (pil_rectangle 0 0 WIDTH HEIGHT fill_color None).

(** The default argument [color=(0, 0, 0)] of [clear]. *)
Definition black : color_arg := ColorTuple [0; 0; 0].

(** [draw_rectangle] (lines 201-216); the coordinates are integers, on
    which [int] is the identity. *)
Definition draw_rectangle (x y width height : Z) (color : color_arg)
    (outline : option color_arg) : M unit :=
  let fill_color := rgb_or (255, 255, 255) color in
  let outline_color :=
    match outline with
    | Some (ColorTuple (r :: g :: b :: _)) => Some (ColorTuple [r; g; b])
    | other => other
    end in
  on_canvas (pil_rectangle x y (x + width) (y + height) fill_color outline_color).

(** [update] (lines 245-269); converting an RGB image to RGB gives a copy
    with the same pixels. *)
Definition update : M unit := fun s =>
  let rgb_image := buffer s in
  let pixels := im_data rgb_image in
  let data := rgb565_data pixels in
  (_send_command 0x2C None ;; _send_data data) s.

(** [flash_screen] (lines 271-283) *)
Definition flash_screen (color : color_arg) (duration : Z) : M unit :=
  original_image ← image_copy;
  clear color ;;
  update ;;
  sleep duration ;;
  (fun s => (Ok tt, set_image original_image s)) ;;
  update.

(** [init_display] (lines 83-158) *)
Definition init_display : M unit :=
  print MsgInitializing ;;
  gpio_output RST_PIN HIGH ;;
  sleep 10 ;;
  gpio_output RST_PIN LOW ;;
  sleep 10 ;;
  gpio_output RST_PIN HIGH ;;
  sleep 120 ;;
  _send_command 0x01 None ;;
  sleep 150 ;;
  _send_command 0x11 None ;;
  sleep 500 ;;
  _send_command 0xB1 (Some [0x01; 0x2C; 0x2D]) ;;
  _send_command 0xB2 (Some [0x01; 0x2C; 0x2D]) ;;
  _send_command 0xB3 (Some [0x01; 0x2C; 0x2D; 0x01; 0x2C; 0x2D]) ;;
  _send_command 0xB4 (Some [0x07]) ;;
  _send_command 0xC0 (Some [0xA2; 0x02; 0x84]) ;;
  _send_command 0xC1 (Some [0xC5]) ;;
  _send_command 0xC2 (Some [0x0A; 0x00]) ;;
  _send_command 0xC3 (Some [0x8A; 0x2A]) ;;
  _send_command 0xC4 (Some [0x8A; 0xEE]) ;;
  _send_command 0xC5 (Some [0x0E]) ;;
  _send_command 0x20 None ;;
  _send_command 0x36 (Some [0x00]) ;;
  _send_command 0x3A (Some [0x05]) ;;
  _send_command 0x2A (Some [0x00; 0x00; 0x00; 0x7F]) ;;
  _send_command 0x2B (Some [0x00; 0x00; 0x00; 0x7F]) ;;
  _send_command 0xE0 (Some [0x02; 0x1c; 0x07; 0x12; 0x37; 0x32; 0x29; 0x2d;
                            0x29; 0x25; 0x2B; 0x39; 0x00; 0x01; 0x03; 0x10]) ;;
  _send_command 0xE1 (Some [0x03; 0x1d; 0x07; 0x06; 0x2E; 0x2C; 0x29; 0x2D;
                            0x2E; 0x2E; 0x37; 0x3F; 0x00; 0x00; 0x02; 0x10]) ;;
  _send_command 0x13 None ;;
  sleep 10 ;;
  _send_command 0x29 None ;;
  sleep 120 ;;
  clear black ;;
  update ;;
  print MsgDisplayReady.

(** [cleanup] (lines 285-300) *)
Definition cleanup : M unit :=
  try_except
    (clear black ;;
     update ;;
     spi_close ;;
     gpio_output RST_PIN LOW ;;
     print MsgCleanupComplete)
    (fun e => print (MsgCleanupError e)).

(** ** Primitives whose rasterisation stays abstract

    Glyphs, ellipses and lines are rasterised by the imaging library; the
    driver only chooses the font and the colour and hands over the
    coordinates. What matters here is which image each call changes. *)
Section Rasterisers.

Variable pil_text : Z * Z -> string -> option font -> rgb -> pil_image -> pil_image.
Variable pil_ellipse : Z * Z -> Z * Z -> rgb -> option color_arg -> pil_image -> pil_image.
Variable pil_line : Z * Z -> Z * Z -> rgb -> Z -> pil_image -> pil_image.
Variable pil_paste : pil_image -> Z * Z -> pil_image -> pil_image.

(** [draw_text] (lines 188-199) *)
Definition draw_text (text : string) (x y : Z) (color : color_arg) (size : Z)
    (font_arg : option font) : M unit := fun s =>
  let font := select_font (fonts s) size font_arg in
  let text_color := rgb_or (255, 255, 255) color in
  on_canvas (fun im => Ok (pil_text (x, y) text font text_color im)) s.

(** [draw_circle] (lines 218-227) *)
Definition draw_circle (x y radius : Z) (color : color_arg)
    (outline : option color_arg) : M unit :=
  let fill_color := rgb_or (255, 255, 255) color in
  on_canvas (fun im =>
    Ok (pil_ellipse (x - radius, y - radius) (x + radius, y + radius)
                    fill_color outline im)).

(** [draw_line] (lines 229-236) *)
Definition draw_line (x1 y1 x2 y2 : Z) (color : color_arg) (width : Z) : M unit :=
  let line_color := rgb_or (255, 255, 255) color in
  on_canvas (fun im => Ok (pil_line (x1, y1) (x2, y2) line_color width im)).

(** [display_image] (lines 238-243): pastes into [self.image] itself;
    [None] stands for an argument that is not a PIL image. *)
Definition display_image (img : option pil_image) (x y : Z) : M unit :=
  match img with
  | Some src => fun s =>
      (Ok tt, set_store (<[image s := pil_paste src (x, y) (buffer s)]> (store s)) s)
  | None => print MsgInvalidImage
  end.

End Rasterisers.

(** ** Vocabulary of the statements *)

(** [es] appended to the trace, nothing else changed. *)
Definition emits (es : list event) (s : driver) : driver :=
  Driver (store s) (image s) (draw s) (fonts s) (spi_open s) (pins s)
         (fail_after s) (trace s ++ es).

(** The bus traffic of one full push of the image [im]: the RAMWR opcode in
    command mode, then the encoded pixels in data mode, chunk by chunk. *)
Definition update_events (im : pil_image) : list event :=
  [GpioOutput DC_PIN LOW; SpiXfer [0x2C]; GpioOutput DC_PIN HIGH]
    ++ (SpiXfer <$> data_chunks (rgb565_data (im_data im))).

(** The state a successful [update] leaves. *)
Definition pushed (s : driver) : driver :=
  emits (update_events (buffer s))
        (write_pin DC_PIN HIGH (write_pin DC_PIN LOW s)).

(** The bus is open and the environment injects no fault. *)
Definition bus_ready (s : driver) : Prop :=
  spi_open s = true /\ fail_after s = None.

(** An image of the panel's size. *)
Definition panel_sized (im : pil_image) : Prop :=
  im_width im = WIDTH /\ im_height im = HEIGHT
  /\ Z.of_nat (length (im_data im)) = WIDTH * HEIGHT.

(** Every image of the store has the panel's size and both references of
    the driver name an image of the store. *)
Definition well_formed (s : driver) : Prop :=
  (image s < length (store s))%nat
  /\ (draw s < length (store s))%nat
  /\ Forall panel_sized (store s).

(** The panel's reading of the bus. The level of the data/command line
    tells what a transfer carries: while it is low every byte is an opcode,
    while it is high the bytes belong to the last opcode received. The
    commands are kept newest first together with the data that followed. *)
Record panel := Panel {
  dc_level : bool;
  received : list (Z * list Z)
}.

Definition panel_step (p : panel) (e : event) : panel :=
  match e with
  | GpioOutput pin level =>
      if pin =? DC_PIN then Panel level (received p) else p
  | SpiXfer bytes =>
      if dc_level p then
        match received p with
        | (opcode, data) :: older =>
            Panel (dc_level p) ((opcode, data ++ bytes) :: older)
        | [] => p
        end
      else
        Panel (dc_level p)
              (reverse ((fun opcode => (opcode, [])) <$> bytes) ++ received p)
  | _ => p
  end.

(** The commands a trace delivers, oldest first, each with its data. *)
Definition panel_commands (tr : list event) : list (Z * list Z) :=
  reverse (received (fold_left panel_step tr (Panel LOW []))).

(** The pixel streams written to the panel's memory: the data of every
    RAMWR (0x2C) command, oldest first. *)
Definition ram_writes (tr : list event) : list (list Z) :=
  snd <$> filter (fun c => fst c = 0x2C) (panel_commands tr).

(** The two bytes a pixel stream holds for the pixel at column [x],
    row [y] of a 128-pixel-wide frame. *)
Definition frame_pixel (frame : list Z) (x y : Z) : list Z :=
  slice_from (Z.to_nat (2 * (y * WIDTH + x))) 2 frame.

(** The opcodes of the specification's configuration table: frame rate,
    inversion, power, VCOM, pixel format and the two gamma curves. *)
Definition config_table_opcodes : list Z :=
  [0xB1; 0xB2; 0xB3; 0xB4; 0xC0; 0xC1; 0xC2; 0xC3; 0xC4; 0xC5; 0x3A; 0xE0; 0xE1].

(** The order the specification gives to start-up: the whole configuration
    table is issued before the addressing window (CASET, 0x2A) is set. *)
Definition table_before_window (opcodes : list Z) : Prop :=
  forall i j c,
    c ∈ config_table_opcodes ->
    opcodes !! i = Some c -> opcodes !! j = Some 0x2A -> (i < j)%nat.

(** The events of [_send_command cmd data]. *)
Definition command_events (cmd : Z) (data : list Z) : list event :=
  match data with
  | [] => [GpioOutput DC_PIN LOW; SpiXfer [cmd]]
  | _ => [GpioOutput DC_PIN LOW; SpiXfer [cmd]; GpioOutput DC_PIN HIGH; SpiXfer data]
  end.

(** The events of [init_display] up to the first clearing of the panel:
    hard reset, software reset, sleep-out, configuration with the
    addressing window set between pixel format and gamma, normal mode on,
    display on. *)
Definition startup_events : list event :=
  [Print MsgInitializing;
   GpioOutput RST_PIN HIGH; Sleep 10;
   GpioOutput RST_PIN LOW; Sleep 10;
   GpioOutput RST_PIN HIGH; Sleep 120]
  ++ command_events 0x01 [] ++ [Sleep 150]
  ++ command_events 0x11 [] ++ [Sleep 500]
  ++ command_events 0xB1 [0x01; 0x2C; 0x2D]
  ++ command_events 0xB2 [0x01; 0x2C; 0x2D]
  ++ command_events 0xB3 [0x01; 0x2C; 0x2D; 0x01; 0x2C; 0x2D]
  ++ command_events 0xB4 [0x07]
  ++ command_events 0xC0 [0xA2; 0x02; 0x84]
  ++ command_events 0xC1 [0xC5]
  ++ command_events 0xC2 [0x0A; 0x00]
  ++ command_events 0xC3 [0x8A; 0x2A]
  ++ command_events 0xC4 [0x8A; 0xEE]
  ++ command_events 0xC5 [0x0E]
  ++ command_events 0x20 []
  ++ command_events 0x36 [0x00]
  ++ command_events 0x3A [0x05]
  ++ command_events 0x2A [0x00; 0x00; 0x00; WIDTH - 1]
  ++ command_events 0x2B [0x00; 0x00; 0x00; HEIGHT - 1]
  ++ command_events 0xE0 [0x02; 0x1c; 0x07; 0x12; 0x37; 0x32; 0x29; 0x2d;
                          0x29; 0x25; 0x2B; 0x39; 0x00; 0x01; 0x03; 0x10]
  ++ command_events 0xE1 [0x03; 0x1d; 0x07; 0x06; 0x2E; 0x2C; 0x29; 0x2D;
                          0x2E; 0x2E; 0x37; 0x3F; 0x00; 0x00; 0x02; 0x10]
  ++ command_events 0x13 [] ++ [Sleep 10]
  ++ command_events 0x29 [] ++ [Sleep 120].

(** The image with every pixel of one colour. *)
Definition solid (color : rgb) : pil_image :=
  PilImage WIDTH HEIGHT (replicate (Z.to_nat (WIDTH * HEIGHT)) color).

(** A driver as the constructor leaves it, fonts found, no bus fault. *)
Definition fresh : driver := construct (fun _ => true) None.

(** The specification's scenario: start the panel, clear to black, draw a
    red rectangle at (10, 10) of width and height 20, push. *)
Definition red : color_arg := ColorTuple [255; 0; 0].
Definition white : color_arg := ColorTuple [255; 255; 255].

Definition rectangle_scenario : M unit :=
  init_display ;;
  clear black ;;
  draw_rectangle 10 10 20 20 red None ;;
  update.

(** Drawing after a flash, as [show_capture_feedback] of camera_app.py
    does: flash, draw, push. *)
Definition flash_then_draw_scenario : M unit :=
  init_display ;;
  flash_screen white 200 ;;
  draw_rectangle 0 0 10 10 red None ;;
  update.

(** The bytes of the pixel at [(x, y)] in the last frame pushed. *)
Definition last_pushed_pixel (s : driver) (x y : Z) : option (list Z) :=
  (fun frame => frame_pixel frame x y) <$> last (ram_writes (trace s)).

(** The state [s] after the events [es] on the bus and the pins, which
    leave the pin levels [p]. *)
Definition at_bus (es : list event) (p : gmap Z bool) (s : driver) : driver :=
  Driver (store s) (image s) (draw s) (fonts s) (spi_open s) p
         (fail_after s) (trace s ++ es).

(** The state [clear color] leaves. *)
Definition cleared (color : color_arg) (s : driver) : driver :=
  set_store (<[draw s := paint (in_box 0 0 WIDTH HEIGHT)
                               (ink_of (rgb_or (0, 0, 0) color))
                               (canvas s)]> (store s)) s.

(** The specification's life-cycle guard on an operation: refused with
    NotReady on a driver that has only been constructed, and with Closed on
    a driver that was started and cleaned up. *)
Definition guarded_by_lifecycle (op : M unit) : Prop :=
  fst (op fresh) = Raise NotReady
  /\ fst (op (snd ((init_display ;; cleanup) fresh))) = Raise Closed.

(** What the panel has been told once [startup_events] are through. *)
Definition startup_commands : list (Z * list Z) :=
  [(0x01, []); (0x11, []);
   (0xB1, [0x01; 0x2C; 0x2D]); (0xB2, [0x01; 0x2C; 0x2D]);
   (0xB3, [0x01; 0x2C; 0x2D; 0x01; 0x2C; 0x2D]);
   (0xB4, [0x07]);
   (0xC0, [0xA2; 0x02; 0x84]); (0xC1, [0xC5]); (0xC2, [0x0A; 0x00]);
   (0xC3, [0x8A; 0x2A]); (0xC4, [0x8A; 0xEE]);
   (0xC5, [0x0E]);
   (0x20, []); (0x36, [0x00]); (0x3A, [0x05]);
   (0x2A, [0x00; 0x00; 0x00; 0x7F]); (0x2B, [0x00; 0x00; 0x00; 0x7F]);
   (0xE0, [0x02; 0x1c; 0x07; 0x12; 0x37; 0x32; 0x29; 0x2d;
           0x29; 0x25; 0x2B; 0x39; 0x00; 0x01; 0x03; 0x10]);
   (0xE1, [0x03; 0x1d; 0x07; 0x06; 0x2E; 0x2C; 0x29; 0x2D;
           0x2E; 0x2E; 0x37; 0x3F; 0x00; 0x00; 0x02; 0x10]);
   (0x13, []); (0x29, [])].

(** The pauses of a trace, each with the event that came just before. *)
Fixpoint pauses (previous : option event) (tr : list event)
    : list (option event * Z) :=
  match tr with
  | [] => []
  | Sleep ms :: rest => (previous, ms) :: pauses (Some (Sleep ms)) rest
  | e :: rest => pauses (Some e) rest
  end.

(** A method that raises nothing but the exceptions [allowed]. *)
Definition raises_only {A} (allowed : exn -> Prop) (m : M A) : Prop :=
  forall s, match fst (m s) with
            | Ok _ => True
            | Raise e => allowed e
            end.

(** The specification's reading of [draw_text]: without an explicit font,
    the text is set in a font opened at the supported size nearest to the
    request. *)
Definition rasterizes_at_nearest (fonts : gmap Z font) (size : Z) : Prop :=
  exists f n,
    select_font fonts size None = Some f
    /\ font_size f = Some n
    /\ is_nearest_supported size n.

(** ** Pasting, bus faults and what a method leaves alone *)

(** [Image.paste(src, (x, y))] on RGB images: the source pixel at column
    [i], row [j] lands on [(x + i, y + j)]; what would fall outside the
    destination is dropped, and the pixels the source does not reach stay. *)
Fixpoint paste_from (src : pil_image) (x y w i : Z) (data : list rgb)
    : list rgb :=
  match data with
  | [] => []
  | p :: rest =>
      match getpixel src (pixel_x w i - x) (pixel_y w i - y) with
      | Some q => q
      | None => p
      end :: paste_from src x y w (i + 1) rest
  end.

Definition image_paste (src : pil_image) (xy : Z * Z) (im : pil_image)
    : pil_image :=
  PilImage (im_width im) (im_height im)
    (paste_from src (fst xy) (snd xy) (im_width im) 0 (im_data im)).

(** The payloads of the SPI transfers of a trace, in order. *)
Fixpoint spi_transfers (tr : list event) : list (list Z) :=
  match tr with
  | [] => []
  | SpiXfer bytes :: rest => bytes :: spi_transfers rest
  | _ :: rest => spi_transfers rest
  end.

(** [s'] has the images, the two references and the fonts of [s]. *)
Definition same_images (s s' : driver) : Prop :=
  store s' = store s /\ image s' = image s /\ draw s' = draw s
  /\ fonts s' = fonts s.

(** [m] never changes an image, a reference or a font, however it ends. *)
Definition keeps_images {A} (m : M A) : Prop :=
  forall s, same_images s (snd (m s)).

(** [m] keeps [P], however it ends. *)
Definition preserves {A} (P : driver -> Prop) (m : M A) : Prop :=
  forall s, P s -> P (snd (m s)).

(** The store keeps its images' sizes and has room for the reference [a]. *)
Definition well_formed_with (a : nat) (s : driver) : Prop :=
  well_formed s /\ (a < length (store s))%nat.

(** ** Callers of the driver: camera_app.py *)

Section CameraFeedback.

Variable pil_text : Z * Z -> string -> option font -> rgb -> pil_image -> pil_image.
Variable pil_ellipse : Z * Z -> Z * Z -> rgb -> option color_arg -> pil_image -> pil_image.

(** [CameraApp.show_capture_feedback] (camera_app.py, lines 250-259) *)
Definition show_capture_feedback : M unit :=
  flash_screen (ColorTuple [255; 255; 255]) 100 ;;
  draw_circle pil_ellipse 64 64 20 (ColorTuple [255; 255; 255]) None ;;
  draw_text pil_text "📸" 55 55 (ColorTuple [0; 0; 0]) 16 None ;;
  update ;;
  sleep 200.

End CameraFeedback.

(** ** Python values the applications use *)

(** [xs[i]] on a list: a negative index counts from the end, and an index
    out of range raises [IndexError] ([None] here). *)
Definition py_index {A} (xs : list A) (i : Z) : option A :=
  let n := Z.of_nat (length xs) in
  if (0 <=? i) && (i <? n) then xs !! Z.to_nat i
  else if (- n <=? i) && (i <? 0) then xs !! Z.to_nat (i + n)
  else None.

(** [range(start, stop)] *)
Definition py_range (start stop : Z) : list Z :=
  (fun k : nat => start + Z.of_nat k) <$> seq 0 (Z.to_nat (stop - start)).

(** A call on the display object, with its arguments as the caller wrote
    them; [run_call] makes the call on the driver. *)
Inductive display_call :=
| CallClear (color : color_arg)
| CallDrawRectangle (x y width height : Z) (color : color_arg)
                    (outline : option color_arg)
| CallDrawText (text : string) (x y : Z) (color : color_arg) (size : Z)
| CallUpdate.

Section DisplayCalls.

Variable pil_text : Z * Z -> string -> option font -> rgb -> pil_image -> pil_image.

Definition run_call (c : display_call) : M unit :=
  match c with
  | CallClear color => clear color
  | CallDrawRectangle x y width height color outline =>
      draw_rectangle x y width height color outline
  | CallDrawText text x y color size =>
      draw_text pil_text text x y color size None
  | CallUpdate => update
  end.

End DisplayCalls.

(** The boxes of the [draw_rectangle] calls among [calls], in order, as
    the caller passed them: corner, width and height. *)
Definition rectangles (calls : list display_call) : list (Z * Z * Z * Z) :=
  omap (fun c => match c with
                 | CallDrawRectangle x y width height _ _ =>
                     Some (x, y, width, height)
                 | _ => None
                 end) calls.

(** The texts among [calls] drawn at column [x], each with its height. *)
Definition texts_at (x : Z) (calls : list display_call) : list (Z * string) :=
  omap (fun c => match c with
                 | CallDrawText text x' y _ _ =>
                     if x' =? x then Some (y, text) else None
                 | _ => None
                 end) calls.

(** The calls only draw: no [update], no outline, no negative size. *)
Definition draws_only (c : display_call) : Prop :=
  match c with
  | CallClear _ | CallDrawText _ _ _ _ _ => True
  | CallDrawRectangle _ _ width height _ outline =>
      0 <= width /\ 0 <= height /\ outline = None
  | CallUpdate => False
  end.

(** [s'] differs from [s] at most in the pixels of the canvas: nothing was
    sent, no pin was written, and both references name what they named. *)
Definition canvas_only (s s' : driver) : Prop :=
  trace s' = trace s /\ pins s' = pins s /\ fonts s' = fonts s
  /\ spi_open s' = spi_open s /\ fail_after s' = fail_after s
  /\ image s' = image s /\ draw s' = draw s
  /\ length (store s') = length (store s)
  /\ forall ref, ref <> draw s -> store s' !! ref = store s !! ref.

(** ** Callers of the driver: settings_app.py *)

Module SettingsApp.

(** A menu item, the dict literals of lines 32-91: [name], [icon] and
    [action] are always there, the other keys only in some items. *)
Record menu_item := MenuItem {
  item_name : string;
  item_icon : string;
  item_action : string;
  item_submenu : option string;
  item_value : option string;
  item_key : option string
}.

Record menu := Menu {
  title : string;
  items : list menu_item
}.

Definition plain (name icon action : string) : menu_item :=
  MenuItem name icon action None None None.
Definition to_submenu (name icon submenu : string) : menu_item :=
  MenuItem name icon "submenu" (Some submenu) None None.
Definition info (name icon value : string) : menu_item :=
  MenuItem name icon "info" None (Some value) None.
Definition show_info (name icon key : string) : menu_item :=
  MenuItem name icon "show_info" None None (Some key).

(** [self.menu_structure] (lines 28-94) *)
Definition menu_structure : gmap string menu :=
  list_to_map [
    ("main", Menu "Settings" [
       to_submenu "WiFi" "📶" "wifi";
       to_submenu "Network Share" "📁" "share";
       to_submenu "Camera" "📷" "camera";
       to_submenu "Display" "🖥️" "display";
       to_submenu "System" "⚙️" "system";
       to_submenu "About" "ℹ️" "about";
       plain "Exit" "🚪" "exit" ]);
    ("wifi", Menu "WiFi Settings" [
       plain "Scan Networks" "🔍" "scan_wifi";
       plain "Current Network" "📡" "show_current";
       plain "Back" "◄" "back" ]);
    ("share", Menu "Network Share" [
       plain "Share Status" "📊" "show_share_status";
       plain "Access Info" "ℹ️" "show_share_info";
       plain "Today's Photos" "📅" "show_today_photos";
       plain "Total Photos" "📷" "show_total_photos";
       plain "Back" "◄" "back" ]);
    ("camera", Menu "Camera Settings" [
       info "Resolution" "📐" "1640x1232";
       info "Quality" "✨" "85%";
       info "Auto Upload" "⬆️" "Enabled";
       plain "Back" "◄" "back" ]);
    ("display", Menu "Display Settings" [
       info "Size" "📐" "128x128";
       info "UI Timeout" "⏰" "5 sec";
       plain "Back" "◄" "back" ]);
    ("system", Menu "System Settings" [
       info "Device Name" "📛" "PiCamera";
       plain "Restart" "🔄" "restart";
       plain "Shutdown" "⏻" "shutdown";
       plain "Back" "◄" "back" ]);
    ("about", Menu "About" [
       show_info "Version" "📋" "version";
       show_info "Device ID" "🆔" "device_id";
       show_info "Uptime" "⏱️" "uptime";
       plain "Back" "◄" "back" ])
  ].

(** An entry of [self.wifi_networks]. *)
Record network := Network {
  ssid : option string;
  encrypted : option bool
}.

(** The fields of the application the menu code reads or writes. *)
Record settings := Settings {
  current_menu : string;
  selected_item : Z;
  should_exit_flag : bool;
  wifi_networks : list network;
  wifi_selected : Z
}.

Definition set_current_menu (v : string) (s : settings) : settings :=
  Settings v (selected_item s) (should_exit_flag s) (wifi_networks s)
           (wifi_selected s).
Definition set_selected_item (v : Z) (s : settings) : settings :=
  Settings (current_menu s) v (should_exit_flag s) (wifi_networks s)
           (wifi_selected s).
Definition set_should_exit_flag (v : bool) (s : settings) : settings :=
  Settings (current_menu s) (selected_item s) v (wifi_networks s)
           (wifi_selected s).
Definition set_wifi_networks (v : list network) (s : settings) : settings :=
  Settings (current_menu s) (selected_item s) (should_exit_flag s) v
           (wifi_selected s).
Definition set_wifi_selected (v : Z) (s : settings) : settings :=
  Settings (current_menu s) (selected_item s) (should_exit_flag s)
           (wifi_networks s) v.

(** The methods the menu code hands over to as its last statement. They
    talk to the display, the network and the operating system; here only
    the hand-over is recorded, with the state it happens in.
    [PerformWifiScan] is the thread [scan_wifi_networks] starts. *)
Inductive method :=
| PerformWifiScan
| ShowCurrentNetwork
| ShowShareStatus
| ShowShareInfo
| ShowTodayPhotos
| ShowTotalPhotos
| RestartSystem
| ShutdownSystem
| ShowSystemInfo (info_type : string)
| ConnectToWifi.

Inductive lookup_error := KeyError | IndexError.

(** How an input handler ends: it returns, it returns what the method it
    hands over to makes of the state, or a lookup raises. *)
Inductive outcome :=
| Done (s : settings)
| HandsOver (m : method) (s : settings)
| Fails (e : lookup_error).

(** [go_back] (lines 516-522) *)
Definition go_back (s : settings) : settings :=
  if String.eqb (current_menu s) "main" then set_should_exit_flag true s
  else set_selected_item 0 (set_current_menu "main" s).

(** [scan_wifi_networks] (lines 224-232) *)
Definition scan_wifi_networks (s : settings) : outcome :=
  HandsOver PerformWifiScan
            (set_wifi_networks [] (set_current_menu "wifi_scan" s)).

(** [execute_menu_action] (lines 149-179) *)
Definition execute_menu_action (s : settings) : outcome :=
  match menu_structure !! current_menu s with
  | None => Fails KeyError
  | Some menu =>
      match py_index (items menu) (selected_item s) with
      | None => Fails IndexError
      | Some item =>
          let action := item_action item in
          if String.eqb action "submenu" then
            match item_submenu item with
            | Some submenu =>
                Done (set_selected_item 0 (set_current_menu submenu s))
            | None => Fails KeyError
            end
          else if String.eqb action "back" then Done (go_back s)
          else if String.eqb action "exit" then
            Done (set_should_exit_flag true s)
          else if String.eqb action "scan_wifi" then scan_wifi_networks s
          else if String.eqb action "show_current" then
            HandsOver ShowCurrentNetwork s
          else if String.eqb action "show_share_status" then
            HandsOver ShowShareStatus s
          else if String.eqb action "show_share_info" then
            HandsOver ShowShareInfo s
          else if String.eqb action "show_today_photos" then
            HandsOver ShowTodayPhotos s
          else if String.eqb action "show_total_photos" then
            HandsOver ShowTotalPhotos s
          else if String.eqb action "restart" then HandsOver RestartSystem s
          else if String.eqb action "shutdown" then HandsOver ShutdownSystem s
          else if String.eqb action "show_info" then
            match item_key item with
            | Some key => HandsOver (ShowSystemInfo key) s
            | None => Fails KeyError
            end
          else Done s
      end
  end.

(** [handle_menu_input] (lines 135-147) *)
Definition handle_menu_input (nav_input : string) (s : settings) : outcome :=
  match menu_structure !! current_menu s with
  | None => Fails KeyError
  | Some menu =>
      if String.eqb nav_input "UP" then
        Done (set_selected_item (Z.max 0 (selected_item s - 1)) s)
      else if String.eqb nav_input "DOWN" then
        Done (set_selected_item
                (Z.min (Z.of_nat (length (items menu)) - 1)
                       (selected_item s + 1)) s)
      else if String.eqb nav_input "CENTER" then execute_menu_action s
      else if String.eqb nav_input "LEFT" then
        if negb (String.eqb (current_menu s) "main") then Done (go_back s)
        else Done s
      else Done s
  end.

(** [handle_wifi_scan_input] (lines 301-304) *)
Definition handle_wifi_scan_input (nav_input : string) (s : settings)
    : outcome :=
  if String.eqb nav_input "LEFT" then Done (set_current_menu "wifi" s)
  else Done s.

(** [handle_wifi_networks_input] (lines 306-315) *)
Definition handle_wifi_networks_input (nav_input : string) (s : settings)
    : outcome :=
  if String.eqb nav_input "UP" then
    Done (set_wifi_selected (Z.max 0 (wifi_selected s - 1)) s)
  else if String.eqb nav_input "DOWN" then
    Done (set_wifi_selected
            (Z.min (Z.of_nat (length (wifi_networks s)) - 1)
                   (wifi_selected s + 1)) s)
  else if String.eqb nav_input "LEFT" then Done (set_current_menu "wifi" s)
  else if String.eqb nav_input "CENTER" then HandsOver ConnectToWifi s
  else Done s.

(** [handle_input] (lines 126-133) *)
Definition handle_input (nav_input : string) (s : settings) : outcome :=
  match menu_structure !! current_menu s with
  | Some _ => handle_menu_input nav_input s
  | None =>
      if String.eqb (current_menu s) "wifi_scan" then
        handle_wifi_scan_input nav_input s
      else if String.eqb (current_menu s) "wifi_networks" then
        handle_wifi_networks_input nav_input s
      else Done s
  end.



(** The first row [show_menu] and [show_wifi_networks] display
    (lines 195-196 and 277-278). *)
Definition start_item (selected count visible_items : Z) : Z :=
  Z.max 0 (Z.min (selected - visible_items + 1) (count - visible_items)).

(** The body of the loop of [show_menu] (lines 200-219) for row [i] drawn
    at height [y]; [items[i]] may raise. *)
Definition show_menu_row (selected : Z) (m : menu) (i y : Z)
    : option (list display_call) :=
  item ← py_index (items m) i;
  Some ((if i =? selected
         then [CallDrawRectangle 2 (y - 2) 124 20 (ColorTuple [50; 150; 255]) None]
         else [])
        ++ [CallDrawText (item_icon item) 8 y (ColorTuple [255; 255; 255]) 12;
            CallDrawText (item_name item) 28 y (ColorTuple [255; 255; 255]) 10]
        ++ match item_value item with
           | Some value =>
               [CallDrawText value 80 y (ColorTuple [200; 200; 200]) 8]
           | None => []
           end
        ++ (if String.eqb (item_action item) "submenu"
               || String.eqb (item_action item) "info"
            then [CallDrawText "►" 115 y (ColorTuple [150; 150; 150]) 10]
            else [])).

(** The loop of [show_menu]: the calls made, and whether it ran to its end
    ([false]: a lookup raised on the way). *)
Fixpoint show_menu_rows (selected : Z) (m : menu) (rows : list Z) (y : Z)
    : list display_call * bool :=
  match rows with
  | [] => ([], true)
  | i :: rest =>
      match show_menu_row selected m i y with
      | Some calls =>
          let (more, finished) := show_menu_rows selected m rest (y + 22) in
          (calls ++ more, finished)
      | None => ([], false)
      end
  end.

(** [show_menu] (lines 181-222): the calls it makes on the display, in
    order, and whether it returned; [None] when [menu_name] is no menu,
    which raises before any call. *)
Definition show_menu (menu_name : string) (s : settings)
    : option (list display_call * bool) :=
  m ← menu_structure !! menu_name;
  let title :=
    if negb (String.eqb menu_name "main") then String.append "◄ " (title m)
    else title m in
  let visible_items := 4 in
  let count := Z.of_nat (length (items m)) in
  let start := start_item (selected_item s) count visible_items in
  let (rows, finished) :=
    show_menu_rows (selected_item s) m
      (py_range start (Z.min count (start + visible_items))) 30 in
  Some ([CallClear (ColorTuple [20; 20; 40]);
         CallDrawRectangle 0 0 128 25 (ColorTuple [25; 118; 210]) None;
         CallDrawText title 5 7 (ColorTuple [255; 255; 255]) 12]
        ++ rows
        ++ (if finished
            then [CallDrawText "▲▼ Navigate  ● Select" 5 115
                               (ColorTuple [100; 100; 100]) 8]
            else []),
        finished).

(** The menu state is consistent: the current screen is a menu and the
    selection is one of its items, or it is one of the two WiFi screens,
    entered from the WiFi menu with its selection kept. *)
Definition selection_valid (s : settings) : Prop :=
  match menu_structure !! current_menu s with
  | Some m => 0 <= selected_item s < Z.of_nat (length (items m))
  | None =>
      (current_menu s = "wifi_scan" \/ current_menu s = "wifi_networks")
      /\ 0 <= selected_item s < 3
  end.


(** The state an input handler leaves, when it does not raise. *)
Definition state_after (o : outcome) : option settings :=
  match o with
  | Done s | HandsOver _ s => Some s
  | Fails _ => None
  end.

End SettingsApp.

(** ** The five-way switch: navigation.py *)

Module Navigation.

(** [self.pins] (lines 16-22), in the order of the dict. *)
Definition pins : list (string * Z) :=
  [("UP", 17); ("DOWN", 27); ("LEFT", 22); ("RIGHT", 23); ("CENTER", 18)].

(** The timing configuration (lines 25-27), in milliseconds, the unit of
    the clock below. *)
Definition debounce_time : Z := 200.
Definition repeat_delay : Z := 500.
Definition repeat_rate : Z := 100.

Inductive message :=
| MsgNavigation (direction : string)
| MsgRepeatStarted (direction : string)
| MsgRepeat (direction : string)
| MsgGpioError (direction : string).

(** The state tracking of the controller (lines 30-33) and what it has
    printed, oldest first. *)
Record controller := Controller {
  last_press : gmap string Z;
  press_count : gmap string Z;
  button_states : gmap string bool;
  repeat_active : gmap string bool;
  printed : list message
}.

Definition set_last_press (v : gmap string Z) (c : controller) : controller :=
  Controller v (press_count c) (button_states c) (repeat_active c) (printed c).
Definition set_press_count (v : gmap string Z) (c : controller) : controller :=
  Controller (last_press c) v (button_states c) (repeat_active c) (printed c).
Definition set_button_states (v : gmap string bool) (c : controller)
    : controller :=
  Controller (last_press c) (press_count c) v (repeat_active c) (printed c).
Definition set_repeat_active (v : gmap string bool) (c : controller)
    : controller :=
  Controller (last_press c) (press_count c) (button_states c) v (printed c).
Definition print (msg : message) (c : controller) : controller :=
  Controller (last_press c) (press_count c) (button_states c)
             (repeat_active c) (printed c ++ [msg]).

(** The state tracking as [setup_gpio] initialises it (lines 51-55). *)
Definition setup_gpio : controller :=
  foldl (fun c direction =>
           set_repeat_active (<[direction := false]> (repeat_active c))
             (set_button_states (<[direction := false]> (button_states c))
                (set_press_count (<[direction := 0]> (press_count c))
                   (set_last_press (<[direction := 0]> (last_press c)) c))))
        (Controller ∅ ∅ ∅ ∅ []) (fst <$> pins).

(** How the body of the loop of [get_input] ends for one direction. *)
Inductive step :=
| Continue
| Return (direction : string).

(** The [try] block of [get_input] (lines 70-95) for one direction at the
    time [current_time]; [read pin] is what [GPIO.input(pin)] gives, [None]
    when it raises. The result is [None] when the block raises, be it the
    read or a missing key; every lookup of a path comes before its first
    assignment, so the fields are then as they were. The conditions read
    the dicts as Python does, left to right and only as far as needed. *)
Definition check (current_time : Z) (read : Z -> option bool)
    (direction : string) (pin : Z) (c : controller)
    : option (step * controller) :=
  read pin ≫= fun button_pressed : bool =>
  if button_pressed then
    button_states c !! direction ≫= fun state : bool =>
    if negb state then
      last_press c !! direction ≫= fun last : Z =>
      if debounce_time <=? current_time - last then
        Some (Return direction,
              print (MsgNavigation direction)
                (set_press_count (<[direction := 1]> (press_count c))
                   (set_button_states (<[direction := true]> (button_states c))
                      (set_last_press (<[direction := current_time]>
                                         (last_press c)) c))))
      else Some (Continue, c)
    else
      last_press c !! direction ≫= fun last : Z =>
      let hold_time := current_time - last in
      if repeat_delay <=? hold_time then
        repeat_active c !! direction ≫= fun active : bool =>
        if negb active then
          Some (Continue,
                print (MsgRepeatStarted direction)
                  (set_repeat_active (<[direction := true]> (repeat_active c))
                                     c))
        else Some (Continue, c)
      else Some (Continue, c)
  else
    button_states c !! direction ≫= fun state : bool =>
    if state then
      Some (Continue,
            set_repeat_active (<[direction := false]> (repeat_active c))
              (set_button_states (<[direction := false]> (button_states c)) c))
    else Some (Continue, c).

(** The loop of [get_input] over the directions still to visit. *)
Fixpoint scan (current_time : Z) (read : Z -> option bool)
    (directions : list (string * Z)) (c : controller)
    : option string * controller :=
  match directions with
  | [] => (None, c)
  | (direction, pin) :: rest =>
      match check current_time read direction pin c with
      | Some (Return pressed, c') => (Some pressed, c')
      | Some (Continue, c') => scan current_time read rest c'
      | None => scan current_time read rest (print (MsgGpioError direction) c)
      end
  end.

(** [get_input] (lines 64-101) *)
Definition get_input (current_time : Z) (read : Z -> option bool)
    (c : controller) : option string * controller :=
  scan current_time read pins c.

(** One direction of one round of [_repeat_handler] (lines 109-119), at
    the time [current_time]: the state it leaves, and [false] when a key
    was missing, which ends the thread there. *)
Definition repeat_one (current_time : Z) (direction : string)
    (c : controller) : controller * bool :=
  match repeat_active c !! direction with
  | None => (c, false)
  | Some false => (c, true)
  | Some true =>
      match button_states c !! direction with
      | None => (c, false)
      | Some false => (c, true)
      | Some true =>
          match last_press c !! direction with
          | None => (c, false)
          | Some last =>
              if repeat_rate <=? current_time - last then
                let c1 := set_last_press (<[direction := current_time]>
                                            (last_press c)) c in
                match press_count c1 !! direction with
                | None => (c1, false)
                | Some count =>
                    let c2 := set_press_count
                                (<[direction := count + 1]> (press_count c1))
                                c1 in
                    (if (count + 1) `mod` 3 =? 0
                     then print (MsgRepeat direction) c2 else c2, true)
                end
              else (c, true)
          end
      end
  end.

(** One round of the loop of [_repeat_handler] (lines 106-119). *)
Fixpoint repeat_round (current_time : Z) (directions : list string)
    (c : controller) : controller * bool :=
  match directions with
  | [] => (c, true)
  | direction :: rest =>
      let (c', alive) := repeat_one current_time direction c in
      if alive then repeat_round current_time rest c' else (c', false)
  end.

(** What happens to the controller, one thing at a time: the main loop
    polls it, or the repeat thread makes a round of its loop. *)
Inductive activity :=
| Poll (current_time : Z) (read : Z -> option bool)
| Round (current_time : Z).

(** The inputs the polls of [activities] report, in order. *)
Fixpoint reported (activities : list activity) (c : controller)
    : list (option string) :=
  match activities with
  | [] => []
  | Poll current_time read :: rest =>
      let (input, c') := get_input current_time read c in
      input :: reported rest c'
  | Round current_time :: rest =>
      reported rest (repeat_round current_time (fst <$> pins) c).1
  end.

(** The direction is newly pressed and past its debounce time: its pin
    reads high, it is not registered as pressed, and the time in its
    [last_press] entry is at least [debounce_time] old. *)
Definition fires (current_time : Z) (read : Z -> option bool)
    (c : controller) (entry : string * Z) : bool :=
  match read entry.2, button_states c !! entry.1, last_press c !! entry.1 with
  | Some true, Some false, Some last =>
      debounce_time <=? current_time - last
  | _, _, _ => false
  end.

(** The first direction, in the order of [directions], that fires. *)
Definition first_firing (current_time : Z) (read : Z -> option bool)
    (c : controller) (directions : list (string * Z)) : option string :=
  fst <$> head (List.filter (fires current_time read c) directions).

(** All four dicts have an entry for every direction. *)
Definition tracked (c : controller) : Prop :=
  forall direction, direction ∈ (fst <$> pins) ->
    is_Some (last_press c !! direction)
    /\ is_Some (press_count c !! direction)
    /\ is_Some (button_states c !! direction)
    /\ is_Some (repeat_active c !! direction).

(** No dict of [c'] has lost a key of [c]. *)
Definition keeps_keys (c c' : controller) : Prop :=
  forall direction,
    (is_Some (last_press c !! direction) ->
     is_Some (last_press c' !! direction))
    /\ (is_Some (press_count c !! direction) ->
        is_Some (press_count c' !! direction))
    /\ (is_Some (button_states c !! direction) ->
        is_Some (button_states c' !! direction))
    /\ (is_Some (repeat_active c !! direction) ->
        is_Some (repeat_active c' !! direction)).

(** The entries of [direction] in the four dicts. *)
Definition entries (c : controller) (direction : string)
    : option Z * option Z * option bool * option bool :=
  (last_press c !! direction, press_count c !! direction,
   button_states c !! direction, repeat_active c !! direction).

End Navigation.

(** ** The capture modes: camera_app.py *)

Module CameraApp.






End CameraApp.

(* ===================================================================== *)
(** * Part II: properties                                                 *)
(* ===================================================================== *)

(** ** Colour codec *)

Lemma all_below_spec (n : Z) (f : Z -> bool) :
  all_below n f = true -> forall x, 0 <= x < n -> f x = true.
Proof.
  unfold all_below. intros H x Hx.
  rewrite forallb_forall in H. apply H.
  apply list_elem_of_In, elem_of_seqZ. lia.
Qed.

Lemma all_fields_checked :
  all_below 32 (fun r5 =>
    all_below 64 (fun g6 => all_below 32 (fun b5 => field_check r5 g6 b5)))
  = true.
Proof. vm_cast_no_check (eq_refl true). Qed.

Lemma field_check_holds (r5 g6 b5 : Z) :
  0 <= r5 < 32 -> 0 <= g6 < 64 -> 0 <= b5 < 32 -> field_check r5 g6 b5 = true.
Proof.
  intros Hr Hg Hb.
  apply (all_below_spec _ _ all_fields_checked) in Hr.
  apply (all_below_spec _ _ Hr) in Hg.
  exact (all_below_spec _ _ Hg _ Hb).
Qed.

Lemma shiftr_field (v k bound : Z) :
  0 <= k -> 0 <= v < bound * 2 ^ k -> 0 <= Z.shiftr v k < bound.
Proof.
  intros Hk Hv. rewrite Z.shiftr_div_pow2 by lia.
  assert (0 < 2 ^ k) by (apply Z.pow_pos_nonneg; lia).
  split.
  - apply Z.div_pos; lia.
  - apply Z.div_lt_upper_bound; lia.
Qed.

Lemma is_byte_spec (v : Z) : is_byte v = true <-> 0 <= v <= 255.
Proof. unfold is_byte. rewrite andb_true_iff, !Z.leb_le. tauto. Qed.

(** The packed value of a pixel, its fields and its two bytes. *)
Lemma rgb565_fields (r g b : Z) :
  0 <= r <= 255 -> 0 <= g <= 255 -> 0 <= b <= 255 ->
  let v := rgb565 (r, g, b) in
  Z.shiftr v 11 = Z.shiftr r 3
  /\ Z.land (Z.shiftr v 5) 63 = Z.shiftr g 2
  /\ Z.land v 31 = Z.shiftr b 3
  /\ 0 <= high_byte v <= 255
  /\ 0 <= low_byte v <= 255
  /\ packed_of_bytes (high_byte v) (low_byte v) = v.
Proof.
  intros Hr Hg Hb v.
  assert (H5 : 0 <= Z.shiftr r 3 < 32) by (apply shiftr_field; lia).
  assert (H6 : 0 <= Z.shiftr g 2 < 64) by (apply shiftr_field; lia).
  assert (H5' : 0 <= Z.shiftr b 3 < 32) by (apply shiftr_field; lia).
  pose proof (field_check_holds _ _ _ H5 H6 H5') as H.
  unfold field_check in H. fold (rgb565 (r, g, b)) in H. fold v in H.
  repeat (apply andb_true_iff in H; destruct H as [H ?]).
  repeat match goal with
         | E : (_ =? _) = true |- _ => apply Z.eqb_eq in E
         | E : is_byte _ = true |- _ => apply is_byte_spec in E
         end.
  repeat split; first [assumption | lia].
Qed.

(** C1. For every RGB triple with components in 0..255 the codec appends
    exactly two bytes, the high and then the low byte of
    [((r >> 3) << 11) | ((g >> 2) << 5) | (b >> 3)]; read back high byte
    first they give that value again, whose bits 11-15, 5-10 and 0-4 are
    the top bits of red, green and blue, so that decoding yields the
    truncated components, red being [(r >> 3) << 3]. *)
Theorem rgb565_codec_two_bytes_roundtrip (r g b : Z) :
  0 <= r <= 255 -> 0 <= g <= 255 -> 0 <= b <= 255 ->
  let v := Z.lor (Z.lor (Z.shiftl (Z.shiftr r 3) 11)
                        (Z.shiftl (Z.shiftr g 2) 5)) (Z.shiftr b 3) in
  rgb565 (r, g, b) = v
  /\ rgb565_data [(r, g, b)] = [Z.land (Z.shiftr v 8) 255; Z.land v 255]
  /\ length (rgb565_data [(r, g, b)]) = 2%nat
  /\ Forall (fun byte => 0 <= byte <= 255) (rgb565_data [(r, g, b)])
  /\ (forall hi lo, rgb565_data [(r, g, b)] = [hi; lo] ->
        packed_of_bytes hi lo = v
        /\ decode565 (packed_of_bytes hi lo)
           = (Z.shiftl (Z.shiftr r 3) 3, Z.shiftl (Z.shiftr g 2) 2,
              Z.shiftl (Z.shiftr b 3) 3))
  /\ Z.shiftr v 11 = Z.shiftr r 3
  /\ Z.land (Z.shiftr v 5) 63 = Z.shiftr g 2
  /\ Z.land v 31 = Z.shiftr b 3.
Proof.
  intros Hr Hg Hb v.
  destruct (rgb565_fields r g b Hr Hg Hb) as (F1 & F2 & F3 & B1 & B2 & P).
  change (rgb565 (r, g, b)) with v in *.
  assert (R5 : 0 <= Z.shiftr r 3 < 32) by (apply shiftr_field; lia).
  split; [reflexivity|]. split; [reflexivity|]. split; [reflexivity|].
  split; [repeat first [apply Forall_nil_2 | apply Forall_cons_2]; assumption|].
  split; [|auto].
  intros hi lo E.
  assert (hi = high_byte v /\ lo = low_byte v) as [-> ->]
    by (injection E as <- <-; split; reflexivity).
  rewrite P. split; [reflexivity|].
  unfold decode565. rewrite F1, F2, F3.
  f_equal. f_equal. f_equal.
  change 31 with (Z.ones 5). rewrite Z.land_ones by lia.
  apply Z.mod_small. exact R5.
Qed.

Lemma rgb565_codec_two_bytes_roundtrip_witness :
  rgb565_data [(255, 128, 7)] = [0xFC; 0x00]
  /\ decode565 (packed_of_bytes 0xFC 0x00) = (248, 128, 0).
Proof.
  destruct (rgb565_codec_two_bytes_roundtrip 255 128 7) as (_ & E & _ & _ & D & _);
    [lia | lia | lia |].
  split; [exact E|].
  destruct (D _ _ E) as [_ D']. exact D'.
Defined.

(** ** Chunked transfer *)

Lemma py_range0_length (stop step : nat) :
  length (py_range0 stop step) = ((stop + step - 1) `div` step)%nat.
Proof. unfold py_range0. rewrite length_fmap. apply length_seq. Qed.

Lemma py_range0_covers (stop step : nat) :
  (0 < step)%nat -> (stop <= length (py_range0 stop step) * step)%nat.
Proof.
  intros Hs. rewrite py_range0_length.
  pose proof (Nat.mul_succ_div_gt (stop + step - 1) step) as H. lia.
Qed.

Lemma data_chunks_unfold (data : list Z) :
  data_chunks data
  = (fun k => take chunk_size (drop (k * chunk_size) data))
      <$> seq 0 (length (py_range0 (length data) chunk_size)).
Proof.
  unfold data_chunks. rewrite py_range0_length. unfold py_range0.
  rewrite <- list_fmap_compose. reflexivity.
Qed.

Lemma concat_slices {A} (c : nat) (Hc : (0 < c)%nat) (m : nat) :
  forall data : list A,
    (length data <= m * c)%nat ->
    concat ((fun k => take c (drop (k * c) data)) <$> seq 0 m) = data.
Proof.
  induction m as [|m IH]; intros data Hlen.
  - destruct data; [reflexivity | simpl in Hlen; lia].
  - change (seq 0 (S m)) with (0%nat :: seq 1 m).
    rewrite <- fmap_S_seq, fmap_cons, <- list_fmap_compose. simpl concat.
    transitivity (take c data ++ drop c data); [|apply take_drop].
    f_equal.
    transitivity (concat ((fun k => take c (drop (k * c) (drop c data)))
                            <$> seq 0 m)).
    + f_equal. apply list_fmap_ext. intros _ k _. simpl.
      rewrite drop_drop. reflexivity.
    + apply IH. rewrite length_drop. lia.
Qed.

Lemma data_chunks_lookup (data : list Z) (j : nat) (c : list Z) :
  data_chunks data !! j = Some c ->
  c = slice_from (j * chunk_size) chunk_size data
  /\ (j * chunk_size < length data)%nat.
Proof.
  rewrite data_chunks_unfold, list_lookup_fmap. intros H.
  destruct (seq 0 _ !! j) as [k|] eqn:E; [|discriminate].
  apply lookup_seq in E as [-> Hj]. simpl in H. injection H as <-.
  split; [reflexivity|].
  rewrite py_range0_length in Hj.
  assert (Hc : (0 < chunk_size)%nat) by (unfold chunk_size; lia).
  pose proof (Nat.Div0.mul_div_le (length data + chunk_size - 1) chunk_size) as H1.
  nia.
Qed.

Lemma data_chunks_concat (data : list Z) : concat (data_chunks data) = data.
Proof.
  rewrite data_chunks_unfold. apply concat_slices.
  - unfold chunk_size. lia.
  - apply py_range0_covers. unfold chunk_size. lia.
Qed.

Lemma data_chunks_at (data : list Z) (j : nat) :
  (j * chunk_size < length data)%nat ->
  data_chunks data !! j = Some (slice_from (j * chunk_size) chunk_size data).
Proof.
  intros Hj. rewrite data_chunks_unfold, list_lookup_fmap.
  rewrite (lookup_seq_lt 0 _ j); [reflexivity|].
  pose proof (py_range0_covers (length data) chunk_size) as H.
  unfold chunk_size in *. nia.
Qed.

(** ** Running the bus primitives *)

Lemma emits_emit (e : event) (es : list event) (s : driver) :
  emits es (emit e s) = emits (e :: es) s.
Proof. unfold emits, emit. simpl. rewrite <- app_assoc. reflexivity. Qed.

Lemma emit_emits (e : event) (s : driver) : emit e s = emits [e] s.
Proof. reflexivity. Qed.

Lemma emits_nil (s : driver) : emits [] s = s.
Proof. destruct s. unfold emits. simpl. rewrite app_nil_r. reflexivity. Qed.

(** The outcome of [m ;; k] when [m] ends well. *)
Lemma bind_ok {A B} (m : M A) (k : A -> M B) (s s' : driver) (a : A) :
  m s = (Ok a, s') -> (m ≫= k) s = k a s'.
Proof. intros H. unfold mbind, M_bind. rewrite H. reflexivity. Qed.

Lemma bind_raise {A B} (m : M A) (k : A -> M B) (s s' : driver) (e : exn) :
  m s = (Raise e, s') -> (m ≫= k) s = (Raise e, s').
Proof. intros H. unfold mbind, M_bind. rewrite H. reflexivity. Qed.

Lemma spi_xfer2_ok (bytes : list Z) (s : driver) :
  bus_ready s -> spi_xfer2 bytes s = (Ok tt, emit (SpiXfer bytes) s).
Proof. intros [Ho Hf]. unfold spi_xfer2. rewrite Ho, Hf. reflexivity. Qed.

Lemma for_each_xfer_ok (chunks : list (list Z)) :
  forall s, bus_ready s ->
    for_each spi_xfer2 chunks s = (Ok tt, emits (SpiXfer <$> chunks) s).
Proof.
  induction chunks as [|c cs IH]; intros s Hs.
  - simpl. rewrite emits_nil. reflexivity.
  - simpl for_each. rewrite (bind_ok _ _ _ _ _ (spi_xfer2_ok c s Hs)).
    rewrite IH by exact Hs. rewrite emits_emit. reflexivity.
Qed.

Lemma send_data_ok (data : list Z) (s : driver) :
  bus_ready s ->
  _send_data data s
  = (Ok tt, emits (GpioOutput DC_PIN HIGH :: (SpiXfer <$> data_chunks data))
                  (write_pin DC_PIN HIGH s)).
Proof.
  intros Hs. unfold _send_data.
  erewrite bind_ok by reflexivity.
  rewrite for_each_xfer_ok by exact Hs.
  rewrite emits_emit. reflexivity.
Qed.

(** C7. [_send_data] slices the stream at the offsets [0, 4096, 8192, ...]:
    the chunks put back together are the stream, each holds at most 4096
    bytes and all but the last exactly 4096, every start offset is even, and
    for a stream of even length every chunk has even length, so that the two
    bytes of the [k]-th pixel always travel in the same chunk. On an open,
    fault-free bus these chunks are what is transferred, in order. *)
Theorem send_data_chunks_keep_pixels_whole (data : list Z) :
  Nat.Even (length data) ->
  concat (data_chunks data) = data
  /\ (forall j c, data_chunks data !! j = Some c ->
        c = slice_from (j * chunk_size) chunk_size data
        /\ py_range0 (length data) chunk_size !! j = Some (j * chunk_size)%nat
        /\ Nat.Even (j * chunk_size)
        /\ (0 < length c <= chunk_size)%nat
        /\ Nat.Even (length c)
        /\ ((S j < length (data_chunks data))%nat -> length c = chunk_size))
  /\ (forall k, (2 * k + 1 < length data)%nat ->
        exists c,
          data_chunks data !! ((2 * k) `div` chunk_size)%nat = Some c
          /\ c !! ((2 * k) `mod` chunk_size)%nat = data !! (2 * k)%nat
          /\ c !! ((2 * k) `mod` chunk_size + 1)%nat = data !! (2 * k + 1)%nat)
  /\ (forall s, bus_ready s ->
        _send_data data s
        = (Ok tt, emits (GpioOutput DC_PIN HIGH :: (SpiXfer <$> data_chunks data))
                        (write_pin DC_PIN HIGH s))).
Proof.
  intros [half Hhalf].
  split; [apply data_chunks_concat|].
  split; [|split; [|intros s Hs; apply send_data_ok, Hs]].
  - intros j c Hc.
    destruct (data_chunks_lookup _ _ _ Hc) as [-> Hj].
    assert (Hlen : length (slice_from (j * chunk_size) chunk_size data)
                   = Nat.min chunk_size (length data - j * chunk_size)).
    { unfold slice_from. rewrite length_take, length_drop. reflexivity. }
    split; [reflexivity|]. split.
    { unfold py_range0. rewrite list_lookup_fmap.
      rewrite (lookup_seq_lt 0 _ j); [reflexivity|].
      pose proof (py_range0_covers (length data) chunk_size) as H.
      rewrite py_range0_length in H. unfold chunk_size in *. nia. }
    split; [exists (j * 2048)%nat; unfold chunk_size; lia|].
    split; [rewrite Hlen; unfold chunk_size in *; lia|].
    split.
    { rewrite Hlen, Hhalf.
      exists (Nat.min 2048 (half - j * 2048)). unfold chunk_size. lia. }
    intros Hnext. rewrite Hlen.
    assert (Hj' : (S j * chunk_size < length data)%nat).
    { destruct (data_chunks data !! S j) as [c'|] eqn:E.
      - apply data_chunks_lookup in E. tauto.
      - apply lookup_ge_None in E. lia. }
    unfold chunk_size in *. lia.
  - intros k Hk.
    pose proof (Nat.div_mod_eq (2 * k) chunk_size) as Hdm.
    assert (Hr : ((2 * k) `mod` chunk_size < chunk_size)%nat)
      by (apply Nat.mod_upper_bound; unfold chunk_size; lia).
    set (j := ((2 * k) `div` chunk_size)%nat) in *.
    set (r := ((2 * k) `mod` chunk_size)%nat) in *.
    assert (Hr1 : (r + 1 < chunk_size)%nat) by (unfold chunk_size in *; lia).
    exists (slice_from (j * chunk_size) chunk_size data).
    split; [apply data_chunks_at; lia|].
    unfold slice_from.
    rewrite !lookup_take_lt, !lookup_drop by lia.
    split; f_equal; lia.
Qed.

Lemma send_data_chunks_keep_pixels_whole_witness :
  concat (data_chunks [0xF8; 0x00; 0x07; 0xE0]) = [0xF8; 0x00; 0x07; 0xE0]
  /\ data_chunks [0xF8; 0x00; 0x07; 0xE0] = [[0xF8; 0x00; 0x07; 0xE0]].
Proof.
  assert (E : Nat.Even (length [0xF8; 0x00; 0x07; 0xE0])) by (exists 2%nat; reflexivity).
  split.
  - exact (proj1 (send_data_chunks_keep_pixels_whole _ E)).
  - vm_compute. reflexivity.
Defined.

(** ** Images *)

Lemma length_paint_from sel ink w (data : list rgb) :
  forall i, length (paint_from sel ink w i data) = length data.
Proof. induction data as [|p rest IH]; intros i; simpl; [|rewrite IH]; reflexivity. Qed.

Lemma paint_from_lookup sel ink w (data : list rgb) :
  forall i (k : nat),
    paint_from sel ink w i data !! k
    = (fun p => if sel (pixel_x w (i + Z.of_nat k)) (pixel_y w (i + Z.of_nat k))
                then ink else p) <$> data !! k.
Proof.
  induction data as [|p rest IH]; intros i k; [reflexivity|].
  destruct k as [|k]; simpl.
  - rewrite Z.add_0_r. reflexivity.
  - rewrite IH. replace (i + 1 + Z.of_nat k) with (i + Z.of_nat (S k)) by lia.
    reflexivity.
Qed.

Lemma paint_panel_sized sel ink (im : pil_image) :
  panel_sized im -> panel_sized (paint sel ink im).
Proof.
  intros (Hw & Hh & Hl). unfold panel_sized, paint.
  cbn [im_width im_height im_data]. rewrite length_paint_from. auto.
Qed.

Lemma pixel_index (x y : Z) :
  0 <= x < WIDTH -> 0 <= y < HEIGHT ->
  pixel_x WIDTH (y * WIDTH + x) = x /\ pixel_y WIDTH (y * WIDTH + x) = y
  /\ 0 <= y * WIDTH + x < WIDTH * HEIGHT.
Proof.
  unfold pixel_x, pixel_y, WIDTH, HEIGHT. intros Hx Hy.
  split; [|split].
  - rewrite Z.add_comm, Z.mod_add by lia. apply Z.mod_small. lia.
  - rewrite Z.add_comm, Z.div_add by lia. rewrite Z.div_small by lia. lia.
  - lia.
Qed.

(** What a painted image holds at an in-range position. *)
Lemma getpixel_paint sel ink (im : pil_image) (x y : Z) :
  panel_sized im -> 0 <= x < WIDTH -> 0 <= y < HEIGHT ->
  getpixel (paint sel ink im) x y
  = if sel x y then Some ink else getpixel im x y.
Proof.
  intros (Hw & Hh & Hl) Hx Hy.
  destruct (pixel_index x y Hx Hy) as (Px & Py & Hi).
  unfold getpixel, paint. cbn [im_width im_height im_data]. rewrite Hw, Hh.
  replace ((0 <=? x) && (x <? WIDTH) && (0 <=? y) && (y <? HEIGHT)) with true
    by (symmetry; rewrite !andb_true_iff, !Z.leb_le, !Z.ltb_lt; lia).
  rewrite paint_from_lookup, Z.add_0_l, Z2Nat.id by lia.
  rewrite Px, Py.
  destruct (im_data im !! Z.to_nat (y * WIDTH + x)) as [p|] eqn:E.
  - simpl. destruct (sel x y); reflexivity.
  - apply lookup_ge_None in E. lia.
Qed.

(** A box that covers the panel paints every pixel. *)
Lemma paint_covering sel ink (im : pil_image) :
  panel_sized im ->
  (forall x y, 0 <= x < WIDTH -> 0 <= y < HEIGHT -> sel x y = true) ->
  paint sel ink im = solid ink.
Proof.
  intros (Hw & Hh & Hl) Hsel. unfold paint, solid. rewrite Hw, Hh. f_equal.
  apply list_eq. intros k. rewrite paint_from_lookup, Z.add_0_l.
  destruct (im_data im !! k) as [p|] eqn:E.
  - apply lookup_lt_Some in E.
    rewrite lookup_replicate_2 by lia. cbn [fmap option_fmap option_map].
    rewrite Hsel; [reflexivity| |]; unfold pixel_x, pixel_y, WIDTH, HEIGHT in *.
    + apply Z.mod_pos_bound. lia.
    + split; [apply Z.div_pos; lia | apply Z.div_lt_upper_bound; lia].
  - apply lookup_ge_None in E. symmetry. apply lookup_replicate_None. lia.
Qed.

Lemma box_covers_panel (x y : Z) :
  0 <= x < WIDTH -> 0 <= y < HEIGHT -> in_box 0 0 WIDTH HEIGHT x y = true.
Proof.
  unfold in_box, WIDTH, HEIGHT. intros Hx Hy.
  rewrite !andb_true_iff, !Z.leb_le. lia.
Qed.

Lemma solid_panel_sized (c : rgb) : panel_sized (solid c).
Proof.
  unfold panel_sized, solid. cbn [im_width im_height im_data].
  rewrite length_replicate, Z2Nat.id by (unfold WIDTH, HEIGHT; lia).
  repeat split; reflexivity.
Qed.

(** ** The encoded frame *)

Lemma rgb565_data_length (pixels : list rgb) :
  length (rgb565_data pixels) = (2 * length pixels)%nat.
Proof. induction pixels as [|p rest IH]; simpl; [|rewrite IH]; lia. Qed.

Lemma rgb565_data_lookup (pixels : list rgb) :
  forall (k : nat) (p : rgb),
    pixels !! k = Some p ->
    rgb565_data pixels !! (2 * k)%nat = Some (high_byte (rgb565 p))
    /\ rgb565_data pixels !! (2 * k + 1)%nat = Some (low_byte (rgb565 p)).
Proof.
  induction pixels as [|q rest IH]; intros k p H; [discriminate|].
  destruct k as [|k].
  - injection H as ->. split; reflexivity.
  - simpl in H. destruct (IH k p H) as [H1 H2].
    replace (2 * S k)%nat with (S (S (2 * k))) by lia.
    replace (S (S (2 * k)) + 1)%nat with (S (S (2 * k + 1))) by lia.
    split; assumption.
Qed.

(** The bytes of the pixel at [(x, y)] in the stream of a panel-sized
    image. *)
Lemma frame_pixel_encoded (im : pil_image) (x y : Z) (p : rgb) :
  panel_sized im -> getpixel im x y = Some p ->
  frame_pixel (rgb565_data (im_data im)) x y = rgb565_bytes p.
Proof.
  intros (Hw & Hh & Hl) Hp. unfold getpixel in Hp.
  destruct ((0 <=? x) && (x <? im_width im) && (0 <=? y) && (y <? im_height im))
    eqn:Hin; [|discriminate].
  rewrite !andb_true_iff, !Z.leb_le, !Z.ltb_lt in Hin.
  rewrite Hw in *. rewrite Hh in *.
  destruct (rgb565_data_lookup _ _ _ Hp) as [H1 H2].
  unfold frame_pixel, slice_from, rgb565_bytes.
  replace (Z.to_nat (2 * (y * WIDTH + x)))
    with (2 * Z.to_nat (y * WIDTH + x))%nat by (unfold WIDTH in *; lia).
  set (k := (2 * Z.to_nat (y * WIDTH + x))%nat) in *.
  apply list_eq. intros [|[|i]].
  - rewrite lookup_take_lt, lookup_drop, Nat.add_0_r by lia. exact H1.
  - rewrite lookup_take_lt, lookup_drop by lia. exact H2.
  - rewrite lookup_take_ge by lia. reflexivity.
Qed.

(** ** Running the methods *)

Ltac ready :=
  unfold bus_ready in *;
  cbn [spi_open fail_after emits emit write_pin set_pins set_store set_image pushed] in *;
  auto.

Lemma send_command_ok (cmd : Z) (s : driver) :
  bus_ready s ->
  _send_command cmd None s
  = (Ok tt, emits (command_events cmd [])
                  (write_pin DC_PIN LOW s)).
Proof.
  intros Hs. unfold _send_command.
  erewrite bind_ok by reflexivity.
  erewrite bind_ok by (apply spi_xfer2_ok; ready).
  rewrite (emit_emits (SpiXfer _)), emits_emit. reflexivity.
Qed.

Lemma send_command_data_ok (cmd b : Z) (bs : list Z) (s : driver) :
  bus_ready s ->
  _send_command cmd (Some (b :: bs)) s
  = (Ok tt, emits (command_events cmd (b :: bs))
                  (write_pin DC_PIN HIGH (write_pin DC_PIN LOW s))).
Proof.
  intros Hs. unfold _send_command.
  erewrite bind_ok by reflexivity.
  erewrite bind_ok by (apply spi_xfer2_ok; ready).
  erewrite bind_ok by reflexivity.
  rewrite spi_xfer2_ok by ready.
  unfold emits, emit, write_pin, set_pins, command_events.
  cbn [store image draw fonts spi_open pins fail_after trace].
  rewrite <- !app_assoc. reflexivity.
Qed.

Lemma sleep_ok (ms : Z) (s : driver) :
  0 <= ms -> sleep ms s = (Ok tt, emit (Sleep ms) s).
Proof.
  intros H. unfold sleep.
  destruct (Z.ltb_spec ms 0); [lia | reflexivity].
Qed.

Lemma clear_ok (color : color_arg) (s : driver) :
  clear color s
  = (Ok tt, set_store (<[draw s := paint (in_box 0 0 WIDTH HEIGHT)
                                         (ink_of (rgb_or (0, 0, 0) color))
                                         (canvas s)]> (store s)) s).
Proof. reflexivity. Qed.

Lemma draw_rectangle_ok (x y width height : Z) (color : color_arg) (s : driver) :
  0 <= width -> 0 <= height ->
  draw_rectangle x y width height color None s
  = (Ok tt, set_store (<[draw s := paint (in_box x y (x + width) (y + height))
                                         (ink_of (rgb_or (255, 255, 255) color))
                                         (canvas s)]> (store s)) s).
Proof.
  intros Hw Hh. unfold draw_rectangle, on_canvas, pil_rectangle.
  replace ((x <=? x + width) && (y <=? y + height)) with true
    by (symmetry; rewrite andb_true_iff, !Z.leb_le; lia).
  reflexivity.
Qed.

Lemma update_ok (s : driver) : bus_ready s -> update s = (Ok tt, pushed s).
Proof.
  intros Hs. unfold update.
  erewrite bind_ok by (apply send_command_ok; exact Hs).
  rewrite send_data_ok by ready.
  unfold pushed, update_events, command_events, emits, write_pin, set_pins.
  cbn [store image draw fonts spi_open pins fail_after trace buffer deref].
  rewrite <- !app_assoc. reflexivity.
Qed.

(** An operation on a closed bus stops at the first transfer. *)
Lemma update_closed (s : driver) :
  spi_open s = false ->
  update s
  = (Raise OSError, emit (GpioOutput DC_PIN LOW)
                         (write_pin DC_PIN LOW s)).
Proof.
  intros Hc. unfold update.
  erewrite bind_raise; [reflexivity|].
  unfold _send_command.
  erewrite bind_ok by reflexivity.
  erewrite bind_raise; [reflexivity|].
  unfold spi_xfer2. cbn [spi_open emit write_pin set_pins]. rewrite Hc. reflexivity.
Qed.

(** ** The store *)

Lemma deref_written (s : driver) (ref : nat) (im : pil_image) :
  (ref < length (store s))%nat ->
  deref (set_store (<[ref := im]> (store s)) s) ref = im.
Proof.
  intros H. unfold deref. cbn [store set_store].
  rewrite list_lookup_insert_eq by exact H. reflexivity.
Qed.

Lemma deref_other (s : driver) (ref ref' : nat) (im : pil_image) :
  ref <> ref' ->
  deref (set_store (<[ref := im]> (store s)) s) ref' = deref s ref'.
Proof.
  intros H. unfold deref. cbn [store set_store].
  rewrite list_lookup_insert_ne by exact H. reflexivity.
Qed.

Lemma deref_panel_sized (s : driver) (ref : nat) :
  Forall panel_sized (store s) -> (ref < length (store s))%nat ->
  panel_sized (deref s ref).
Proof.
  intros Hall Hlt. unfold deref.
  destruct (store s !! ref) as [im|] eqn:E.
  - exact (Forall_lookup_1 _ _ _ _ Hall E).
  - apply lookup_ge_None in E. lia.
Qed.

Lemma well_formed_canvas_write (s : driver) (im : pil_image) :
  well_formed s -> panel_sized im ->
  well_formed (set_store (<[draw s := im]> (store s)) s).
Proof.
  intros (Hi & Hd & Hall) Him. unfold well_formed.
  cbn [store image draw set_store]. rewrite length_insert.
  repeat split; try assumption.
  apply Forall_insert; assumption.
Qed.

Lemma well_formed_fresh : well_formed fresh.
Proof.
  unfold well_formed. cbn [fresh construct]. repeat split.
  - vm_compute. lia.
  - vm_compute. lia.
  - apply Forall_cons_2; [apply (solid_panel_sized (0, 0, 0)) | apply Forall_nil_2].
Qed.

(** ** The panel's reading of a push *)

Lemma panel_data_chunks (chunks : list (list Z)) :
  forall opcode data older,
    fold_left panel_step (SpiXfer <$> chunks)
              (Panel HIGH ((opcode, data) :: older))
    = Panel HIGH ((opcode, data ++ concat chunks) :: older).
Proof.
  induction chunks as [|c cs IH]; intros opcode data older.
  - simpl. rewrite app_nil_r. reflexivity.
  - simpl. rewrite IH, <- app_assoc. reflexivity.
Qed.

Lemma panel_ramwr (p : panel) :
  fold_left panel_step
            [GpioOutput DC_PIN LOW; SpiXfer [0x2C]; GpioOutput DC_PIN HIGH] p
  = Panel HIGH ((0x2C, []) :: received p).
Proof. destruct p. reflexivity. Qed.

Lemma panel_update_events (im : pil_image) (p : panel) :
  fold_left panel_step (update_events im) p
  = Panel HIGH ((0x2C, rgb565_data (im_data im)) :: received p).
Proof.
  unfold update_events.
  rewrite fold_left_app, panel_ramwr, panel_data_chunks, data_chunks_concat.
  reflexivity.
Qed.

(** ** [update] *)

(** C2. Whatever the 128x128 buffer holds, [update] on an open, fault-free
    bus puts the data/command line low, transfers the single opcode 0x2C
    (RAMWR), puts the line high and transfers the encoded buffer in chunks:
    the panel receives one command, RAMWR, followed by exactly
    [128 * 128 * 2 = 32768] bytes, two for every pixel of the buffer in
    row-major order. Nothing else is sent and the buffer is left as it
    was. *)
Theorem update_sends_one_ramwr_and_whole_frame (s : driver) :
  bus_ready s -> panel_sized (buffer s) ->
  let data := rgb565_data (im_data (buffer s)) in
  exists s',
    update s = (Ok tt, s')
    /\ trace s'
       = trace s ++ [GpioOutput DC_PIN LOW; SpiXfer [0x2C]; GpioOutput DC_PIN HIGH]
                 ++ (SpiXfer <$> data_chunks data)
    /\ concat (data_chunks data) = data
    /\ panel_commands (update_events (buffer s)) = [(0x2C, data)]
    /\ Z.of_nat (length data) = WIDTH * HEIGHT * 2
    /\ WIDTH * HEIGHT * 2 = 32768
    /\ (forall x y, 0 <= x < WIDTH -> 0 <= y < HEIGHT ->
          exists p, getpixel (buffer s) x y = Some p
                    /\ frame_pixel data x y = rgb565_bytes p)
    /\ buffer s' = buffer s.
Proof.
  intros Hs Hsz data. exists (pushed s).
  split; [apply update_ok, Hs|].
  split; [reflexivity|].
  split; [apply data_chunks_concat|].
  split; [unfold panel_commands; rewrite panel_update_events; reflexivity|].
  split.
  { unfold data. rewrite rgb565_data_length.
    destruct Hsz as (_ & _ & Hl). lia. }
  split; [reflexivity|].
  split; [|reflexivity].
  intros x y Hx Hy.
  destruct (pixel_index x y Hx Hy) as (_ & _ & Hi).
  assert (Hp : is_Some (getpixel (buffer s) x y)).
  { destruct Hsz as (Hw & Hh & Hl). unfold getpixel. rewrite Hw, Hh.
    replace ((0 <=? x) && (x <? WIDTH) && (0 <=? y) && (y <? HEIGHT)) with true
      by (symmetry; rewrite !andb_true_iff, !Z.leb_le, !Z.ltb_lt; lia).
    apply lookup_lt_is_Some. lia. }
  destruct Hp as [p Hp]. exists p. split; [exact Hp|].
  apply frame_pixel_encoded; assumption.
Qed.

Lemma update_sends_one_ramwr_and_whole_frame_witness :
  exists s',
    update fresh = (Ok tt, s')
    /\ panel_commands (update_events (buffer fresh))
       = [(0x2C, rgb565_data (im_data (buffer fresh)))]
    /\ Z.of_nat (length (rgb565_data (im_data (buffer fresh)))) = 32768.
Proof.
  assert (Hs : bus_ready fresh) by (split; reflexivity).
  assert (Hz : panel_sized (buffer fresh)) by apply (solid_panel_sized (0, 0, 0)).
  destruct (update_sends_one_ramwr_and_whole_frame fresh Hs Hz)
    as (s' & Hrun & _ & _ & Hcmd & Hlen & Hnum & _).
  exists s'. split; [exact Hrun|]. split; [exact Hcmd|].
  rewrite Hlen. exact Hnum.
Defined.

(** ** [flash_screen] *)

Lemma ink_of_in_range (r g b : Z) :
  0 <= r <= 255 -> 0 <= g <= 255 -> 0 <= b <= 255 -> ink_of (r, g, b) = (r, g, b).
Proof. intros. unfold ink_of, clip8. repeat f_equal; lia. Qed.

(** The state [flash_screen] reaches, step by step. *)
Lemma flash_screen_run (s : driver) (color : color_arg) (duration : Z) :
  bus_ready s -> 0 <= duration ->
  let s1 := set_store (store s ++ [buffer s]) s in
  let s2 := set_store (<[draw s1 := paint (in_box 0 0 WIDTH HEIGHT)
                                          (ink_of (rgb_or (0, 0, 0) color))
                                          (canvas s1)]> (store s1)) s1 in
  let s3 := emit (Sleep duration) (pushed s2) in
  let s4 := set_image (length (store s)) s3 in
  flash_screen color duration s = (Ok tt, pushed s4).
Proof.
  intros Hs Hd s1 s2 s3 s4. unfold flash_screen.
  erewrite bind_ok by reflexivity.
  erewrite bind_ok by apply clear_ok.
  erewrite bind_ok by (apply update_ok; ready).
  erewrite bind_ok by (apply sleep_ok; exact Hd).
  erewrite bind_ok by reflexivity.
  apply update_ok. ready.
Qed.

(** What [flash_screen] leaves on a well-formed driver: the saved copy has
    become the buffer, [self.draw] still paints on the image it was created
    on, and two frames went out with the pause between them. *)
Lemma flash_screen_effect (s : driver) (color : color_arg) (duration : Z) :
  well_formed s -> bus_ready s -> 0 <= duration ->
  exists s' shown,
    flash_screen color duration s = (Ok tt, s')
    /\ buffer s' = buffer s
    /\ trace s' = trace s ++ update_events shown ++ [Sleep duration]
                          ++ update_events (buffer s)
    /\ (draw s = image s -> shown = solid (ink_of (rgb_or (0, 0, 0) color)))
    /\ image s' = length (store s)
    /\ draw s' = draw s
    /\ store s' !! image s' = Some (buffer s)
    /\ well_formed s' /\ bus_ready s'.
Proof.
  intros (Hi & Hd & Hall) Hs Hdur.
  pose proof (flash_screen_run s color duration Hs Hdur) as Hrun.
  cbv zeta in Hrun.
  set (s1 := set_store (store s ++ [buffer s]) s) in *.
  set (painted := paint (in_box 0 0 WIDTH HEIGHT)
                        (ink_of (rgb_or (0, 0, 0) color)) (canvas s1)) in *.
  set (s2 := set_store (<[draw s1 := painted]> (store s1)) s1) in *.
  assert (Hcanvas : canvas s1 = canvas s).
  { unfold canvas, deref, s1. cbn [store draw set_store].
    rewrite lookup_app_l by exact Hd. reflexivity. }
  assert (Hsaved : store s2 !! length (store s) = Some (buffer s)).
  { unfold s2, s1. cbn [store draw set_store].
    rewrite list_lookup_insert_ne by lia.
    rewrite lookup_app_r by lia. rewrite Nat.sub_diag. reflexivity. }
  assert (Hsized : panel_sized (canvas s)).
  { apply deref_panel_sized; assumption. }
  eexists. exists (buffer s2).
  split; [exact Hrun|].
  assert (Hback : buffer (set_image (length (store s))
                            (emit (Sleep duration) (pushed s2))) = buffer s).
  { unfold buffer at 1, deref.
    cbn [store image set_image emit pushed emits write_pin set_pins].
    rewrite Hsaved. reflexivity. }
  split; [exact Hback|].
  split.
  { unfold pushed at 1. cbn [trace emits write_pin set_pins set_image emit].
    rewrite Hback. unfold pushed. cbn [trace emits write_pin set_pins set_image emit].
    rewrite <- !app_assoc. reflexivity. }
  split.
  { intros Halias. unfold buffer, s2. cbn [image set_store].
    replace (image s1) with (draw s1) by exact Halias.
    rewrite deref_written
      by (unfold s1; cbn [store set_store draw]; rewrite length_app; lia).
    unfold painted. rewrite Hcanvas. apply paint_covering; [exact Hsized|].
    apply box_covers_panel. }
  split; [reflexivity|].
  split; [reflexivity|].
  split; [exact Hsaved|].
  split; [|ready].
  unfold well_formed.
  cbn [store image draw pushed emits write_pin set_pins set_image emit].
  unfold s2, s1. cbn [store image draw set_store].
  rewrite length_insert, length_app. cbn [length].
  split; [lia|]. split; [lia|].
  apply Forall_insert.
  - apply Forall_app. split; [exact Hall|].
    apply Forall_cons_2; [|apply Forall_nil_2].
    apply deref_panel_sized; assumption.
  - unfold painted. apply paint_panel_sized. rewrite Hcanvas. exact Hsized.
Qed.



(** ** [draw_rectangle] *)

(** On a canvas of the panel's size, [draw_rectangle x y width height] with
    no outline paints the columns [x .. x + width] and the rows
    [y .. y + height], both ends included, and leaves the rest. *)
Lemma draw_rectangle_paints_closed_box (s : driver) (x y width height : Z)
    (color : color_arg) (px py : Z) :
  well_formed s -> 0 <= width -> 0 <= height ->
  0 <= px < WIDTH -> 0 <= py < HEIGHT ->
  exists s',
    draw_rectangle x y width height color None s = (Ok tt, s')
    /\ getpixel (canvas s') px py
       = if in_box x y (x + width) (y + height) px py
         then Some (ink_of (rgb_or (255, 255, 255) color))
         else getpixel (canvas s) px py.
Proof.
  intros (Hi & Hd & Hall) Hw Hh Hx Hy.
  eexists. split; [apply draw_rectangle_ok; assumption|].
  unfold canvas at 1. cbn [draw set_store]. rewrite deref_written by exact Hd.
  apply getpixel_paint; try assumption.
  apply deref_panel_sized; assumption.
Qed.

(** C3, evaluated. In the specification's scenario the last frame pushed
    holds the encoding 0xF800 of the fill not only in columns and rows
    10..29 but also in column 30 and in row 30, which lie outside
    [10, 10 + 20); column and row 31 are black. *)
Theorem rectangle_scenario_paints_column_and_row_30 :
  let s := snd (rectangle_scenario fresh) in
  fst (rectangle_scenario fresh) = Ok tt
  /\ rgb565_bytes (255, 0, 0) = [0xF8; 0x00]
  /\ last_pushed_pixel s 10 10 = Some [0xF8; 0x00]
  /\ last_pushed_pixel s 29 29 = Some [0xF8; 0x00]
  /\ last_pushed_pixel s 30 10 = Some [0xF8; 0x00]
  /\ last_pushed_pixel s 10 30 = Some [0xF8; 0x00]
  /\ last_pushed_pixel s 30 30 = Some [0xF8; 0x00]
  /\ last_pushed_pixel s 31 10 = Some [0x00; 0x00]
  /\ last_pushed_pixel s 10 31 = Some [0x00; 0x00]
  /\ last_pushed_pixel s 9 10 = Some [0x00; 0x00].
Proof. vm_compute. repeat split. Qed.

(** ** The buffer and the canvas after a flash *)

(** After [flash_screen] the drawing primitives paint on the image that was
    the buffer before the flash, not on the buffer: whatever is drawn, the
    buffer keeps its pixels. *)
Lemma drawing_after_flash_misses_buffer (s : driver) (color : color_arg)
    (duration : Z) (f : pil_image -> result pil_image) :
  well_formed s -> bus_ready s -> 0 <= duration ->
  exists s1,
    flash_screen color duration s = (Ok tt, s1)
    /\ draw s1 <> image s1
    /\ forall s2, on_canvas f s1 = (Ok tt, s2) -> buffer s2 = buffer s.
Proof.
  intros Hwf Hs Hd.
  destruct (flash_screen_effect s color duration Hwf Hs Hd)
    as (s1 & shown & Hrun & Hbuf & _ & _ & Himg & Hdraw & _).
  exists s1. split; [exact Hrun|].
  destruct Hwf as (_ & Hlt & _).
  assert (Hne : draw s1 <> image s1) by lia.
  split; [exact Hne|].
  intros s2 Hdrawn. unfold on_canvas in Hdrawn.
  destruct (f (canvas s1)) as [im|e]; [|discriminate].
  injection Hdrawn as <-.
  unfold buffer at 1. cbn [image set_store].
  rewrite deref_other by exact Hne. exact Hbuf.
Qed.

(** C10, evaluated. Start the panel, flash, draw a red square at the
    origin, push: the flash ends well, but [self.draw] still paints on
    image 0 while [self.image] is now image 1; the square is on the
    canvas, the buffer is black at (5, 5) and so is the frame pushed. *)
Theorem drawing_after_flash_is_not_transmitted :
  let s := snd (flash_then_draw_scenario fresh) in
  fst (flash_then_draw_scenario fresh) = Ok tt
  /\ draw s = 0%nat /\ image s = 1%nat
  /\ getpixel (canvas s) 5 5 = Some (255, 0, 0)
  /\ getpixel (buffer s) 5 5 = Some (0, 0, 0)
  /\ last_pushed_pixel s 5 5 = Some [0x00; 0x00]
  /\ rgb565_bytes (255, 0, 0) = [0xF8; 0x00].
Proof. vm_compute. repeat split. Qed.

(** ** [cleanup] *)

(** The state after the statements of the [try] block, when none fails. *)
Lemma cleanup_body_run (s : driver) :
  bus_ready s ->
  let s1 := set_store (<[draw s := paint (in_box 0 0 WIDTH HEIGHT)
                                         (ink_of (rgb_or (0, 0, 0) black))
                                         (canvas s)]> (store s)) s in
  let s2 := emit SpiClose (set_spi_open false (pushed s1)) in
  let s3 := emit (GpioOutput RST_PIN LOW) (write_pin RST_PIN LOW s2) in
  (clear black ;; update ;; spi_close ;; gpio_output RST_PIN LOW ;;
   print MsgCleanupComplete) s
  = (Ok tt, emit (Print MsgCleanupComplete) s3).
Proof.
  intros Hs s1 s2 s3.
  erewrite bind_ok by apply clear_ok.
  erewrite bind_ok by (apply update_ok; ready).
  reflexivity.
Qed.



(** A bus fault in the middle of the last push: the fourth transfer fails,
    [cleanup] prints the error and returns; the handle is left open. *)
Example cleanup_swallows_bus_fault :
  let s := construct (fun _ => true) (Some 3%nat) in
  fst (cleanup s) = Ok tt
  /\ last (trace (snd (cleanup s))) = Some (Print (MsgCleanupError OSError))
  /\ spi_open (snd (cleanup s)) = true.
Proof. vm_compute. repeat split. Qed.

(** ** [init_display] *)

Lemma at_bus_start (s : driver) : at_bus [] (pins s) s = s.
Proof. destruct s. unfold at_bus. cbn. rewrite app_nil_r. reflexivity. Qed.

Lemma at_bus_emits (es es' : list event) (p : gmap Z bool) (s : driver) :
  emits es' (at_bus es p s) = at_bus (es ++ es') p s.
Proof. unfold emits, at_bus. cbn. rewrite <- app_assoc. reflexivity. Qed.

Lemma at_bus_write_pin (es : list event) (p : gmap Z bool) (s : driver)
    (pin : Z) (level : bool) :
  write_pin pin level (at_bus es p s) = at_bus es (<[pin := level]> p) s.
Proof. reflexivity. Qed.

Lemma print_at_bus (msg : message) es p s :
  print msg (at_bus es p s) = (Ok tt, at_bus (es ++ [Print msg]) p s).
Proof. unfold print. rewrite emit_emits, at_bus_emits. reflexivity. Qed.

Lemma gpio_at_bus (pin : Z) (level : bool) es p s :
  gpio_output pin level (at_bus es p s)
  = (Ok tt, at_bus (es ++ [GpioOutput pin level]) (<[pin := level]> p) s).
Proof.
  unfold gpio_output. rewrite emit_emits, at_bus_write_pin, at_bus_emits.
  reflexivity.
Qed.

Lemma sleep_at_bus (ms : Z) es p s :
  0 <= ms -> sleep ms (at_bus es p s) = (Ok tt, at_bus (es ++ [Sleep ms]) p s).
Proof.
  intros H. rewrite sleep_ok by exact H.
  rewrite emit_emits, at_bus_emits. reflexivity.
Qed.

Lemma send_command_at_bus (cmd : Z) es p s :
  bus_ready s ->
  _send_command cmd None (at_bus es p s)
  = (Ok tt, at_bus (es ++ command_events cmd []) (<[DC_PIN := LOW]> p) s).
Proof.
  intros H. rewrite send_command_ok by exact H.
  rewrite at_bus_write_pin, at_bus_emits. reflexivity.
Qed.

Lemma send_command_data_at_bus (cmd b : Z) (bs : list Z) es p s :
  bus_ready s ->
  _send_command cmd (Some (b :: bs)) (at_bus es p s)
  = (Ok tt, at_bus (es ++ command_events cmd (b :: bs))
                   (<[DC_PIN := HIGH]> (<[DC_PIN := LOW]> p)) s).
Proof.
  intros H. rewrite send_command_data_ok by exact H.
  rewrite !at_bus_write_pin, at_bus_emits. reflexivity.
Qed.

Lemma clear_at_bus (color : color_arg) es p s :
  clear color (at_bus es p s) = (Ok tt, at_bus es p (cleared color s)).
Proof. reflexivity. Qed.

Lemma update_at_bus es p s :
  bus_ready s ->
  update (at_bus es p s)
  = (Ok tt, at_bus (es ++ update_events (buffer s))
                   (<[DC_PIN := HIGH]> (<[DC_PIN := LOW]> p)) s).
Proof.
  intros H. rewrite update_ok by exact H. unfold pushed.
  rewrite !at_bus_write_pin, at_bus_emits. reflexivity.
Qed.

Lemma cleared_buffer (color : color_arg) (s : driver) :
  well_formed s -> draw s = image s ->
  buffer (cleared color s) = solid (ink_of (rgb_or (0, 0, 0) color))
  /\ well_formed (cleared color s).
Proof.
  intros Hwf Halias. pose proof Hwf as (Hi & Hd & Hall).
  assert (Hpaint : paint (in_box 0 0 WIDTH HEIGHT)
                         (ink_of (rgb_or (0, 0, 0) color)) (canvas s)
                   = solid (ink_of (rgb_or (0, 0, 0) color))).
  { apply paint_covering.
    - apply deref_panel_sized; assumption.
    - apply box_covers_panel. }
  unfold cleared. rewrite Hpaint. split.
  - unfold buffer. cbn [image set_store]. rewrite <- Halias.
    apply deref_written. exact Hd.
  - apply well_formed_canvas_write; [exact Hwf | apply solid_panel_sized].
Qed.

Ltac bus_step Hs :=
  first
    [ erewrite bind_ok by (apply send_command_at_bus; exact Hs)
    | erewrite bind_ok by (apply send_command_data_at_bus; exact Hs)
    | erewrite bind_ok by (apply sleep_at_bus; lia)
    | erewrite bind_ok by apply gpio_at_bus
    | erewrite bind_ok by apply print_at_bus
    | erewrite bind_ok by apply clear_at_bus
    | erewrite bind_ok by (apply update_at_bus; exact Hs) ].

(** The whole run of [init_display], the events gathered in order. *)
Lemma init_display_run (s : driver) :
  bus_ready s ->
  exists p,
    init_display s
    = (Ok tt, at_bus (startup_events ++ update_events (buffer (cleared black s))
                                     ++ [Print MsgDisplayReady])
                     p (cleared black s)).
Proof.
  intros Hs.
  replace (init_display s) with (init_display (at_bus [] (pins s) s))
    by (rewrite at_bus_start; reflexivity).
  unfold init_display.
  repeat bus_step Hs.
  rewrite print_at_bus. eexists. reflexivity.
Qed.

(** C5, as the code has it. On a driver with an open, fault-free bus
    [init_display] runs one fixed sequence: reset high, 10 ms, reset low,
    10 ms, reset high, 120 ms; software reset, 150 ms; sleep-out, 500 ms;
    frame rate, inversion, power, VCOM, inversion off, memory access and
    pixel format; the addressing window 0..127 on both axes; the two gamma
    tables; normal mode on, 10 ms; display on, 120 ms; then the buffer is
    cleared to black and pushed. *)
Theorem init_display_startup_sequence (s : driver) :
  well_formed s -> bus_ready s -> draw s = image s ->
  exists s',
    init_display s = (Ok tt, s')
    /\ trace s' = trace s ++ startup_events ++ update_events (solid (0, 0, 0))
                          ++ [Print MsgDisplayReady]
    /\ panel_commands startup_events = startup_commands
    /\ pauses None startup_events
       = [(Some (GpioOutput RST_PIN HIGH), 10);
          (Some (GpioOutput RST_PIN LOW), 10);
          (Some (GpioOutput RST_PIN HIGH), 120);
          (Some (SpiXfer [0x01]), 150);
          (Some (SpiXfer [0x11]), 500);
          (Some (SpiXfer [0x13]), 10);
          (Some (SpiXfer [0x29]), 120)]
    /\ startup_commands !! 15%nat = Some (0x2A, [0; 0; 0; WIDTH - 1])
    /\ startup_commands !! 16%nat = Some (0x2B, [0; 0; 0; HEIGHT - 1])
    /\ buffer s' = solid (0, 0, 0)
    /\ well_formed s' /\ bus_ready s'.
Proof.
  intros Hwf Hs Halias.
  destruct (init_display_run s Hs) as [p Hrun].
  destruct (cleared_buffer black s Hwf Halias) as [Hbuf Hwf'].
  change (ink_of (rgb_or (0, 0, 0) black)) with ((0, 0, 0) : rgb) in Hbuf.
  eexists. split; [exact Hrun|].
  split; [cbn [trace at_bus]; rewrite Hbuf; reflexivity|].
  split; [vm_compute; reflexivity|].
  split; [vm_compute; reflexivity|].
  split; [reflexivity|]. split; [reflexivity|].
  split; [exact Hbuf|].
  split; [exact Hwf' | exact Hs].
Qed.

Lemma init_display_startup_sequence_witness :
  exists s',
    init_display fresh = (Ok tt, s')
    /\ trace s' = trace fresh ++ startup_events ++ update_events (solid (0, 0, 0))
                              ++ [Print MsgDisplayReady].
Proof.
  assert (Hs : bus_ready fresh) by (split; reflexivity).
  destruct (init_display_startup_sequence fresh well_formed_fresh Hs eq_refl)
    as (s' & Hrun & Htr & _).
  exists s'. split; assumption.
Defined.

(** C5, as stated: the order "configuration table, then addressing window"
    does not hold, the gamma tables (0xE0, 0xE1) are the 18th and 19th
    command while the window (0x2A) is the 16th. *)
Lemma init_display_sets_window_before_gamma :
  ~ table_before_window
      (fst <$> panel_commands (trace (snd (init_display fresh)))).
Proof.
  intros H.
  assert (Hlt : (17 < 15)%nat); [|lia].
  apply (H 17%nat 15%nat 0xE0).
  - apply list_elem_of_In. unfold config_table_opcodes.
    do 11 right. left. reflexivity.
  - vm_compute. reflexivity.
  - vm_compute. reflexivity.
Qed.

(** ** What the methods can raise *)

Lemma raises_only_bind {A B} (allowed : exn -> Prop) (m : M A) (k : A -> M B) :
  raises_only allowed m -> (forall a, raises_only allowed (k a)) ->
  raises_only allowed (m ≫= k).
Proof.
  intros Hm Hk s. specialize (Hm s). unfold mbind, M_bind.
  destruct (m s) as [[a|e] s']; cbn [fst] in *.
  - apply Hk.
  - exact Hm.
Qed.

Lemma raises_only_gpio allowed pin level : raises_only allowed (gpio_output pin level).
Proof. intros s. exact I. Qed.

Lemma raises_only_xfer bytes : raises_only (eq OSError) (spi_xfer2 bytes).
Proof.
  intros s. unfold spi_xfer2.
  destruct (spi_open s); [|reflexivity].
  destruct (fail_after s) as [[|n]|]; cbn [fst]; auto.
Qed.

Lemma raises_only_for_each {A} allowed (f : A -> M unit) (xs : list A) :
  (forall x, raises_only allowed (f x)) -> raises_only allowed (for_each f xs).
Proof.
  intros Hf. induction xs as [|x rest IH].
  - intros s. exact I.
  - cbn [for_each]. apply raises_only_bind; [apply Hf | intros _; exact IH].
Qed.

Lemma raises_only_send_command cmd data :
  raises_only (eq OSError) (_send_command cmd data).
Proof.
  unfold _send_command.
  apply raises_only_bind; [apply raises_only_gpio | intros _].
  apply raises_only_bind; [apply raises_only_xfer | intros _].
  destruct data as [[|b bs]|]; try (intros s; exact I).
  apply raises_only_bind; [apply raises_only_gpio | intros _].
  apply raises_only_xfer.
Qed.

Lemma raises_only_update : raises_only (eq OSError) update.
Proof.
  intros s. unfold update.
  apply (raises_only_bind (eq OSError)).
  - apply raises_only_send_command.
  - intros _. unfold _send_data.
    apply raises_only_bind; [apply raises_only_gpio | intros _].
    apply raises_only_for_each. apply raises_only_xfer.
Qed.

Lemma bus_ready_construct (readable : string -> bool) :
  bus_ready (construct readable None)
  /\ store (construct readable None) = [solid (0, 0, 0)]
  /\ image (construct readable None) = 0%nat
  /\ draw (construct readable None) = 0%nat.
Proof.
  unfold construct, load_fonts.
  destruct (first_readable readable font_paths); repeat split.
Qed.

(** C4, as the code has it. No method looks at the life cycle. [clear]
    never raises and an ordered [draw_rectangle] neither, on any driver:
    constructed only, started, or cleaned up; [update] can only raise the
    bus's [OSError]: on a driver that was constructed and not started it
    pushes the frame, and once the handle is closed, as [cleanup] leaves it,
    it raises [OSError]. [NotReady] and [Closed] are never raised. *)
Theorem operations_ignore_lifecycle :
  (forall color, raises_only (fun _ => False) (clear color))
  /\ (forall x y width height color s,
        0 <= width -> 0 <= height ->
        fst (draw_rectangle x y width height color None s) = Ok tt)
  /\ raises_only (eq OSError) update
  /\ (forall readable,
        update (construct readable None)
        = (Ok tt, pushed (construct readable None)))
  /\ (forall s, spi_open s = false -> fst (update s) = Raise OSError)
  /\ (forall s s1, bus_ready s -> cleanup s = (Ok tt, s1) ->
        spi_open s1 = false
        /\ fst (update s1) = Raise OSError
        /\ fst (clear black s1) = Ok tt).
Proof.
  split; [intros color s; exact I|].
  split; [intros x y w h color s Hw Hh; rewrite draw_rectangle_ok by assumption;
          reflexivity|].
  split; [exact raises_only_update|].
  split; [intros readable; apply update_ok, bus_ready_construct|].
  split; [intros s Hc; rewrite update_closed by exact Hc; reflexivity|].
  intros s s1 Hs Hrun.
  assert (Hclosed : spi_open s1 = false).
  { unfold cleanup, try_except in Hrun.
    rewrite (cleanup_body_run s Hs) in Hrun. injection Hrun as <-. reflexivity. }
  split; [exact Hclosed|].
  split; [rewrite update_closed by exact Hclosed; reflexivity | reflexivity].
Qed.

Lemma operations_ignore_lifecycle_witness :
  fst (draw_rectangle 10 10 20 20 red None fresh) = Ok tt
  /\ fst (update (snd (cleanup fresh))) = Raise OSError.
Proof.
  destruct operations_ignore_lifecycle as (_ & Hrect & _ & _ & Hclosed & _).
  split.
  - apply Hrect; lia.
  - apply Hclosed. vm_compute. reflexivity.
Defined.

(** C4, as stated: neither [clear] nor [update] is guarded. Before
    [init_display] both end well; after [init_display] and [cleanup],
    [clear] ends well and [update] raises [OSError], not [Closed]. *)
Lemma clear_and_update_are_not_guarded :
  ~ guarded_by_lifecycle (clear black)
  /\ ~ guarded_by_lifecycle update
  /\ fst (clear black fresh) = Ok tt
  /\ fst (update fresh) = Ok tt
  /\ fst (clear black (snd ((init_display ;; cleanup) fresh))) = Ok tt
  /\ fst (update (snd ((init_display ;; cleanup) fresh))) = Raise OSError.
Proof.
  split; [intros [Hbefore _]; vm_compute in Hbefore; discriminate|].
  split; [intros [Hbefore _]; vm_compute in Hbefore; discriminate|].
  vm_compute. repeat split.
Qed.

(** ** Fonts *)

Lemma not_supported_size (size : Z) :
  size <> 8 -> size <> 9 -> size <> 10 -> size <> 12 -> size <> 14 ->
  size <> 16 -> size <> 20 -> size <> 24 -> size ∉ supported_sizes.
Proof.
  intros. rewrite list_elem_of_In. unfold supported_sizes. simpl.
  intros Hin. repeat destruct Hin as [Hin|Hin]; auto.
Qed.

Ltac by_size size :=
  destruct (decide (size = 8)) as [->|];
   [|destruct (decide (size = 9)) as [->|];
   [|destruct (decide (size = 10)) as [->|];
   [|destruct (decide (size = 12)) as [->|];
   [|destruct (decide (size = 14)) as [->|];
   [|destruct (decide (size = 16)) as [->|];
   [|destruct (decide (size = 20)) as [->|];
   [|destruct (decide (size = 24)) as [->|]]]]]]]].

Lemma select_font_truetype (font_path : string) (size : Z) :
  select_font (truetype_fonts font_path) size None
  = Some (TrueType font_path
            (if decide (size ∈ supported_sizes) then size else 10)).
Proof.
  by_size size; try reflexivity.
  assert (Hout : size ∉ supported_sizes) by (apply not_supported_size; assumption).
  destruct (decide (size ∈ supported_sizes)) as [Hin|_]; [contradiction|].
  unfold select_font, truetype_fonts.
  rewrite !lookup_insert_ne by congruence. rewrite lookup_empty. reflexivity.
Qed.

Lemma select_font_default (size : Z) :
  select_font default_fonts size None = Some DefaultFont.
Proof.
  by_size size; try reflexivity.
  assert (Hnone : default_fonts !! size = None).
  { change default_fonts
      with (<[8 := DefaultFont]> (<[9 := DefaultFont]> (<[10 := DefaultFont]>
           (<[12 := DefaultFont]> (<[14 := DefaultFont]> (<[16 := DefaultFont]>
           (<[20 := DefaultFont]> (<[24 := DefaultFont]> (∅ : gmap Z font))))))))).
    rewrite !lookup_insert_ne by congruence. apply lookup_empty. }
  unfold select_font. rewrite Hnone. reflexivity.
Qed.

Lemma fonts_construct (readable : string -> bool) (faults : option nat) :
  fonts (construct readable faults)
  = match first_readable readable font_paths with
    | Some font_path => truetype_fonts font_path
    | None => default_fonts
    end.
Proof.
  unfold construct, load_fonts.
  destruct (first_readable readable font_paths); reflexivity.
Qed.

(** C8, as the code has it. [draw_text] never fails on the size. With an
    explicit font it uses that font. Without one, a supported size (8, 9,
    10, 12, 14, 16, 20, 24) selects the font opened at that size and every
    other size selects the font opened at size 10; when no font file could
    be opened, every size selects the built-in default font. *)
Theorem draw_text_font_selection (readable : string -> bool)
    (faults : option nat) (size : Z) :
  let fs := fonts (construct readable faults) in
  (forall f, select_font fs size (Some f) = Some f)
  /\ select_font fs size None
     = match first_readable readable font_paths with
       | Some font_path =>
           Some (TrueType font_path
                   (if decide (size ∈ supported_sizes) then size else 10))
       | None => Some DefaultFont
       end
  /\ (forall pil_text text x y color font_arg s,
        draw_text pil_text text x y color size font_arg s
        = (Ok tt,
           set_store (<[draw s := pil_text (x, y) text
                                    (select_font (fonts s) size font_arg)
                                    (rgb_or (255, 255, 255) color)
                                    (canvas s)]> (store s)) s)).
Proof.
  intros fs. split; [reflexivity|]. split; [|reflexivity].
  unfold fs. rewrite fonts_construct.
  destruct (first_readable readable font_paths) as [font_path|].
  - apply select_font_truetype.
  - apply select_font_default.
Qed.

(** C8, as stated: the call [draw_text(..., size=7)] of camera_app.py is
    set in the font opened at size 10, and 8 is nearer to 7 than 10 is. *)
Lemma draw_text_size_7_is_not_nearest :
  ~ rasterizes_at_nearest (fonts fresh) 7.
Proof.
  intros (f & n & Hsel & Hsize & _ & Hnear).
  unfold fresh in Hsel. rewrite fonts_construct in Hsel.
  cbn [first_readable font_paths] in Hsel.
  rewrite select_font_truetype in Hsel.
  destruct (decide (7 ∈ supported_sizes)) as [Hin|_].
  - revert Hin. apply not_supported_size; lia.
  - injection Hsel as <-. injection Hsize as <-.
    assert (H8 : 8 ∈ supported_sizes)
      by (apply list_elem_of_In; left; reflexivity).
    specialize (Hnear 8 H8). lia.
Qed.

(* ===================================================================== *)
(** * Part III: further properties of the driver and of its callers       *)
(* ===================================================================== *)

(** ** What the bus primitives leave alone *)

Lemma same_images_refl (s : driver) : same_images s s.
Proof. repeat split. Qed.

Lemma same_images_trans (s1 s2 s3 : driver) :
  same_images s1 s2 -> same_images s2 s3 -> same_images s1 s3.
Proof.
  intros (A1 & A2 & A3 & A4) (B1 & B2 & B3 & B4).
  repeat split; congruence.
Qed.

Lemma keeps_images_bind {A B} (m : M A) (k : A -> M B) :
  keeps_images m -> (forall a, keeps_images (k a)) -> keeps_images (m ≫= k).
Proof.
  intros Hm Hk s. specialize (Hm s). unfold mbind, M_bind.
  destruct (m s) as [[a|e] s']; cbn [snd] in *.
  - eapply same_images_trans; [exact Hm | apply Hk].
  - exact Hm.
Qed.

Lemma keeps_images_ret {A} (a : A) : keeps_images (mret a : M A).
Proof. intros s. apply same_images_refl. Qed.

Lemma keeps_images_gpio pin level : keeps_images (gpio_output pin level).
Proof. intros s. repeat split. Qed.

Lemma keeps_images_print msg : keeps_images (print msg).
Proof. intros s. repeat split. Qed.

Lemma keeps_images_sleep ms : keeps_images (sleep ms).
Proof. intros s. unfold sleep. destruct (ms <? 0); repeat split. Qed.

Lemma keeps_images_close : keeps_images spi_close.
Proof. intros s. repeat split. Qed.

Lemma keeps_images_xfer bytes : keeps_images (spi_xfer2 bytes).
Proof.
  intros s. unfold spi_xfer2.
  destruct (spi_open s); [|repeat split].
  destruct (fail_after s) as [[|n]|]; repeat split.
Qed.

Lemma keeps_images_for_each {A} (f : A -> M unit) (xs : list A) :
  (forall x, keeps_images (f x)) -> keeps_images (for_each f xs).
Proof.
  intros Hf. induction xs as [|x rest IH]; cbn [for_each].
  - apply keeps_images_ret.
  - apply keeps_images_bind; [apply Hf | intros _; exact IH].
Qed.

Lemma keeps_images_send_command cmd data : keeps_images (_send_command cmd data).
Proof.
  unfold _send_command.
  apply keeps_images_bind; [apply keeps_images_gpio | intros _].
  apply keeps_images_bind; [apply keeps_images_xfer | intros _].
  destruct data as [[|b bs]|]; try apply keeps_images_ret.
  apply keeps_images_bind; [apply keeps_images_gpio | intros _].
  apply keeps_images_xfer.
Qed.

Lemma keeps_images_send_data data : keeps_images (_send_data data).
Proof.
  unfold _send_data.
  apply keeps_images_bind; [apply keeps_images_gpio | intros _].
  apply keeps_images_for_each, keeps_images_xfer.
Qed.

Lemma keeps_images_update : keeps_images update.
Proof.
  intros s. unfold update.
  apply (keeps_images_bind (_send_command 44 None)).
  - apply keeps_images_send_command.
  - intros _. apply keeps_images_send_data.
Qed.

Lemma same_images_buffer (s s' : driver) :
  same_images s s' -> buffer s' = buffer s /\ canvas s' = canvas s.
Proof.
  intros (H1 & H2 & H3 & _). unfold buffer, canvas, deref.
  rewrite H1, H2, H3. split; reflexivity.
Qed.

Lemma same_images_well_formed (s s' : driver) :
  same_images s s' -> well_formed s -> well_formed s'.
Proof.
  intros (H1 & H2 & H3 & _). unfold well_formed. rewrite H1, H2, H3. tauto.
Qed.

(** X1. [update] reads the buffer and never writes it: whatever the state
    of the bus, and whether it ends well or raises in the middle of the
    stream, the images, both references and the fonts are what they were;
    the same holds for [_send_command] and [_send_data]. *)
Theorem update_never_changes_the_buffer :
  keeps_images update
  /\ (forall cmd data, keeps_images (_send_command cmd data))
  /\ (forall data, keeps_images (_send_data data))
  /\ (forall s, buffer (snd (update s)) = buffer s
                /\ canvas (snd (update s)) = canvas s).
Proof.
  split; [exact keeps_images_update|].
  split; [exact keeps_images_send_command|].
  split; [exact keeps_images_send_data|].
  intros s. apply same_images_buffer, keeps_images_update.
Qed.

(** ** [clear] and [draw_rectangle] on the canvas *)

Lemma getpixel_solid (c : rgb) (x y : Z) :
  0 <= x < WIDTH -> 0 <= y < HEIGHT -> getpixel (solid c) x y = Some c.
Proof.
  intros Hx Hy. destruct (pixel_index x y Hx Hy) as (_ & _ & Hi).
  unfold getpixel, solid. cbn [im_width im_height im_data].
  replace ((0 <=? x) && (x <? WIDTH) && (0 <=? y) && (y <? HEIGHT)) with true
    by (symmetry; rewrite !andb_true_iff, !Z.leb_le, !Z.ltb_lt; lia).
  apply lookup_replicate_2. lia.
Qed.

(** A write on the canvas leaves every other image of the store alone. *)
Lemma canvas_write_frame (s : driver) (im : pil_image) :
  let s' := set_store (<[draw s := im]> (store s)) s in
  trace s' = trace s /\ pins s' = pins s /\ image s' = image s
  /\ draw s' = draw s
  /\ (forall ref, ref <> draw s -> store s' !! ref = store s !! ref).
Proof.
  cbn. repeat split. intros ref Hne.
  apply list_lookup_insert_ne. congruence.
Qed.

(** X2. [clear] fills the whole canvas and does nothing else. On a
    well-formed driver it never fails; afterwards every pixel of the canvas
    has one colour: the first three components of a tuple of three or more
    (an alpha component is ignored), and black for a shorter tuple or a
    value that is not a tuple. No event is emitted, no pin is written and
    no other image of the store changes. *)
Theorem clear_fills_every_pixel (s : driver) (color : color_arg) :
  well_formed s ->
  exists s',
    clear color s = (Ok tt, s')
    /\ canvas s' = solid (ink_of (rgb_or (0, 0, 0) color))
    /\ (forall x y, 0 <= x < WIDTH -> 0 <= y < HEIGHT ->
          getpixel (canvas s') x y = Some (ink_of (rgb_or (0, 0, 0) color)))
    /\ (forall r g b rest,
          color = ColorTuple (r :: g :: b :: rest) ->
          0 <= r <= 255 -> 0 <= g <= 255 -> 0 <= b <= 255 ->
          canvas s' = solid (r, g, b))
    /\ ((forall r g b rest, color <> ColorTuple (r :: g :: b :: rest)) ->
          canvas s' = solid (0, 0, 0))
    /\ trace s' = trace s /\ pins s' = pins s
    /\ image s' = image s /\ draw s' = draw s
    /\ (forall ref, ref <> draw s -> store s' !! ref = store s !! ref).
Proof.
  intros (Hi & Hd & Hall).
  assert (Hcanvas : canvas (cleared color s)
                    = solid (ink_of (rgb_or (0, 0, 0) color))).
  { unfold canvas, cleared. cbn [draw set_store].
    rewrite deref_written by exact Hd.
    apply paint_covering; [|apply box_covers_panel].
    apply deref_panel_sized; assumption. }
  exists (cleared color s).
  split; [apply clear_ok|]. split; [exact Hcanvas|].
  split; [intros x y Hx Hy; rewrite Hcanvas; apply getpixel_solid; assumption|].
  split.
  { intros r g b rest -> Hr Hg Hb. rewrite Hcanvas. cbn [rgb_or].
    rewrite ink_of_in_range by assumption. reflexivity. }
  split.
  { intros Hnot. rewrite Hcanvas.
    destruct color as [[|r [|g [|b rest]]]|]; try reflexivity.
    exfalso. exact (Hnot r g b rest eq_refl). }
  apply (canvas_write_frame s).
Qed.

Lemma clear_fills_every_pixel_witness :
  exists s',
    clear (ColorTuple [0; 0; 50; 255]) fresh = (Ok tt, s')
    /\ canvas s' = solid (0, 0, 50)
    /\ trace s' = trace fresh.
Proof.
  destruct (clear_fills_every_pixel fresh (ColorTuple [0; 0; 50; 255])
              well_formed_fresh)
    as (s' & Hrun & _ & _ & Hcol & _ & Htr & _).
  exists s'. split; [exact Hrun|]. split; [|exact Htr].
  apply (Hcol 0 0 50 [255]); [reflexivity | lia | lia | lia].
Defined.

(** X3. [draw_rectangle x y width height color] with non-negative width and
    height and no outline never fails on a well-formed driver; it gives the
    fill colour to the pixels of columns [x .. x + width] and rows
    [y .. y + height], both ends included and clipped to the panel, leaves
    every other pixel of the canvas as it was, and emits nothing on the bus.
    A colour that is not a tuple of at least three components fills white. *)
Theorem draw_rectangle_fills_the_closed_box (s : driver)
    (x y width height : Z) (color : color_arg) :
  well_formed s -> 0 <= width -> 0 <= height ->
  exists s',
    draw_rectangle x y width height color None s = (Ok tt, s')
    /\ (forall px py, 0 <= px < WIDTH -> 0 <= py < HEIGHT ->
          getpixel (canvas s') px py
          = if (x <=? px) && (px <=? x + width)
               && (y <=? py) && (py <=? y + height)
            then Some (ink_of (rgb_or (255, 255, 255) color))
            else getpixel (canvas s) px py)
    /\ ((forall r g b rest, color <> ColorTuple (r :: g :: b :: rest)) ->
          rgb_or (255, 255, 255) color = (255, 255, 255))
    /\ panel_sized (canvas s')
    /\ trace s' = trace s /\ pins s' = pins s
    /\ image s' = image s /\ draw s' = draw s
    /\ (forall ref, ref <> draw s -> store s' !! ref = store s !! ref).
Proof.
  intros (Hi & Hd & Hall) Hw Hh.
  assert (Hsized : panel_sized (canvas s)) by (apply deref_panel_sized; assumption).
  eexists. split; [apply draw_rectangle_ok; assumption|].
  split.
  { intros px py Hx Hy. unfold canvas at 1. cbn [draw set_store].
    rewrite deref_written by exact Hd.
    apply getpixel_paint; assumption. }
  split.
  { intros Hnot. destruct color as [[|r [|g [|b rest]]]|]; try reflexivity.
    exfalso. exact (Hnot r g b rest eq_refl). }
  split.
  { unfold canvas at 1. cbn [draw set_store]. rewrite deref_written by exact Hd.
    apply paint_panel_sized. exact Hsized. }
  apply (canvas_write_frame s).
Qed.

Lemma draw_rectangle_fills_the_closed_box_witness :
  exists s',
    draw_rectangle 0 106 128 22 black None fresh = (Ok tt, s')
    /\ getpixel (canvas s') 127 127 = Some (0, 0, 0)
    /\ trace s' = trace fresh.
Proof.
  assert (H0 : 0 <= 128) by lia. assert (H1 : 0 <= 22) by lia.
  destruct (draw_rectangle_fills_the_closed_box fresh 0 106 128 22 black
              well_formed_fresh H0 H1)
    as (s' & Hrun & Hpix & _ & _ & Htr & _).
  exists s'. split; [exact Hrun|]. split; [|exact Htr].
  rewrite Hpix by (unfold WIDTH, HEIGHT; lia). reflexivity.
Defined.

(** X4. With an outline given as a tuple of at least three components,
    [draw_rectangle] with non-negative width and height never fails: the
    pixels on the edge of the closed box take the first three components of
    the outline, the pixels inside take the fill, the others stay. *)
Theorem draw_rectangle_outline_on_the_edge (s : driver)
    (x y width height : Z) (color : color_arg) (r g b : Z) (rest : list Z) :
  well_formed s -> 0 <= width -> 0 <= height ->
  exists s',
    draw_rectangle x y width height color
                   (Some (ColorTuple (r :: g :: b :: rest))) s = (Ok tt, s')
    /\ (forall px py, 0 <= px < WIDTH -> 0 <= py < HEIGHT ->
          getpixel (canvas s') px py
          = if on_edge x y (x + width) (y + height) px py
            then Some (ink_of (r, g, b))
            else if in_box x y (x + width) (y + height) px py
                 then Some (ink_of (rgb_or (255, 255, 255) color))
                 else getpixel (canvas s) px py)
    /\ trace s' = trace s /\ image s' = image s /\ draw s' = draw s.
Proof.
  intros (Hi & Hd & Hall) Hw Hh.
  assert (Hsized : panel_sized (canvas s)) by (apply deref_panel_sized; assumption).
  set (fill := ink_of (rgb_or (255, 255, 255) color)).
  set (filled := paint (in_box x y (x + width) (y + height)) fill (canvas s)).
  set (final := if decide (ink_of (r, g, b) = fill) then filled
                else paint (on_edge x y (x + width) (y + height))
                           (ink_of (r, g, b)) filled).
  assert (Hrun : draw_rectangle x y width height color
                   (Some (ColorTuple (r :: g :: b :: rest))) s
                 = (Ok tt, set_store (<[draw s := final]> (store s)) s)).
  { unfold draw_rectangle, on_canvas, pil_rectangle. cbn [getink].
    replace ((x <=? x + width) && (y <=? y + height)) with true
      by (symmetry; rewrite andb_true_iff, !Z.leb_le; lia).
    reflexivity. }
  eexists. split; [exact Hrun|].
  split; [|repeat split].
  intros px py Hx Hy. unfold canvas at 1. cbn [draw set_store].
  rewrite deref_written by exact Hd.
  assert (Hfilled : getpixel filled px py
                    = if in_box x y (x + width) (y + height) px py
                      then Some fill else getpixel (canvas s) px py)
    by (apply getpixel_paint; assumption).
  unfold final. destruct (decide (ink_of (r, g, b) = fill)) as [Heq|Hne].
  - rewrite Hfilled, Heq. unfold on_edge.
    destruct (in_box x y (x + width) (y + height) px py); cbn [andb].
    + destruct ((px =? x) || (px =? x + width) || (py =? y) || (py =? y + height));
        reflexivity.
    + reflexivity.
  - rewrite getpixel_paint; [|apply paint_panel_sized; exact Hsized | exact Hx | exact Hy].
    rewrite Hfilled. reflexivity.
Qed.

Lemma draw_rectangle_outline_on_the_edge_witness :
  exists s',
    draw_rectangle 20 30 88 60 (ColorTuple [30; 30; 80])
                   (Some (ColorTuple [100; 150; 255])) fresh = (Ok tt, s')
    /\ getpixel (canvas s') 20 30 = Some (100, 150, 255)
    /\ getpixel (canvas s') 21 31 = Some (30, 30, 80)
    /\ getpixel (canvas s') 19 30 = Some (0, 0, 0).
Proof.
  assert (H0 : 0 <= 88) by lia. assert (H1 : 0 <= 60) by lia.
  destruct (draw_rectangle_outline_on_the_edge fresh 20 30 88 60
              (ColorTuple [30; 30; 80]) 100 150 255 [] well_formed_fresh H0 H1)
    as (s' & Hrun & Hpix & _).
  exists s'. split; [exact Hrun|].
  rewrite !Hpix by (unfold WIDTH, HEIGHT; lia).
  repeat split.
Defined.

(** ** Commands, data and faults on the bus *)

Lemma spi_transfers_app (tr1 tr2 : list event) :
  spi_transfers (tr1 ++ tr2) = spi_transfers tr1 ++ spi_transfers tr2.
Proof.
  induction tr1 as [|e tr1 IH]; [reflexivity|].
  destruct e; cbn [app spi_transfers]; rewrite IH; reflexivity.
Qed.

Lemma spi_transfers_xfers (chunks : list (list Z)) :
  spi_transfers (SpiXfer <$> chunks) = chunks.
Proof.
  induction chunks as [|c cs IH]; [reflexivity|].
  cbn [fmap list_fmap spi_transfers]. f_equal. exact IH.
Qed.

(** X5. On an open, fault-free bus [_send_command(cmd, data)] always ends
    well and the panel reads its traffic as exactly one command, [cmd], with
    exactly the bytes of [data] as parameters. With [None] or an empty list
    there is a single transfer, the opcode, and the data/command line is
    left low; otherwise there are two transfers, the opcode and then all the
    parameters at once, and the line is left high. No image is touched. *)
Theorem send_command_is_one_panel_command (cmd : Z) (data : option (list Z))
    (s : driver) :
  bus_ready s ->
  let params := default [] data in
  exists s',
    _send_command cmd data s = (Ok tt, s')
    /\ trace s' = trace s ++ command_events cmd params
    /\ panel_commands (command_events cmd params) = [(cmd, params)]
    /\ spi_transfers (command_events cmd params)
       = [cmd] :: (if decide (params = []) then [] else [params])
    /\ pins s' !! DC_PIN = Some (if decide (params = []) then LOW else HIGH)
    /\ same_images s s'.
Proof.
  intros Hs params.
  destruct data as [[|b bs]|]; cbn [default] in params; subst params.
  - eexists. split; [exact (send_command_ok cmd s Hs)|].
    repeat split. apply lookup_insert_eq.
  - eexists. split; [exact (send_command_data_ok cmd b bs s Hs)|].
    repeat split. apply lookup_insert_eq.
  - eexists. split; [exact (send_command_ok cmd s Hs)|].
    repeat split. apply lookup_insert_eq.
Qed.

Lemma send_command_is_one_panel_command_witness :
  exists s',
    _send_command 0x2A (Some [0x00; 0x00; 0x00; 0x7F]) fresh = (Ok tt, s')
    /\ panel_commands (command_events 0x2A [0x00; 0x00; 0x00; 0x7F])
       = [(0x2A, [0x00; 0x00; 0x00; 0x7F])].
Proof.
  assert (Hs : bus_ready fresh) by (split; reflexivity).
  destruct (send_command_is_one_panel_command 0x2A
              (Some [0x00; 0x00; 0x00; 0x7F]) fresh Hs)
    as (s' & Hrun & _ & Hcmd & _).
  exists s'. split; assumption.
Defined.

Lemma data_chunks_nil_iff (data : list Z) : data_chunks data = [] <-> data = [].
Proof.
  split.
  - intros H. pose proof (data_chunks_concat data) as Hc.
    rewrite H in Hc. symmetry. exact Hc.
  - intros ->. reflexivity.
Qed.

(** X6. [_send_data] makes [ceil (len(data) / 4096)] transfers. For an
    empty stream it makes none: it only puts the data/command line high and
    ends well, even when the bus handle is closed. For a non-empty stream
    on a closed handle it raises [OSError] before anything is transferred.
    On an open, fault-free bus the transfers are the chunks, in order. *)
Theorem send_data_transfers (data : list Z) (s : driver) :
  length (data_chunks data) = ((length data + 4095) `div` 4096)%nat
  /\ (data = [] ->
        _send_data data s
        = (Ok tt, emit (GpioOutput DC_PIN HIGH) (write_pin DC_PIN HIGH s)))
  /\ (data <> [] -> spi_open s = false ->
        _send_data data s
        = (Raise OSError,
           emit (GpioOutput DC_PIN HIGH) (write_pin DC_PIN HIGH s)))
  /\ (bus_ready s ->
        exists s',
          _send_data data s = (Ok tt, s')
          /\ trace s' = trace s ++ GpioOutput DC_PIN HIGH
                                   :: (SpiXfer <$> data_chunks data)
          /\ spi_transfers (GpioOutput DC_PIN HIGH
                              :: (SpiXfer <$> data_chunks data))
             = data_chunks data).
Proof.
  split.
  { unfold data_chunks. rewrite length_fmap, py_range0_length.
    unfold chunk_size. f_equal. lia. }
  split; [intros ->; reflexivity|].
  split.
  { intros Hne Hclosed. unfold _send_data.
    erewrite bind_ok by reflexivity.
    destruct (data_chunks data) as [|c cs] eqn:E.
    - apply data_chunks_nil_iff in E. contradiction.
    - cbn [for_each]. erewrite bind_raise; [reflexivity|].
      unfold spi_xfer2. cbn [spi_open emit write_pin set_pins].
      rewrite Hclosed. reflexivity. }
  intros Hs. eexists. split; [apply send_data_ok; exact Hs|].
  split; [reflexivity|].
  cbn [spi_transfers]. apply spi_transfers_xfers.
Qed.

Lemma send_data_transfers_witness :
  _send_data [] (snd (cleanup fresh))
  = (Ok tt, emit (GpioOutput DC_PIN HIGH)
                 (write_pin DC_PIN HIGH (snd (cleanup fresh))))
  /\ fst (_send_data [0xF8; 0x00] (snd (cleanup fresh))) = Raise OSError.
Proof.
  destruct (send_data_transfers [] (snd (cleanup fresh))) as (_ & Hnil & _).
  destruct (send_data_transfers [0xF8; 0x00] (snd (cleanup fresh)))
    as (_ & _ & Hclosed & _).
  split; [exact (Hnil eq_refl)|].
  rewrite Hclosed; [reflexivity | discriminate | vm_compute; reflexivity].
Defined.

(** The transfers that end well before the fault, then the exception. *)
Lemma for_each_xfer_fault (chunks : list (list Z)) :
  forall (n : nat) (s : driver),
    spi_open s = true -> fail_after s = Some n -> (n < length chunks)%nat ->
    for_each spi_xfer2 chunks s
    = (Raise OSError,
       set_fail_after None (emits (SpiXfer <$> take n chunks) s)).
Proof.
  induction chunks as [|c cs IH]; intros n s Ho Hf Hn; [cbn in Hn; lia|].
  cbn [for_each]. destruct n as [|n].
  - erewrite bind_raise; [|unfold spi_xfer2; rewrite Ho, Hf; reflexivity].
    cbn [take fmap list_fmap]. rewrite emits_nil. reflexivity.
  - erewrite bind_ok; [|unfold spi_xfer2; rewrite Ho, Hf; reflexivity].
    rewrite (IH n) by (cbn in *; first [assumption | reflexivity | lia]).
    destruct s as [st im dr fo op pi fa tr]. unfold emits, emit, set_fail_after.
    cbn [store image draw fonts spi_open pins fail_after trace take fmap list_fmap].
    rewrite <- app_assoc. reflexivity.
Qed.

(** The run of [update] when the transfer after the next [n] fails. *)
Lemma update_fault_run (s : driver) (n : nat) :
  spi_open s = true -> fail_after s = Some n ->
  (n <= length (data_chunks (rgb565_data (im_data (buffer s)))))%nat ->
  exists s' es,
    update s = (Raise OSError, s')
    /\ trace s' = trace s ++ es
    /\ spi_transfers es
       = take n ([0x2C] :: data_chunks (rgb565_data (im_data (buffer s))))
    /\ (forall e, e ∈ es -> e <> SpiClose)
    /\ spi_open s' = true /\ fail_after s' = None
    /\ pins s' !! RST_PIN = pins s !! RST_PIN.
Proof.
  intros Ho Hf Hn. unfold update.
  set (chunks := data_chunks (rgb565_data (im_data (buffer s)))) in *.
  destruct n as [|n].
  - eexists. exists [GpioOutput DC_PIN LOW].
    split.
    { erewrite bind_raise; [reflexivity|]. unfold _send_command.
      erewrite bind_ok by reflexivity.
      erewrite bind_raise; [reflexivity|].
      unfold spi_xfer2. cbn [spi_open fail_after emit write_pin set_pins].
      rewrite Ho, Hf. reflexivity. }
    split; [reflexivity|]. split; [reflexivity|].
    split; [intros e He; apply list_elem_of_singleton in He; subst; discriminate|].
    split; [exact Ho|]. split; [reflexivity|].
    cbn [pins set_fail_after emit write_pin set_pins].
    apply lookup_insert_ne. unfold DC_PIN, RST_PIN. lia.
  - eexists.
    exists ([GpioOutput DC_PIN LOW; SpiXfer [0x2C]; GpioOutput DC_PIN HIGH]
              ++ (SpiXfer <$> take n chunks)).
    split.
    { erewrite bind_ok.
      2:{ unfold _send_command. erewrite bind_ok by reflexivity.
          erewrite bind_ok; [reflexivity|].
          unfold spi_xfer2. cbn [spi_open fail_after emit write_pin set_pins].
          rewrite Ho, Hf. reflexivity. }
      unfold _send_data. erewrite bind_ok by reflexivity.
      fold chunks. rewrite (for_each_xfer_fault chunks n);
        [reflexivity | exact Ho | reflexivity | lia]. }
    split.
    { cbn [trace set_fail_after emits emit write_pin set_pins].
      rewrite <- !app_assoc. reflexivity. }
    split.
    { rewrite spi_transfers_app. cbn [spi_transfers app take].
      rewrite spi_transfers_xfers. reflexivity. }
    split.
    { intros e He. apply elem_of_app in He as [He|He].
      - apply list_elem_of_In in He. cbn in He.
        intuition (subst; discriminate).
      - apply list_elem_of_In, in_map_iff in He as (c & <- & _). discriminate. }
    split; [exact Ho|]. split; [reflexivity|].
    cbn [pins set_fail_after emits emit write_pin set_pins].
    rewrite !lookup_insert_ne by (unfold DC_PIN, RST_PIN; lia). reflexivity.
Qed.

(** X7. A bus fault is fatal to the current [update] only, and nothing is
    retried. When the [n+1]-th transfer of a push fails, [update] raises
    [OSError] after exactly the first [n] transfers (the RAMWR opcode and
    the chunks before the fault), transfers nothing more, and leaves the
    buffer as it was; the next [update] on the recovered bus ends well and
    sends the complete frame. *)
Theorem update_fault_is_not_retried (s : driver) (n : nat) :
  spi_open s = true -> fail_after s = Some n ->
  (n <= length (data_chunks (rgb565_data (im_data (buffer s)))))%nat ->
  exists s' es,
    update s = (Raise OSError, s')
    /\ trace s' = trace s ++ es
    /\ spi_transfers es
       = take n ([0x2C] :: data_chunks (rgb565_data (im_data (buffer s))))
    /\ length (spi_transfers es) = n
    /\ buffer s' = buffer s
    /\ update s' = (Ok tt, pushed s')
    /\ trace (pushed s') = trace s' ++ update_events (buffer s).
Proof.
  intros Ho Hf Hn.
  destruct (update_fault_run s n Ho Hf Hn)
    as (s' & es & Hrun & Htr & Hxfer & _ & Ho' & Hf' & _).
  assert (Hbuf : buffer s' = buffer s).
  { pose proof (keeps_images_update s) as Hk. rewrite Hrun in Hk.
    apply (same_images_buffer s s' Hk). }
  exists s', es. split; [exact Hrun|]. split; [exact Htr|].
  split; [exact Hxfer|].
  split; [rewrite Hxfer, length_take; cbn [length]; lia|].
  split; [exact Hbuf|].
  split; [apply update_ok; split; assumption|].
  unfold pushed. cbn [trace emits write_pin set_pins]. rewrite Hbuf. reflexivity.
Qed.

Lemma update_fault_is_not_retried_witness :
  exists s' es,
    update (construct (fun _ => true) (Some 3%nat)) = (Raise OSError, s')
    /\ trace s' = trace (construct (fun _ => true) (Some 3%nat)) ++ es
    /\ length (spi_transfers es) = 3%nat
    /\ update s' = (Ok tt, pushed s').
Proof.
  assert (Hn : (3 <= length (data_chunks (rgb565_data (im_data (buffer
                 (construct (fun _ => true) (Some 3%nat)))))))%nat)
    by (vm_compute; lia).
  destruct (update_fault_is_not_retried
              (construct (fun _ => true) (Some 3%nat)) 3 eq_refl eq_refl Hn)
    as (s' & es & Hrun & Htr & _ & Hlen & _ & Hnext & _).
  exists s', es. auto.
Defined.

(** X8. When a transfer of its last push fails, [cleanup] still returns
    normally and prints the error, but the rest of the teardown is skipped:
    the canvas has been cleared, the bus handle is left open, [spi.close]
    is never called and the reset line is not written. *)
Theorem cleanup_after_a_bus_fault (s : driver) (n : nat) :
  spi_open s = true -> fail_after s = Some n ->
  (n <= length (data_chunks
                  (rgb565_data (im_data (buffer (cleared black s))))))%nat ->
  exists s' es,
    cleanup s = (Ok tt, s')
    /\ trace s' = trace s ++ es ++ [Print (MsgCleanupError OSError)]
    /\ length (spi_transfers es) = n
    /\ (forall e, e ∈ es -> e <> SpiClose)
    /\ spi_open s' = true
    /\ pins s' !! RST_PIN = pins s !! RST_PIN
    /\ canvas s' = canvas (cleared black s).
Proof.
  intros Ho Hf Hn.
  destruct (update_fault_run (cleared black s) n Ho Hf Hn)
    as (s1 & es & Hrun & Htr & Hxfer & Hclose & Ho1 & _ & Hrst).
  assert (Hcanvas : canvas s1 = canvas (cleared black s)).
  { pose proof (keeps_images_update (cleared black s)) as Hk.
    rewrite Hrun in Hk. apply (same_images_buffer _ _ Hk). }
  exists (emit (Print (MsgCleanupError OSError)) s1), es.
  split.
  { unfold cleanup, try_except.
    erewrite bind_ok by apply clear_ok.
    erewrite bind_raise by exact Hrun. reflexivity. }
  split; [cbn [trace emit]; rewrite Htr, <- app_assoc; reflexivity|].
  split; [rewrite Hxfer, length_take; cbn [length]; lia|].
  split; [exact Hclose|].
  split; [exact Ho1|].
  split; [exact Hrst | exact Hcanvas].
Qed.

Lemma cleanup_after_a_bus_fault_witness :
  exists s' es,
    cleanup (construct (fun _ => true) (Some 0%nat)) = (Ok tt, s')
    /\ length (spi_transfers es) = 0%nat
    /\ spi_open s' = true.
Proof.
  assert (Hn : (0 <= length (data_chunks (rgb565_data (im_data (buffer
                 (cleared black (construct (fun _ => true) (Some 0%nat))))))))%nat)
    by lia.
  destruct (cleanup_after_a_bus_fault
              (construct (fun _ => true) (Some 0%nat)) 0 eq_refl eq_refl Hn)
    as (s' & es & Hrun & _ & Hlen & _ & Hopen & _).
  exists s', es. auto.
Defined.

(** ** [init_display] when the bus does not work *)

Lemma send_command_closed (cmd : Z) (data : option (list Z)) (s : driver) :
  spi_open s = false ->
  _send_command cmd data s
  = (Raise OSError, emit (GpioOutput DC_PIN LOW) (write_pin DC_PIN LOW s)).
Proof.
  intros Hc. unfold _send_command.
  erewrite bind_ok by reflexivity.
  erewrite bind_raise; [reflexivity|].
  unfold spi_xfer2. cbn [spi_open emit write_pin set_pins]. rewrite Hc.
  reflexivity.
Qed.

Lemma raises_only_print allowed msg : raises_only allowed (print msg).
Proof. intros s. exact I. Qed.

Lemma raises_only_clear allowed color : raises_only allowed (clear color).
Proof. intros s. exact I. Qed.

Lemma raises_only_sleep allowed (ms : Z) :
  0 <= ms -> raises_only allowed (sleep ms).
Proof. intros H s. rewrite sleep_ok by exact H. exact I. Qed.

Ltac raises_step :=
  first
    [ apply raises_only_send_command
    | apply raises_only_gpio
    | apply raises_only_print
    | apply raises_only_clear
    | apply raises_only_update
    | apply raises_only_sleep; lia
    | apply raises_only_bind; [|intros _] ].

(** X9. [init_display] can fail with the bus's [OSError] only, and a
    failure aborts it on the spot. On a closed bus handle it raises
    [OSError] at the software-reset command: the reset line has been pulsed
    (high, 10 ms, low, 10 ms, high, 120 ms) and the data/command line put
    low, nothing was transferred and no image has changed. *)
Theorem init_display_fails_only_on_the_bus :
  raises_only (eq OSError) init_display
  /\ (forall s, spi_open s = false ->
        exists s',
          init_display s = (Raise OSError, s')
          /\ trace s' = trace s ++ [Print MsgInitializing;
                                    GpioOutput RST_PIN HIGH; Sleep 10;
                                    GpioOutput RST_PIN LOW; Sleep 10;
                                    GpioOutput RST_PIN HIGH; Sleep 120;
                                    GpioOutput DC_PIN LOW]
          /\ same_images s s').
Proof.
  split.
  - unfold init_display. repeat raises_step.
  - intros s Hc. eexists. split.
    { unfold init_display.
      do 7 (erewrite bind_ok by reflexivity).
      erewrite bind_raise; [reflexivity|].
      apply send_command_closed. exact Hc. }
    split; [|repeat split].
    cbn [trace emit write_pin set_pins]. rewrite <- !app_assoc. reflexivity.
Qed.

Lemma init_display_fails_only_on_the_bus_witness :
  fst (init_display (snd (cleanup fresh))) = Raise OSError.
Proof.
  destruct init_display_fails_only_on_the_bus as [_ H].
  destruct (H (snd (cleanup fresh))) as (s' & Hrun & _).
  - vm_compute. reflexivity.
  - rewrite Hrun. reflexivity.
Defined.

(** ** The font table *)

Lemma first_readable_spec (readable : string -> bool) (paths : list string) :
  match first_readable readable paths with
  | Some p =>
      readable p = true
      /\ exists before after,
           paths = before ++ p :: after
           /\ Forall (fun q => readable q = false) before
  | None => Forall (fun q => readable q = false) paths
  end.
Proof.
  induction paths as [|q rest IH]; cbn [first_readable]; [apply Forall_nil_2|].
  destruct (readable q) eqn:E.
  - split; [exact E|]. exists [], rest. split; [reflexivity | apply Forall_nil_2].
  - destruct (first_readable readable rest) as [p|].
    + destruct IH as (Hp & before & after & -> & Hall).
      split; [exact Hp|]. exists (q :: before), after.
      split; [reflexivity | apply Forall_cons_2; assumption].
    + apply Forall_cons_2; assumption.
Qed.

Lemma truetype_fonts_lookup (font_path : string) (size : Z) :
  truetype_fonts font_path !! size
  = if decide (size ∈ supported_sizes) then Some (TrueType font_path size)
    else None.
Proof.
  by_size size; try reflexivity.
  assert (Hout : size ∉ supported_sizes) by (apply not_supported_size; assumption).
  destruct (decide (size ∈ supported_sizes)) as [Hin|_]; [contradiction|].
  unfold truetype_fonts.
  rewrite !lookup_insert_ne by congruence. apply lookup_empty.
Qed.

Lemma default_fonts_lookup (size : Z) :
  default_fonts !! size
  = if decide (size ∈ supported_sizes) then Some DefaultFont else None.
Proof.
  by_size size; try reflexivity.
  assert (Hout : size ∉ supported_sizes) by (apply not_supported_size; assumption).
  destruct (decide (size ∈ supported_sizes)) as [Hin|_]; [contradiction|].
  change default_fonts
    with (<[8 := DefaultFont]> (<[9 := DefaultFont]> (<[10 := DefaultFont]>
         (<[12 := DefaultFont]> (<[14 := DefaultFont]> (<[16 := DefaultFont]>
         (<[20 := DefaultFont]> (<[24 := DefaultFont]> (∅ : gmap Z font))))))))).
  rewrite !lookup_insert_ne by congruence. apply lookup_empty.
Qed.

(** X10. Whatever font files exist, the constructor leaves a font table
    with exactly the eight sizes 8, 9, 10, 12, 14, 16, 20, 24, so the
    size-10 fallback of [draw_text] is always there. All eight fonts come
    from one file, the first of the three candidate paths that can be
    opened, each opened at its own size; when none can be opened all eight
    entries are the built-in default font. *)
Theorem font_table_after_construction (readable : string -> bool)
    (faults : option nat) :
  let fs := fonts (construct readable faults) in
  (forall size, is_Some (fs !! size) <-> size ∈ supported_sizes)
  /\ is_Some (fs !! 10)
  /\ match first_readable readable font_paths with
     | Some p =>
         (forall size, size ∈ supported_sizes ->
                       fs !! size = Some (TrueType p size))
         /\ readable p = true
         /\ exists before after,
              font_paths = before ++ p :: after
              /\ Forall (fun q => readable q = false) before
     | None =>
         (forall size, size ∈ supported_sizes -> fs !! size = Some DefaultFont)
         /\ Forall (fun q => readable q = false) font_paths
     end.
Proof.
  intros fs. unfold fs. rewrite fonts_construct.
  pose proof (first_readable_spec readable font_paths) as Hfirst.
  assert (H10 : 10 ∈ supported_sizes)
    by (apply list_elem_of_In; do 2 right; left; reflexivity).
  destruct (first_readable readable font_paths) as [p|].
  - split; [|split; [|split]].
    + intros size. rewrite truetype_fonts_lookup.
      destruct (decide (size ∈ supported_sizes)); split; intros H;
        first [assumption | contradiction | eexists; reflexivity
              | destruct H; discriminate].
    + rewrite truetype_fonts_lookup.
      destruct (decide (10 ∈ supported_sizes)); [eexists; reflexivity | contradiction].
    + intros size Hin. rewrite truetype_fonts_lookup.
      destruct (decide (size ∈ supported_sizes)); [reflexivity | contradiction].
    + exact Hfirst.
  - split; [|split; [|split]].
    + intros size. rewrite default_fonts_lookup.
      destruct (decide (size ∈ supported_sizes)); split; intros H;
        first [assumption | contradiction | eexists; reflexivity
              | destruct H; discriminate].
    + rewrite default_fonts_lookup.
      destruct (decide (10 ∈ supported_sizes)); [eexists; reflexivity | contradiction].
    + intros size Hin. rewrite default_fonts_lookup.
      destruct (decide (size ∈ supported_sizes)); [reflexivity | contradiction].
    + exact Hfirst.
Qed.

(** ** [display_image] *)

Lemma length_paste_from src x y w (data : list rgb) :
  forall i, length (paste_from src x y w i data) = length data.
Proof.
  induction data as [|p rest IH]; intros i; cbn [paste_from length];
    [|rewrite IH]; reflexivity.
Qed.

Lemma paste_from_lookup src x y w (data : list rgb) :
  forall i (k : nat),
    paste_from src x y w i data !! k
    = (fun p => match getpixel src (pixel_x w (i + Z.of_nat k) - x)
                                   (pixel_y w (i + Z.of_nat k) - y) with
                | Some q => q
                | None => p
                end) <$> data !! k.
Proof.
  induction data as [|p rest IH]; intros i k; [reflexivity|].
  destruct k as [|k]; cbn [paste_from lookup list_lookup].
  - rewrite Z.add_0_r. reflexivity.
  - rewrite IH. replace (i + 1 + Z.of_nat k) with (i + Z.of_nat (S k)) by lia.
    reflexivity.
Qed.

Lemma image_paste_panel_sized src xy (im : pil_image) :
  panel_sized im -> panel_sized (image_paste src xy im).
Proof.
  intros (Hw & Hh & Hl). unfold panel_sized, image_paste.
  cbn [im_width im_height im_data]. rewrite length_paste_from. auto.
Qed.

Lemma getpixel_paste src x y (im : pil_image) (px py : Z) :
  panel_sized im -> 0 <= px < WIDTH -> 0 <= py < HEIGHT ->
  getpixel (image_paste src (x, y) im) px py
  = match getpixel src (px - x) (py - y) with
    | Some q => Some q
    | None => getpixel im px py
    end.
Proof.
  intros (Hw & Hh & Hl) Hx Hy.
  destruct (pixel_index px py Hx Hy) as (Px & Py & Hi).
  unfold getpixel at 1 3, image_paste. cbn [im_width im_height im_data fst snd].
  rewrite Hw, Hh.
  replace ((0 <=? px) && (px <? WIDTH) && (0 <=? py) && (py <? HEIGHT)) with true
    by (symmetry; rewrite !andb_true_iff, !Z.leb_le, !Z.ltb_lt; lia).
  rewrite paste_from_lookup, Z.add_0_l, Z2Nat.id by lia.
  rewrite Px, Py.
  destruct (im_data im !! Z.to_nat (py * WIDTH + px)) as [p|] eqn:E.
  - cbn [fmap option_fmap option_map].
    destruct (getpixel src (px - x) (py - y)); reflexivity.
  - apply lookup_ge_None in E. lia.
Qed.

(** A panel-sized image pasted at the origin replaces the whole image. *)
Lemma image_paste_whole (src im : pil_image) :
  panel_sized src -> panel_sized im -> image_paste src (0, 0) im = src.
Proof.
  intros (Sw & Sh & Sl) (Hw & Hh & Hl).
  destruct src as [sw sh sdata]. cbn [im_width im_height im_data] in *. subst sw sh.
  unfold image_paste. cbn [im_width im_height im_data fst snd].
  rewrite Hw, Hh. f_equal.
  apply list_eq. intros k. rewrite paste_from_lookup, Z.add_0_l, !Z.sub_0_r.
  destruct (decide (k < length (im_data im))%nat) as [Hk|Hk].
  - destruct (im_data im !! k) as [p|] eqn:E;
      [|apply lookup_ge_None in E; lia].
    cbn [fmap option_fmap option_map].
    assert (Hkz : 0 <= Z.of_nat k < WIDTH * HEIGHT) by lia.
    unfold getpixel. cbn [im_width im_height im_data].
    unfold pixel_x, pixel_y, WIDTH, HEIGHT in *.
    replace ((0 <=? Z.of_nat k `mod` 128) && (Z.of_nat k `mod` 128 <? 128)
             && (0 <=? Z.of_nat k `div` 128) && (Z.of_nat k `div` 128 <? 128))
      with true.
    2:{ symmetry. rewrite !andb_true_iff, !Z.leb_le, !Z.ltb_lt.
        pose proof (Z.mod_pos_bound (Z.of_nat k) 128).
        assert (0 <= Z.of_nat k `div` 128 < 128)
          by (split; [apply Z.div_pos; lia | apply Z.div_lt_upper_bound; lia]).
        lia. }
    replace (Z.to_nat (Z.of_nat k `div` 128 * 128 + Z.of_nat k `mod` 128)) with k.
    2:{ pose proof (Z.div_mod (Z.of_nat k) 128). lia. }
    destruct (sdata !! k) as [q|] eqn:Eq; [reflexivity|].
    apply lookup_ge_None in Eq. lia.
  - rewrite (proj2 (lookup_ge_None _ _)) by lia.
    symmetry. apply lookup_ge_None. lia.
Qed.

(** What pasting leaves: the buffer is the pasted image, the driver stays
    well-formed and nothing is emitted. *)
Lemma display_image_pastes_clipped_frame (s : driver) (src : pil_image)
    (x y : Z) :
  well_formed s ->
  let s' := snd (display_image image_paste (Some src) x y s) in
  buffer s' = image_paste src (x, y) (buffer s)
  /\ well_formed s'
  /\ trace s' = trace s.
Proof.
  intros (Hi & Hd & Hall) s'.
  split; [|split; [|reflexivity]].
  - unfold s', display_image, buffer at 1. cbn [snd image set_store].
    apply deref_written. exact Hi.
  - unfold s', display_image, well_formed. cbn [snd store image draw set_store].
    rewrite length_insert. split; [exact Hi|]. split; [exact Hd|].
    apply Forall_insert; [exact Hall|].
    apply image_paste_panel_sized. apply deref_panel_sized; assumption.
Qed.

(** X11. [display_image] never fails. With a PIL image it pastes into the
    buffer itself: a pixel of the buffer takes the source pixel that lands
    on it, the others stay, and whatever part of the source falls outside
    the 128x128 buffer (negative or large offsets included) is dropped; the
    buffer keeps its size and nothing is sent to the panel. A 128x128 source
    pasted at the origin replaces the whole buffer. With anything else it
    prints a warning and changes nothing. *)
Theorem display_image_pastes_clipped (s : driver) (img : option pil_image)
    (x y : Z) :
  fst (display_image image_paste img x y s) = Ok tt
  /\ (img = None ->
        display_image image_paste img x y s
        = (Ok tt, emit (Print MsgInvalidImage) s))
  /\ (forall src, img = Some src -> well_formed s ->
        let s' := snd (display_image image_paste img x y s) in
        (forall px py, 0 <= px < WIDTH -> 0 <= py < HEIGHT ->
           getpixel (buffer s') px py
           = match getpixel src (px - x) (py - y) with
             | Some q => Some q
             | None => getpixel (buffer s) px py
             end)
        /\ (panel_sized src -> x = 0 -> y = 0 -> buffer s' = src)
        /\ well_formed s'
        /\ trace s' = trace s /\ image s' = image s /\ draw s' = draw s).
Proof.
  split; [destruct img; reflexivity|].
  split; [intros ->; reflexivity|].
  intros src -> (Hi & Hd & Hall) s'.
  assert (Hsized : panel_sized (buffer s)) by (apply deref_panel_sized; assumption).
  assert (Hbuf : buffer s' = image_paste src (x, y) (buffer s)).
  { unfold s', display_image, buffer at 1. cbn [snd image set_store].
    apply deref_written. exact Hi. }
  split; [intros px py Hx Hy; rewrite Hbuf; apply getpixel_paste; assumption|].
  split; [intros Hsrc -> ->; rewrite Hbuf; apply image_paste_whole; assumption|].
  split; [|repeat split].
  unfold s', display_image, well_formed. cbn [snd store image draw set_store].
  rewrite length_insert. split; [exact Hi|]. split; [exact Hd|].
  apply Forall_insert; [exact Hall|].
  apply image_paste_panel_sized. exact Hsized.
Qed.

Lemma display_image_pastes_clipped_witness :
  let src := PilImage 2 2 [(255, 0, 0); (0, 255, 0); (0, 0, 255); (9, 9, 9)] in
  let s' := snd (display_image image_paste (Some src) 127 (-1) fresh) in
  getpixel (buffer s') 127 0 = Some (0, 0, 255)
  /\ getpixel (buffer s') 126 0 = Some (0, 0, 0)
  /\ well_formed s'.
Proof.
  intros src s'.
  destruct (display_image_pastes_clipped fresh (Some src) 127 (-1))
    as (_ & _ & H).
  destruct (H src eq_refl well_formed_fresh) as (Hpix & _ & Hwf & _).
  cbv zeta in Hpix. fold s' in Hpix.
  split; [|split; [|exact Hwf]].
  - rewrite (Hpix 127 0) by (unfold WIDTH, HEIGHT; lia). reflexivity.
  - rewrite (Hpix 126 0) by (unfold WIDTH, HEIGHT; lia). reflexivity.
Defined.

(** ** [flash_screen]: failures and repetitions *)

(** The frame [flash_screen] pushes first: what the buffer holds once the
    canvas has been cleared. *)
Lemma flash_screen_first_frame (s : driver) (color : color_arg) :
  well_formed s ->
  let s1 := set_store (store s ++ [buffer s]) s in
  buffer (cleared color s1)
  = (if decide (draw s = image s)
     then solid (ink_of (rgb_or (0, 0, 0) color))
     else buffer s)
  /\ store (cleared color s1) !! length (store s) = Some (buffer s)
  /\ well_formed (cleared color s1)
  /\ length (store (cleared color s1)) = S (length (store s)).
Proof.
  intros (Hi & Hd & Hall) s1.
  assert (Hcanvas : canvas s1 = canvas s).
  { unfold canvas, deref, s1. cbn [store draw set_store].
    rewrite lookup_app_l by exact Hd. reflexivity. }
  assert (Hbuffer : buffer s1 = buffer s).
  { unfold buffer, deref, s1. cbn [store image set_store].
    rewrite lookup_app_l by exact Hi. reflexivity. }
  assert (Hlen : length (store s1) = S (length (store s))).
  { unfold s1. cbn [store set_store]. rewrite length_app. cbn [length]. lia. }
  assert (Hsized : panel_sized (canvas s)) by (apply deref_panel_sized; assumption).
  assert (Hsized' : panel_sized (buffer s)) by (apply deref_panel_sized; assumption).
  split; [|split; [|split]].
  - unfold cleared, buffer at 1. cbn [image set_store].
    change (image s1) with (image s). change (draw s1) with (draw s).
    destruct (decide (draw s = image s)) as [Heq|Hne].
    + rewrite <- Heq. change (draw s) with (draw s1) at 1 2.
      rewrite deref_written by (rewrite Hlen; cbn [draw s1 set_store]; lia).
      rewrite Hcanvas. apply paint_covering; [exact Hsized | apply box_covers_panel].
    + change (draw s) with (draw s1) at 1.
      rewrite deref_other by (cbn [draw s1 set_store]; exact Hne).
      exact Hbuffer.
  - unfold cleared, s1. cbn [store draw set_store].
    rewrite list_lookup_insert_ne by lia.
    rewrite lookup_app_r by lia. rewrite Nat.sub_diag. reflexivity.
  - unfold well_formed, cleared. cbn [store image draw set_store].
    rewrite length_insert, Hlen. change (image s1) with (image s).
    change (draw s1) with (draw s).
    split; [lia|]. split; [lia|].
    apply Forall_insert.
    + unfold s1. cbn [store set_store]. apply Forall_app. split; [exact Hall|].
      apply Forall_cons_2; [exact Hsized' | apply Forall_nil_2].
    + apply paint_panel_sized. rewrite Hcanvas. exact Hsized.
  - unfold cleared. cbn [store set_store]. rewrite length_insert. exact Hlen.
Qed.

(** X12. [flash_screen] does not restore the buffer when it fails. With a
    negative duration, on an open, fault-free bus with [self.draw] painting
    on the buffer, it clears the buffer, pushes the solid flash frame, then
    raises [ValueError] at the sleep: [self.image] still names the same
    image, which now holds the flash colour everywhere; the saved copy is
    in no reference of the driver and is never pushed. *)
Theorem flash_screen_negative_duration_loses_the_buffer (s : driver)
    (color : color_arg) (duration : Z) :
  well_formed s -> bus_ready s -> draw s = image s -> duration < 0 ->
  exists s',
    flash_screen color duration s = (Raise ValueError, s')
    /\ buffer s' = solid (ink_of (rgb_or (0, 0, 0) color))
    /\ image s' = image s /\ draw s' = draw s
    /\ trace s' = trace s
                  ++ update_events (solid (ink_of (rgb_or (0, 0, 0) color)))
    /\ store s' !! length (store s) = Some (buffer s)
    /\ image s' <> length (store s) /\ draw s' <> length (store s).
Proof.
  intros Hwf Hs Halias Hneg.
  destruct (flash_screen_first_frame s color Hwf) as (Hshown & Hsaved & _ & _).
  cbv zeta in *.
  set (s1 := set_store (store s ++ [buffer s]) s) in *.
  destruct (decide (draw s = image s)) as [_|Hne]; [|contradiction].
  exists (pushed (cleared color s1)).
  split.
  { unfold flash_screen.
    erewrite bind_ok by reflexivity.
    erewrite bind_ok by apply clear_ok.
    erewrite bind_ok by (apply update_ok; ready).
    erewrite bind_raise; [reflexivity|].
    unfold sleep. destruct (Z.ltb_spec duration 0); [reflexivity | lia]. }
  split; [exact Hshown|].
  split; [reflexivity|]. split; [reflexivity|].
  split; [unfold pushed; cbn [trace emits write_pin set_pins]; rewrite Hshown;
          reflexivity|].
  split; [exact Hsaved|].
  destruct Hwf as (Hi & Hd & _).
  cbn [image draw pushed emits write_pin set_pins cleared set_store s1]. lia.
Qed.

Lemma flash_screen_negative_duration_loses_the_buffer_witness :
  exists s',
    flash_screen white (-1) fresh = (Raise ValueError, s')
    /\ buffer s' = solid (255, 255, 255).
Proof.
  assert (Hs : bus_ready fresh) by (split; reflexivity).
  assert (Hd : -1 < 0) by lia.
  destruct (flash_screen_negative_duration_loses_the_buffer fresh white (-1)
              well_formed_fresh Hs eq_refl Hd) as (s' & Hrun & Hbuf & _).
  exists s'. split; [exact Hrun | exact Hbuf].
Defined.

(** Once [self.draw] and [self.image] name different images, a flash
    pushes the unchanged buffer twice. *)
Lemma flash_screen_detached (s : driver) (color : color_arg) (duration : Z) :
  well_formed s -> bus_ready s -> 0 <= duration -> draw s <> image s ->
  exists s',
    flash_screen color duration s = (Ok tt, s')
    /\ buffer s' = buffer s
    /\ trace s' = trace s ++ update_events (buffer s) ++ [Sleep duration]
                          ++ update_events (buffer s)
    /\ well_formed s' /\ bus_ready s' /\ draw s' <> image s'.
Proof.
  intros Hwf Hs Hd Hne.
  destruct (flash_screen_first_frame s color Hwf) as (Hshown & Hsaved & Hwf1 & Hlen).
  pose proof (flash_screen_run s color duration Hs Hd) as Hrun.
  cbv zeta in *. fold (cleared color (set_store (store s ++ [buffer s]) s)) in Hrun.
  set (s2 := cleared color (set_store (store s ++ [buffer s]) s)) in *.
  destruct (decide (draw s = image s)) as [Heq|_]; [contradiction|].
  assert (Hback : buffer (set_image (length (store s))
                            (emit (Sleep duration) (pushed s2))) = buffer s).
  { unfold buffer at 1, deref.
    cbn [store image set_image emit pushed emits write_pin set_pins].
    rewrite Hsaved. reflexivity. }
  eexists. split; [exact Hrun|].
  split; [exact Hback|].
  split.
  { unfold pushed at 1. cbn [trace emits write_pin set_pins set_image emit].
    rewrite Hback. unfold pushed. cbn [trace emits write_pin set_pins set_image emit].
    rewrite Hshown, <- !app_assoc. reflexivity. }
  destruct Hwf as (Hi & Hdr & Hall). destruct Hwf1 as (_ & Hdr1 & Hall1).
  split; [|split; [ready|]].
  - unfold well_formed.
    cbn [store image draw pushed emits write_pin set_pins set_image emit].
    split; [lia|]. split; [exact Hdr1 | exact Hall1].
  - cbn [image draw pushed emits write_pin set_pins set_image emit].
    change (draw s2) with (draw s). lia.
Qed.

Lemma panel_sleep (p : panel) (ms : Z) :
  fold_left panel_step [Sleep ms] p = p.
Proof. reflexivity. Qed.

(** X13. A second flash shows nothing. Starting with [self.draw] painting
    on the buffer, two calls of [flash_screen] in a row end well and push
    four frames: the solid colour of the first call, then the original
    buffer three times. The colour of the second call never reaches the
    panel, and the buffer ends as it began. *)
Theorem second_flash_pushes_no_flash_colour (s : driver)
    (color1 color2 : color_arg) (duration1 duration2 : Z) :
  well_formed s -> bus_ready s -> draw s = image s ->
  0 <= duration1 -> 0 <= duration2 ->
  exists s' es,
    (flash_screen color1 duration1 ;; flash_screen color2 duration2) s
    = (Ok tt, s')
    /\ trace s' = trace s ++ es
    /\ ram_writes es
       = [rgb565_data (im_data (solid (ink_of (rgb_or (0, 0, 0) color1))));
          rgb565_data (im_data (buffer s));
          rgb565_data (im_data (buffer s));
          rgb565_data (im_data (buffer s))]
    /\ buffer s' = buffer s.
Proof.
  intros Hwf Hs Halias Hd1 Hd2.
  destruct (flash_screen_effect s color1 duration1 Hwf Hs Hd1)
    as (s1 & shown & Hrun1 & Hbuf1 & Htr1 & Hshown & Himg1 & Hdraw1 & _ & Hwf1 & Hs1).
  specialize (Hshown Halias). subst shown.
  assert (Hne : draw s1 <> image s1) by (destruct Hwf as (_ & Hlt & _); lia).
  destruct (flash_screen_detached s1 color2 duration2 Hwf1 Hs1 Hd2 Hne)
    as (s2 & Hrun2 & Hbuf2 & Htr2 & _).
  exists s2. eexists.
  split; [erewrite bind_ok by exact Hrun1; exact Hrun2|].
  split; [rewrite Htr2, Htr1, Hbuf1, <- !app_assoc; reflexivity|].
  split; [|congruence].
  unfold ram_writes, panel_commands.
  rewrite !fold_left_app, !panel_update_events, !panel_sleep.
  reflexivity.
Qed.

Lemma second_flash_pushes_no_flash_colour_witness :
  exists s',
    (flash_screen white 100 ;; flash_screen red 100) fresh = (Ok tt, s')
    /\ buffer s' = buffer fresh.
Proof.
  assert (Hs : bus_ready fresh) by (split; reflexivity).
  assert (Hd : 0 <= 100) by lia.
  destruct (second_flash_pushes_no_flash_colour fresh white red 100 100
              well_formed_fresh Hs eq_refl Hd Hd)
    as (s' & es & Hrun & _ & _ & Hbuf).
  exists s'. split; assumption.
Defined.

(** X14. After a flash the preview path still works although the drawing
    path does not: [display_image] pastes into [self.image] itself, so a
    128x128 image shown after [flash_screen] is what the next [update]
    sends, whatever was drawn in between. *)
Theorem display_image_after_flash_is_transmitted (s : driver)
    (color : color_arg) (duration : Z) (src : pil_image)
    (drawn : pil_image -> result pil_image) :
  well_formed s -> bus_ready s -> 0 <= duration -> panel_sized src ->
  (forall im, panel_sized im ->
              match drawn im with Ok im' => panel_sized im' | Raise _ => True end) ->
  exists s1 s2,
    flash_screen color duration s = (Ok tt, s1)
    /\ snd (on_canvas drawn s1) = s2
    /\ exists s3,
         (display_image image_paste (Some src) 0 0 ;; update) s2 = (Ok tt, s3)
         /\ buffer s3 = src
         /\ trace s3 = trace s1 ++ update_events src.
Proof.
  intros Hwf Hs Hd Hsrc Hdrawn.
  destruct (flash_screen_effect s color duration Hwf Hs Hd)
    as (s1 & shown & Hrun & _ & _ & _ & _ & _ & _ & Hwf1 & Hs1).
  exists s1, (snd (on_canvas drawn s1)).
  split; [exact Hrun|]. split; [reflexivity|].
  set (s2 := snd (on_canvas drawn s1)).
  assert (Hwf2 : well_formed s2 /\ bus_ready s2 /\ trace s2 = trace s1).
  { unfold s2, on_canvas.
    destruct Hwf1 as (Hi & Hdr & Hall).
    pose proof (Hdrawn (canvas s1) (deref_panel_sized _ _ Hall Hdr)) as Hp.
    destruct (drawn (canvas s1)) as [im|e]; cbn [snd].
    - split; [|split; [exact Hs1 | reflexivity]].
      apply well_formed_canvas_write; [repeat split; assumption | exact Hp].
    - split; [repeat split; assumption | split; [exact Hs1 | reflexivity]]. }
  destruct Hwf2 as (Hwf2 & Hs2 & Htr2).
  destruct (display_image_pastes_clipped_frame s2 src 0 0 Hwf2)
    as (Hbuf & Hwf3 & Htr3).
  eexists. split.
  { erewrite bind_ok by reflexivity. apply update_ok. exact Hs2. }
  assert (Hbuf3 : buffer (snd (display_image image_paste (Some src) 0 0 s2)) = src).
  { rewrite Hbuf. apply image_paste_whole; [exact Hsrc|].
    destruct Hwf2 as (Hi & _ & Hall). apply deref_panel_sized; assumption. }
  split; [exact Hbuf3|].
  unfold pushed. cbn [trace emits write_pin set_pins].
  cbn [snd display_image] in Hbuf3. rewrite Hbuf3. cbn [trace set_store].
  rewrite Htr2. reflexivity.
Qed.

Lemma pil_rectangle_panel_sized x0 y0 x1 y1 fill outline (im : pil_image) :
  panel_sized im ->
  match pil_rectangle x0 y0 x1 y1 fill outline im with
  | Ok im' => panel_sized im'
  | Raise _ => True
  end.
Proof.
  intros Him. unfold pil_rectangle.
  destruct outline as [c|]; [destruct (getink c) as [o|e]; [|exact I]|];
    destruct ((x0 <=? x1) && (y0 <=? y1)); try exact I.
  - destruct (decide (o = ink_of fill)); repeat apply paint_panel_sized; exact Him.
  - apply paint_panel_sized. exact Him.
Qed.

Lemma display_image_after_flash_is_transmitted_witness :
  exists s1 s3,
    flash_screen white 100 fresh = (Ok tt, s1)
    /\ (display_image image_paste (Some (solid (9, 9, 9))) 0 0 ;; update)
         (snd (draw_rectangle 0 0 10 10 red None s1)) = (Ok tt, s3)
    /\ buffer s3 = solid (9, 9, 9).
Proof.
  assert (Hs : bus_ready fresh) by (split; reflexivity).
  assert (Hd : 0 <= 100) by lia.
  destruct (display_image_after_flash_is_transmitted fresh white 100
              (solid (9, 9, 9))
              (pil_rectangle 0 0 (0 + 10) (0 + 10) (rgb_or (255, 255, 255) red) None)
              well_formed_fresh Hs Hd (solid_panel_sized (9, 9, 9))
              (pil_rectangle_panel_sized 0 0 (0 + 10) (0 + 10)
                 (rgb_or (255, 255, 255) red) None))
    as (s1 & s2 & Hrun & Hs2 & s3 & Hrun3 & Hbuf & _).
  exists s1, s3. split; [exact Hrun|]. split; [|exact Hbuf].
  rewrite <- Hrun3, <- Hs2. reflexivity.
Defined.

(** ** The invariant of the store *)

Lemma preserves_bind {A B} (P : driver -> Prop) (m : M A) (k : A -> M B) :
  preserves P m -> (forall a, preserves P (k a)) -> preserves P (m ≫= k).
Proof.
  intros Hm Hk s Hs. specialize (Hm s Hs). unfold mbind, M_bind.
  destruct (m s) as [[a|e] s']; cbn [snd] in *.
  - apply Hk. exact Hm.
  - exact Hm.
Qed.

Lemma preserves_try (P : driver -> Prop) (body : M unit) (handler : exn -> M unit) :
  preserves P body -> (forall e, preserves P (handler e)) ->
  preserves P (try_except body handler).
Proof.
  intros Hb Hh s Hs. specialize (Hb s Hs). unfold try_except.
  destruct (body s) as [[[]|e] s']; cbn [snd] in *.
  - exact Hb.
  - apply Hh. exact Hb.
Qed.

Lemma keeps_images_preserves {A} (a : nat) (m : M A) :
  keeps_images m -> preserves (well_formed_with a) m.
Proof.
  intros Hk s [Hwf Ha]. specialize (Hk s). split.
  - exact (same_images_well_formed _ _ Hk Hwf).
  - destruct Hk as (-> & _). exact Ha.
Qed.

Lemma on_canvas_preserves (a : nat) (f : pil_image -> result pil_image) :
  (forall im, panel_sized im ->
              match f im with Ok im' => panel_sized im' | Raise _ => True end) ->
  preserves (well_formed_with a) (on_canvas f).
Proof.
  intros Hf s [Hwf Ha]. unfold on_canvas.
  pose proof Hwf as (Hi & Hd & Hall).
  specialize (Hf (canvas s) (deref_panel_sized _ _ Hall Hd)).
  destruct (f (canvas s)) as [im|e]; cbn [snd]; [|split; assumption].
  split.
  - apply well_formed_canvas_write; assumption.
  - cbn [store set_store]. rewrite length_insert. exact Ha.
Qed.

Lemma clear_preserves (a : nat) color : preserves (well_formed_with a) (clear color).
Proof. apply on_canvas_preserves. intros im. apply pil_rectangle_panel_sized. Qed.

Lemma preserves_well_formed {A} (m : M A) :
  preserves (well_formed_with 0) m -> preserves well_formed m.
Proof.
  intros H s Hwf. apply H. split; [exact Hwf|].
  destruct Hwf as (Hi & _). lia.
Qed.

Create HintDb invariant.

#[local] Hint Resolve keeps_images_update keeps_images_gpio keeps_images_print
  keeps_images_sleep keeps_images_close keeps_images_send_command
  keeps_images_send_data : invariant.

#[local] Hint Extern 1 (preserves (well_formed_with _) (clear _)) =>
  apply clear_preserves : invariant.
#[local] Hint Extern 2 (preserves (well_formed_with _) _) =>
  apply keeps_images_preserves : invariant.

Ltac invariant_steps :=
  repeat (apply preserves_bind; [auto with invariant | intros _]);
  auto with invariant.

Lemma flash_screen_preserves color duration :
  preserves well_formed (flash_screen color duration).
Proof.
  intros s Hwf. unfold flash_screen.
  erewrite bind_ok by reflexivity.
  set (a := length (store s)).
  set (s1 := set_store (store s ++ [buffer s]) s).
  assert (H1 : well_formed_with a s1).
  { destruct Hwf as (Hi & Hd & Hall). unfold well_formed_with, well_formed, s1, a.
    cbn [store image draw set_store]. rewrite length_app. cbn [length].
    repeat split; try lia.
    apply Forall_app. split; [exact Hall|].
    apply Forall_cons_2; [apply deref_panel_sized; assumption | apply Forall_nil_2]. }
  assert (Hrest : preserves (well_formed_with a)
                    (clear color ;; update ;; sleep duration ;;
                     (fun s => (Ok tt, set_image a s)) ;; update)).
  { invariant_steps.
    intros s' [(Hi & Hd & Hall) Ha]. cbn [snd]. repeat split; assumption. }
  exact (proj1 (Hrest s1 H1)).
Qed.

Lemma construct_fields (readable : string -> bool) (faults : option nat) :
  store (construct readable faults) = [solid (0, 0, 0)]
  /\ image (construct readable faults) = 0%nat
  /\ draw (construct readable faults) = 0%nat
  /\ spi_open (construct readable faults) = true
  /\ fail_after (construct readable faults) = faults.
Proof.
  unfold construct, load_fonts.
  destruct (first_readable readable font_paths); repeat split.
Qed.

(** X15. The store invariant. The constructor makes one black 128x128
    image that is both the buffer and the canvas, and every method keeps
    the driver well-formed (all images 128x128, both references valid)
    however it ends: [clear], [draw_rectangle] with any arguments, [update]
    and [flash_screen] under any bus fault or bad duration, [init_display],
    [cleanup], and [display_image] with any source and offset. *)
Theorem driver_stays_well_formed :
  (forall readable faults,
     well_formed (construct readable faults)
     /\ draw (construct readable faults) = image (construct readable faults)
     /\ buffer (construct readable faults) = solid (0, 0, 0))
  /\ (forall color, preserves well_formed (clear color))
  /\ (forall x y width height color outline,
        preserves well_formed (draw_rectangle x y width height color outline))
  /\ preserves well_formed update
  /\ (forall color duration, preserves well_formed (flash_screen color duration))
  /\ preserves well_formed init_display
  /\ preserves well_formed cleanup
  /\ (forall img x y, preserves well_formed (display_image image_paste img x y)).
Proof.
  split.
  { intros readable faults.
    destruct (construct_fields readable faults) as (Hst & Him & Hdr & _).
    unfold well_formed, buffer, deref. rewrite Hst, Him, Hdr. cbn [length].
    split; [|split; reflexivity].
    split; [lia|split; [lia|]].
    apply Forall_cons_2; [apply solid_panel_sized | apply Forall_nil_2]. }
  split; [intros color; apply preserves_well_formed, clear_preserves|].
  split.
  { intros x y w h color outline. apply preserves_well_formed.
    apply on_canvas_preserves. intros im. apply pil_rectangle_panel_sized. }
  split; [apply preserves_well_formed; auto with invariant|].
  split; [exact flash_screen_preserves|].
  split; [apply preserves_well_formed; unfold init_display; invariant_steps|].
  split.
  { apply preserves_well_formed. unfold cleanup.
    apply preserves_try; [invariant_steps | intros e; auto with invariant]. }
  intros [src|] x y s Hwf.
  - exact (proj1 (proj2 (display_image_pastes_clipped_frame s src x y Hwf))).
  - exact Hwf.
Qed.

Lemma driver_stays_well_formed_witness :
  well_formed (snd (flash_screen white (-1)
                      (snd (init_display (construct (fun _ => false) (Some 20%nat)))))).
Proof.
  destruct driver_stays_well_formed as (Hc & _ & _ & _ & Hflash & Hinit & _).
  apply Hflash, Hinit, Hc.
Defined.

(** ** camera_app.py: the capture feedback *)

(** A write on the canvas of a driver whose canvas is not the buffer. *)
Lemma detached_canvas_write (s : driver) (im : pil_image) :
  draw s <> image s ->
  buffer (set_store (<[draw s := im]> (store s)) s) = buffer s.
Proof. intros Hne. unfold buffer. cbn [image set_store]. apply deref_other. exact Hne. Qed.

(** X16. [show_capture_feedback] never shows its capture indicator.
    Whatever the imaging library draws for the circle and the glyph, on a
    driver whose canvas is still the buffer the call ends well and pushes
    three frames: solid white, then after 100 ms the buffer as it was
    before the call, and that same buffer again, followed by 200 ms; the
    frame pushed after the drawing calls holds nothing of what they drew,
    and the buffer ends unchanged. *)
Theorem show_capture_feedback_shows_no_indicator
    (pil_text : Z * Z -> string -> option font -> rgb -> pil_image -> pil_image)
    (pil_ellipse : Z * Z -> Z * Z -> rgb -> option color_arg -> pil_image -> pil_image)
    (s : driver) :
  well_formed s -> bus_ready s -> draw s = image s ->
  let es := update_events (solid (255, 255, 255)) ++ [Sleep 100]
            ++ update_events (buffer s) ++ update_events (buffer s)
            ++ [Sleep 200] in
  exists s',
    show_capture_feedback pil_text pil_ellipse s = (Ok tt, s')
    /\ trace s' = trace s ++ es
    /\ ram_writes es
       = [rgb565_data (im_data (solid (255, 255, 255)));
          rgb565_data (im_data (buffer s));
          rgb565_data (im_data (buffer s))]
    /\ buffer s' = buffer s.
Proof.
  intros Hwf Hs Halias es.
  assert (H100 : 0 <= 100) by lia.
  destruct (flash_screen_effect s (ColorTuple [255; 255; 255]) 100 Hwf Hs H100)
    as (s1 & shown & Hrun & Hbuf1 & Htr1 & Hshown & Himg & Hdraw & _ & _ & Hs1).
  specialize (Hshown Halias). cbn [rgb_or] in Hshown.
  rewrite ink_of_in_range in Hshown by lia. subst shown.
  assert (Hne : draw s1 <> image s1) by (destruct Hwf as (_ & Hlt & _); lia).
  set (c := pil_ellipse (64 - 20, 64 - 20) (64 + 20, 64 + 20)
              (rgb_or (255, 255, 255) (ColorTuple [255; 255; 255])) None (canvas s1)).
  set (s2 := set_store (<[draw s1 := c]> (store s1)) s1).
  set (t := pil_text (55, 55) "📸" (select_font (fonts s2) 16 None)
              (rgb_or (255, 255, 255) (ColorTuple [0; 0; 0])) (canvas s2)).
  set (s3 := set_store (<[draw s2 := t]> (store s2)) s2).
  assert (Hbuf3 : buffer s3 = buffer s).
  { unfold s3. rewrite detached_canvas_write by exact Hne.
    unfold s2. rewrite detached_canvas_write by exact Hne. exact Hbuf1. }
  exists (emit (Sleep 200) (pushed s3)).
  split.
  { unfold show_capture_feedback.
    erewrite bind_ok by exact Hrun.
    erewrite (bind_ok _ _ s1 s2) by reflexivity.
    erewrite (bind_ok _ _ s2 s3) by reflexivity.
    erewrite bind_ok by (apply update_ok; exact Hs1).
    apply sleep_ok. lia. }
  split.
  { unfold pushed. cbn [trace emit emits write_pin set_pins].
    rewrite Hbuf3. change (trace s3) with (trace s1). rewrite Htr1.
    unfold es. rewrite <- !app_assoc. reflexivity. }
  split; [|exact Hbuf3].
  unfold ram_writes, panel_commands, es.
  rewrite !fold_left_app, !panel_update_events, !panel_sleep.
  reflexivity.
Qed.

Lemma show_capture_feedback_shows_no_indicator_witness :
  exists s',
    show_capture_feedback (fun _ _ _ ink _ => solid ink)
                          (fun _ _ ink _ _ => solid ink) fresh = (Ok tt, s')
    /\ buffer s' = buffer fresh.
Proof.
  assert (Hs : bus_ready fresh) by (split; reflexivity).
  destruct (show_capture_feedback_shows_no_indicator
              (fun _ _ _ ink _ => solid ink) (fun _ _ ink _ _ => solid ink)
              fresh well_formed_fresh Hs eq_refl)
    as (s' & Hrun & _ & _ & Hbuf).
  exists s'. split; assumption.
Defined.

(** ** The settings menu *)

Section SettingsProperties.

Import SettingsApp.


Ltac fields :=
  cbn [current_menu selected_item should_exit_flag wifi_networks wifi_selected
       set_current_menu set_selected_item set_should_exit_flag
       set_wifi_networks set_wifi_selected] in *.

(** Splits on the menu a successful lookup found. *)
Ltac by_menu H :=
  apply elem_of_list_to_map_2 in H;
  repeat (apply elem_of_cons in H as [H|H]; [injection H as -> ->|]);
  [..|apply elem_of_nil in H; destruct H].

(** Splits on the value of an index known to lie in [0 .. 6]. *)
Ltac by_index i :=
  let H := fresh in
  assert (H : i = 0 \/ i = 1 \/ i = 2 \/ i = 3 \/ i = 4 \/ i = 5 \/ i = 6)
    by lia;
  repeat (destruct H as [H|H]); subst i; try lia.


Ltac by_input nav_input :=
  destruct (String.eqb_spec nav_input "UP") as [->|?];
    [|destruct (String.eqb_spec nav_input "DOWN") as [->|?];
      [|destruct (String.eqb_spec nav_input "CENTER") as [->|?];
        [|destruct (String.eqb_spec nav_input "LEFT") as [->|?]]]].


(** X18. The application is left by the Exit item only. From a
    consistent state with the exit flag down, an input raises the flag
    exactly when it is CENTER on item 6 of the main menu. LEFT never
    raises it, although [go_back] has a branch that would: LEFT leads to
    the main menu from every menu, the main menu included, where it does
    nothing, and to the WiFi menu from the two WiFi screens. *)
Theorem exit_only_by_the_exit_item (nav_input : string) (s : settings) :
  selection_valid s -> should_exit_flag s = false ->
  forall s', state_after (handle_input nav_input s) = Some s' ->
    (should_exit_flag s' = true
     <-> current_menu s = "main" /\ nav_input = "CENTER"
         /\ selected_item s = 6)
    /\ (nav_input = "LEFT" ->
          should_exit_flag s' = false
          /\ current_menu s'
             = match menu_structure !! current_menu s with
               | Some _ => "main"
               | None => "wifi"
               end).
Proof.
  intros Hv Hex s'. destruct s as [cm sel ex nets wsel].
  unfold selection_valid in Hv. fields. subst ex.
  unfold handle_input. fields.
  destruct (menu_structure !! cm) as [m|] eqn:Hm.
  - unfold handle_menu_input, execute_menu_action, go_back, scan_wifi_networks.
    fields. rewrite Hm.
    by_input nav_input; cbn [String.eqb Ascii.eqb Bool.eqb].
    + intros [= <-]. cbn. intuition congruence.
    + intros [= <-]. cbn. intuition congruence.
    + by_menu Hm; cbn [items length] in Hv; by_index sel;
        vm_compute; intros [= <-]; intuition congruence.
    + by_menu Hm; vm_compute; intros [= <-]; intuition congruence.
    + intros [= <-]. cbn. intuition congruence.
  - destruct Hv as [[-> | ->] Hsel].
    + unfold handle_wifi_scan_input. cbn [String.eqb Ascii.eqb Bool.eqb].
      destruct (String.eqb_spec nav_input "LEFT") as [->|?];
        intros [= <-]; cbn; intuition congruence.
    + unfold handle_wifi_networks_input.
      replace (String.eqb "wifi_networks" "wifi_scan") with false by reflexivity.
      replace (String.eqb "wifi_networks" "wifi_networks") with true by reflexivity.
      cbv iota.
      by_input nav_input; cbn [String.eqb Ascii.eqb Bool.eqb];
        intros [= <-]; cbn; intuition congruence.
Qed.

Lemma exit_only_by_the_exit_item_witness :
  should_exit_flag (Settings "main" 6 true [] 0) = true
  <-> "main" = "main" /\ "CENTER" = "CENTER" /\ 6 = 6.
Proof.
  refine (proj1 (exit_only_by_the_exit_item
                   "CENTER" (Settings "main" 6 false [] 0) _ eq_refl
                   (Settings "main" 6 true [] 0) eq_refl)).
  vm_compute. intuition congruence.
Defined.

(** *** The scrolling window of [show_menu] *)

Lemma py_range_nil (start stop : Z) : stop <= start -> py_range start stop = [].
Proof.
  intros H. unfold py_range. replace (Z.to_nat (stop - start)) with O by lia.
  reflexivity.
Qed.

Lemma py_range_cons (start stop : Z) :
  start < stop -> py_range start stop = start :: py_range (start + 1) stop.
Proof.
  intros H. unfold py_range.
  replace (Z.to_nat (stop - start)) with (S (Z.to_nat (stop - (start + 1))))
    by lia.
  cbn [seq fmap list_fmap]. f_equal; [lia|].
  rewrite <- fmap_S_seq, <- list_fmap_compose.
  apply list_fmap_ext. intros _ k _. cbn. lia.
Qed.

Lemma py_index_in_range {A} (xs : list A) (i : Z) :
  0 <= i < Z.of_nat (length xs) -> py_index xs i = xs !! Z.to_nat i.
Proof.
  intros H. unfold py_index.
  destruct (Z.leb_spec 0 i); [|lia].
  destruct (Z.ltb_spec i (Z.of_nat (length xs))); [|lia]. reflexivity.
Qed.

Lemma start_item_window (selected count visible_items : Z) :
  0 < visible_items -> 0 <= count ->
  let start := start_item selected count visible_items in
  let stop := Z.min count (start + visible_items) in
  0 <= start
  /\ stop - start <= visible_items
  /\ (start <= count -> stop - start = Z.min (count - start) visible_items)
  /\ (0 <= selected < count -> start <= selected < stop)
  /\ (visible_items <= count -> stop - start = visible_items).
Proof. intros Hv Hc. unfold start_item. cbv zeta. lia. Qed.

(** The rows of one window, each at its height. *)
Lemma show_menu_rows_window (selected : Z) (m : menu) (k : nat) :
  forall a y,
    0 <= a -> a + Z.of_nat k <= Z.of_nat (length (items m)) ->
    exists calls,
      show_menu_rows selected m (py_range a (a + Z.of_nat k)) y = (calls, true)
      /\ rectangles calls
         = (if (a <=? selected) && (selected <? a + Z.of_nat k)
            then [(2, y + 22 * (selected - a) - 2, 124, 20)] else [])
      /\ texts_at 28 calls
         = imap (fun j it => (y + 22 * Z.of_nat j, item_name it))
                (take k (drop (Z.to_nat a) (items m)))
      /\ texts_at 8 calls
         = imap (fun j it => (y + 22 * Z.of_nat j, item_icon it))
                (take k (drop (Z.to_nat a) (items m)))
      /\ texts_at 5 calls = []
      /\ Forall draws_only calls.
Proof.
  induction k as [|k IH]; intros a y Ha Hk.
  - rewrite py_range_nil by lia. exists []. cbn [show_menu_rows].
    split; [reflexivity|].
    split; [destruct (Z.leb_spec a selected), (Z.ltb_spec selected (a + Z.of_nat 0));
            cbn; try reflexivity; lia|].
    repeat split; try reflexivity. constructor.
  - rewrite py_range_cons by lia. cbn [show_menu_rows].
    unfold show_menu_row. rewrite py_index_in_range by lia.
    destruct (items m !! Z.to_nat a) as [it|] eqn:Hit;
      [|apply lookup_ge_None in Hit; lia].
    cbn [mbind option_bind].
    destruct (IH (a + 1) (y + 22))
      as (more & Hrun & Hrect & Hnames & Hicons & Hfive & Hdraw);
      [lia | lia |].
    replace (a + 1 + Z.of_nat k) with (a + Z.of_nat (S k)) in Hrun by lia.
    rewrite Hrun. eexists. split; [reflexivity|].
    match goal with
    | |- ?A /\ ?B /\ ?C /\ ?D /\ ?E =>
        enough (E /\ A /\ B /\ C /\ D) by tauto
    end.
    split.
    { rewrite !Forall_app. repeat split; try exact Hdraw;
        repeat match goal with
               | |- context [if ?b then _ else _] => destruct b
               | |- context [match ?o with Some _ => _ | None => _ end] =>
                   destruct o
               end;
        repeat constructor; cbn; try lia. }
    rewrite (drop_S _ _ _ Hit). cbn [take imap].
    replace (Z.to_nat (a + 1)) with (S (Z.to_nat a)) in * by lia.
    unfold rectangles, texts_at in *. rewrite !omap_app.
    rewrite Hrect, Hnames, Hicons, Hfive.
    assert (Hshift : forall (g : menu_item -> string) l,
              imap (fun j it => (y + 22 + 22 * Z.of_nat j, g it)) l
              = imap ((fun j it => (y + 22 * Z.of_nat j, g it)) ∘ S) l).
    { intros g l. apply imap_ext. intros j x _. cbn. f_equal. lia. }
    rewrite <- !Hshift.
    destruct (item_value it);
      destruct (String.eqb (item_action it) "submenu"
                || String.eqb (item_action it) "info");
      destruct (Z.eqb_spec a selected) as [Heq|Hne];
      cbn [omap app list_omap Z.eqb Pos.eqb];
      (split; [|repeat split; try reflexivity]);
      destruct (Z.leb_spec (a + 1) selected),
               (Z.ltb_spec selected (a + 1 + Z.of_nat k)),
               (Z.leb_spec a selected),
               (Z.ltb_spec selected (a + Z.of_nat (S k)));
      cbn [andb app]; try lia; try reflexivity;
      repeat (f_equal; try lia).
Qed.

Lemma show_menu_calls (menu_name : string) (m : menu)
    (s : settings) :
  menu_structure !! menu_name = Some m ->
  let count := Z.of_nat (length (items m)) in
  let start := start_item (selected_item s) count 4 in
  exists calls,
    show_menu menu_name s = Some (calls, true)
    /\ 0 <= start <= Z.max 0 (count - 4)
    /\ (0 <= selected_item s < count -> 0 <= selected_item s - start < 4)
    /\ rectangles calls
       = (0, 0, 128, 25)
         :: (if (0 <=? selected_item s) && (selected_item s <? count)
             then [(2, 28 + 22 * (selected_item s - start), 124, 20)]
             else [])
    /\ texts_at 28 calls
       = imap (fun j it => (30 + 22 * Z.of_nat j, item_name it))
              (take 4 (drop (Z.to_nat start) (items m)))
    /\ texts_at 8 calls
       = imap (fun j it => (30 + 22 * Z.of_nat j, item_icon it))
              (take 4 (drop (Z.to_nat start) (items m)))
    /\ texts_at 5 calls
       = [(7, if String.eqb menu_name "main" then title m
              else String.append "◄ " (title m));
          (115, "▲▼ Navigate  ● Select")]
    /\ Forall draws_only calls.
Proof.
  intros Hm count start.
  assert (Hc : 0 <= count) by (unfold count; lia).
  destruct (start_item_window (selected_item s) count 4 ltac:(lia) Hc)
    as (Hs0 & Hlen & Hk & Hin & _).
  fold start in Hs0, Hlen, Hk, Hin.
  assert (Hsc : start <= Z.max 0 (count - 4))
    by (unfold start, start_item; lia).
  set (stop := Z.min count (start + 4)) in *.
  destruct (show_menu_rows_window (selected_item s) m
              (Z.to_nat (stop - start)) start 30 Hs0 ltac:(lia))
    as (rows & Hrun & Hrect & Hnames & Hicons & Hfive & Hdraw).
  replace (start + Z.of_nat (Z.to_nat (stop - start))) with stop in * by lia.
  assert (Htake : take (Z.to_nat (stop - start)) (drop (Z.to_nat start) (items m))
                  = take 4 (drop (Z.to_nat start) (items m))).
  { destruct (Z.le_gt_cases (count - start) 4) as [Hle|Hgt].
    - rewrite !take_ge; [reflexivity | |];
        rewrite length_drop; unfold count in *; lia.
    - replace (Z.to_nat (stop - start)) with 4%nat by lia. reflexivity. }
  rewrite Htake in Hnames, Hicons.
  exists ([CallClear (ColorTuple [20; 20; 40]);
           CallDrawRectangle 0 0 128 25 (ColorTuple [25; 118; 210]) None;
           CallDrawText (if negb (String.eqb menu_name "main")
                         then String.append "◄ " (title m) else title m)
                        5 7 (ColorTuple [255; 255; 255]) 12]
          ++ rows
          ++ [CallDrawText "▲▼ Navigate  ● Select" 5 115
                           (ColorTuple [100; 100; 100]) 8]).
  split.
  { unfold show_menu. rewrite Hm. cbn [mbind option_bind].
    fold count. fold start. fold stop. rewrite Hrun. reflexivity. }
  split; [lia|]. split; [lia|].
  match goal with
  | |- ?A /\ ?B /\ ?C /\ ?D /\ ?E =>
      enough (E /\ A /\ B /\ C /\ D) by tauto
  end.
  split.
  { rewrite !Forall_app. repeat split; try exact Hdraw;
      repeat constructor; cbn; lia. }
  unfold rectangles, texts_at in *. rewrite !omap_app.
  rewrite Hrect, Hnames, Hicons, Hfive.
  cbn [omap list_omap app Z.eqb Pos.eqb]. rewrite !app_nil_r.
  split; [|split; [reflexivity|split; [reflexivity|]]].
  - f_equal.
    destruct (Z.leb_spec start (selected_item s)),
             (Z.ltb_spec (selected_item s) stop),
             (Z.leb_spec 0 (selected_item s)),
             (Z.ltb_spec (selected_item s) count);
      cbn [andb]; try lia; try reflexivity.
    repeat (f_equal; try lia).
  - destruct (String.eqb menu_name "main"); reflexivity.
Qed.

(** X19. [show_menu] keeps the selection in view. For each of the seven
    menus and every value of [selected_item], valid or not, it returns
    without raising. It shows at most four consecutive items, beginning at
    row [start = max(0, min(selected - 3, count - 4))], at the heights 30,
    52, 74 and 96. Besides the title bar it draws one rectangle, the
    highlight of the selected item on the row that shows it, when the
    selection is an item of the menu, and none otherwise. *)
Theorem show_menu_keeps_the_selection_in_view (menu_name : string) (m : menu)
    (s : settings) :
  menu_structure !! menu_name = Some m ->
  let count := Z.of_nat (length (items m)) in
  let start := start_item (selected_item s) count 4 in
  exists calls,
    show_menu menu_name s = Some (calls, true)
    /\ 0 <= start <= Z.max 0 (count - 4)
    /\ (0 <= selected_item s < count -> 0 <= selected_item s - start < 4)
    /\ rectangles calls
       = (0, 0, 128, 25)
         :: (if (0 <=? selected_item s) && (selected_item s <? count)
             then [(2, 28 + 22 * (selected_item s - start), 124, 20)]
             else [])
    /\ texts_at 28 calls
       = imap (fun j it => (30 + 22 * Z.of_nat j, item_name it))
              (take 4 (drop (Z.to_nat start) (items m)))
    /\ texts_at 8 calls
       = imap (fun j it => (30 + 22 * Z.of_nat j, item_icon it))
              (take 4 (drop (Z.to_nat start) (items m))).
Proof.
  intros Hm. pose proof (show_menu_calls menu_name m s Hm) as H.
  cbv zeta in *.
  destruct H as (calls & Hrun & Hstart & Hin & Hrect & Hnames & Hicons & _).
  exists calls. tauto.
Qed.

Lemma show_menu_keeps_the_selection_in_view_witness :
  exists calls,
    show_menu "main" (Settings "main" 5 false [] 0) = Some (calls, true)
    /\ rectangles calls = [(0, 0, 128, 25); (2, 28 + 22 * (5 - 2), 124, 20)]
    /\ texts_at 28 calls
       = [(30, "Camera"); (52, "Display"); (74, "System"); (96, "About")].
Proof.
  destruct (show_menu_keeps_the_selection_in_view
              "main" _ (Settings "main" 5 false [] 0) eq_refl)
    as (calls & Hrun & _ & _ & Hrect & Hnames & _).
  exists calls. repeat split; assumption.
Defined.




(** *** Drawing calls on the driver *)

Lemma canvas_only_refl (s : driver) : canvas_only s s.
Proof. unfold canvas_only. repeat split. Qed.

Lemma canvas_only_trans (s1 s2 s3 : driver) :
  canvas_only s1 s2 -> canvas_only s2 s3 -> canvas_only s1 s3.
Proof.
  unfold canvas_only.
  intros (Ht & Hp & Hf & Ho & Ha & Hi & Hd & Hl & Hs)
         (Ht' & Hp' & Hf' & Ho' & Ha' & Hi' & Hd' & Hl' & Hs').
  repeat split; try congruence.
  intros ref Href. rewrite Hs' by congruence. apply Hs. exact Href.
Qed.

Lemma canvas_only_write (s : driver) (im : pil_image) :
  canvas_only s (set_store (<[draw s := im]> (store s)) s).
Proof.
  unfold canvas_only. cbn [set_store trace pins fonts spi_open fail_after
                           image draw store].
  rewrite length_insert. repeat split.
  intros ref Href. apply list_lookup_insert_ne. congruence.
Qed.

Lemma canvas_only_buffer (s s' : driver) :
  canvas_only s s' -> draw s <> image s -> buffer s' = buffer s.
Proof.
  intros (_ & _ & _ & _ & _ & Hi & _ & _ & Hs) Hne.
  unfold buffer, deref. rewrite Hi, Hs by congruence. reflexivity.
Qed.

Lemma canvas_only_bus_ready (s s' : driver) :
  canvas_only s s' -> bus_ready s -> bus_ready s'.
Proof.
  intros (_ & _ & _ & Ho & Ha & _) [H1 H2]. split; congruence.
Qed.

Lemma run_call_draws
    (pil_text : Z * Z -> string -> option font -> rgb -> pil_image -> pil_image)
    (c : display_call) (s : driver) :
  draws_only c ->
  exists im,
    run_call pil_text c s = (Ok tt, set_store (<[draw s := im]> (store s)) s).
Proof.
  destruct c as [color|x y width height color outline|text x y color size|];
    cbn [draws_only run_call].
  - intros _. eexists. apply clear_ok.
  - intros (Hw & Hh & ->). eexists. apply draw_rectangle_ok; assumption.
  - intros _. eexists. reflexivity.
  - intros [].
Qed.

Lemma run_calls_draw
    (pil_text : Z * Z -> string -> option font -> rgb -> pil_image -> pil_image)
    (calls : list display_call) :
  Forall draws_only calls ->
  forall s, exists s',
    for_each (run_call pil_text) calls s = (Ok tt, s') /\ canvas_only s s'.
Proof.
  induction 1 as [|c calls Hc _ IH]; intros s.
  - exists s. split; [reflexivity | apply canvas_only_refl].
  - destruct (run_call_draws pil_text c s Hc) as (im & Hrun).
    destruct (IH (set_store (<[draw s := im]> (store s)) s)) as (s' & Hrest & Hco).
    exists s'. split.
    + cbn [for_each]. erewrite bind_ok by exact Hrun. exact Hrest.
    + eapply canvas_only_trans; [apply canvas_only_write | exact Hco].
Qed.

(** X21. [show_menu] only paints. On any driver, whatever the imaging
    library draws for a text, the calls of [show_menu] all end well and
    change nothing but pixels of the canvas: nothing is sent and no pin is
    written. So once [self.draw] no longer paints on the buffer (after a
    flash), the [update] that follows in [run_frame] sends the buffer as it
    was, with nothing of the menu in it. *)
Theorem show_menu_only_paints_the_canvas
    (pil_text : Z * Z -> string -> option font -> rgb -> pil_image -> pil_image)
    (menu_name : string) (m : menu) (s : settings) (d : driver) :
  menu_structure !! menu_name = Some m ->
  exists calls d',
    show_menu menu_name s = Some (calls, true)
    /\ for_each (run_call pil_text) calls d = (Ok tt, d')
    /\ canvas_only d d'
    /\ (draw d <> image d -> buffer d' = buffer d)
    /\ (bus_ready d -> draw d <> image d ->
          (for_each (run_call pil_text) calls ;; update) d = (Ok tt, pushed d')
          /\ trace (pushed d') = trace d ++ update_events (buffer d)).
Proof.
  intros Hm.
  pose proof (show_menu_calls menu_name m s Hm) as H. cbv zeta in H.
  destruct H as (calls & Hshow & _ & _ & _ & _ & _ & _ & Hdraw).
  destruct (run_calls_draw pil_text calls Hdraw d) as (d' & Hrun & Hco).
  exists calls, d'. split; [exact Hshow|]. split; [exact Hrun|].
  split; [exact Hco|].
  split; [apply canvas_only_buffer; exact Hco|].
  intros Hbus Hne. split.
  - erewrite bind_ok by exact Hrun. apply update_ok.
    eapply canvas_only_bus_ready; eassumption.
  - unfold pushed. cbn [trace emits write_pin set_pins].
    rewrite (canvas_only_buffer d d' Hco Hne).
    destruct Hco as (-> & _). reflexivity.
Qed.

Lemma show_menu_only_paints_the_canvas_witness :
  exists calls d',
    show_menu "main" (Settings "main" 0 false [] 0) = Some (calls, true)
    /\ for_each (run_call (fun _ _ _ ink _ => solid ink)) calls fresh
       = (Ok tt, d')
    /\ trace d' = trace fresh.
Proof.
  destruct (show_menu_only_paints_the_canvas
              (fun _ _ _ ink _ => solid ink) "main" _
              (Settings "main" 0 false [] 0) fresh eq_refl)
    as (calls & d' & Hshow & Hrun & (Htr & _) & _).
  exists calls, d'. repeat split; assumption.
Defined.

End SettingsProperties.

(** ** The five-way switch *)

Section NavigationProperties.

Import Navigation.

Ltac nav_fields :=
  cbn [last_press press_count button_states repeat_active printed
       set_last_press set_press_count set_button_states set_repeat_active
       print] in *.

Lemma entries_print (msg : message) (c : controller) (d : string) :
  entries (print msg c) d = entries c d.
Proof. reflexivity. Qed.

(** The block of one direction leaves the entries of the others alone and
    can only report its own direction. *)
Lemma check_other (current_time : Z) (read : Z -> option bool)
    (e d : string) (pin : Z) (c c' : controller) (st : step) :
  e <> d ->
  check current_time read e pin c = Some (st, c') ->
  entries c' d = entries c d /\ st <> Return d.
Proof.
  intros Hne. unfold check.
  destruct (read pin) as [[|]|]; cbn [mbind option_bind]; [| |discriminate].
  - destruct (button_states c !! e) as [[|]|]; cbn [mbind option_bind negb];
      [| |discriminate].
    + destruct (last_press c !! e) as [last|]; cbn [mbind option_bind];
        [|discriminate].
      destruct (repeat_delay <=? current_time - last).
      * destruct (repeat_active c !! e) as [[|]|]; cbn [mbind option_bind negb];
          [| |discriminate]; intros [= <- <-]; (split; [|discriminate]);
          unfold entries; nav_fields; rewrite ?lookup_insert_ne by exact Hne;
          reflexivity.
      * intros [= <- <-]. split; [reflexivity | discriminate].
    + destruct (last_press c !! e) as [last|]; cbn [mbind option_bind];
        [|discriminate].
      destruct (debounce_time <=? current_time - last); intros [= <- <-].
      * split; [|congruence].
        unfold entries; nav_fields; rewrite ?lookup_insert_ne by exact Hne;
          reflexivity.
      * split; [reflexivity | discriminate].
  - destruct (button_states c !! e) as [[|]|]; cbn [mbind option_bind];
      [| |discriminate]; intros [= <- <-]; (split; [|discriminate]);
      unfold entries; nav_fields; rewrite ?lookup_insert_ne by exact Hne;
      reflexivity.
Qed.

Lemma fires_entries (current_time : Z) (read : Z -> option bool)
    (c c' : controller) (entry : string * Z) :
  entries c' entry.1 = entries c entry.1 ->
  fires current_time read c' entry = fires current_time read c entry.
Proof.
  unfold entries, fires. intros [= H1 _ H3 _]. rewrite H1, H3. reflexivity.
Qed.

(** What the block does for the direction it is run for. *)
Lemma check_fires (current_time : Z) (read : Z -> option bool)
    (d : string) (pin : Z) (c : controller) :
  fires current_time read c (d, pin) = true ->
  check current_time read d pin c
  = Some (Return d,
          print (MsgNavigation d)
            (set_press_count (<[d := 1]> (press_count c))
               (set_button_states (<[d := true]> (button_states c))
                  (set_last_press (<[d := current_time]> (last_press c)) c)))).
Proof.
  unfold fires, check. cbn [fst snd].
  destruct (read pin) as [[|]|]; try discriminate.
  destruct (button_states c !! d) as [[|]|]; try discriminate.
  destruct (last_press c !! d) as [last|]; try discriminate.
  cbn [mbind option_bind negb]. intros ->. reflexivity.
Qed.

Lemma check_quiet (current_time : Z) (read : Z -> option bool)
    (d : string) (pin : Z) (c : controller) :
  fires current_time read c (d, pin) = false ->
  check current_time read d pin c = None
  \/ exists c', check current_time read d pin c = Some (Continue, c').
Proof.
  unfold fires, check. cbn [fst snd].
  destruct (read pin) as [[|]|]; cbn [mbind option_bind]; [| |left; reflexivity].
  - destruct (button_states c !! d) as [[|]|]; cbn [mbind option_bind negb];
      [| |left; reflexivity].
    + intros _. destruct (last_press c !! d) as [last|];
        cbn [mbind option_bind]; [|left; reflexivity].
      destruct (repeat_delay <=? current_time - last);
        [|right; eexists; reflexivity].
      destruct (repeat_active c !! d) as [[|]|]; cbn [mbind option_bind negb];
        [right; eexists; reflexivity | right; eexists; reflexivity
         | left; reflexivity].
    + destruct (last_press c !! d) as [last|]; cbn [mbind option_bind];
        [|left; reflexivity].
      intros ->. right. eexists. reflexivity.
  - intros _. destruct (button_states c !! d) as [[|]|];
      cbn [mbind option_bind];
      [right; eexists; reflexivity | right; eexists; reflexivity
       | left; reflexivity].
Qed.

Lemma filter_fires_ext (current_time : Z) (read : Z -> option bool)
    (c c' : controller) (ds : list (string * Z)) :
  (forall e, e ∈ (fst <$> ds) -> entries c' e = entries c e) ->
  List.filter (fires current_time read c') ds
  = List.filter (fires current_time read c) ds.
Proof.
  induction ds as [|entry ds IH]; intros H; [reflexivity|].
  cbn [List.filter]. rewrite (fires_entries _ _ c c' entry).
  - rewrite IH; [reflexivity|].
    intros e He. apply H. cbn [fmap list_fmap]. right. exact He.
  - apply H. cbn [fmap list_fmap]. left.
Qed.

(** The loop reports the first direction that fires, and the directions
    after it are not looked at. *)
Lemma scan_first_firing (current_time : Z) (read : Z -> option bool)
    (ds : list (string * Z)) :
  NoDup (fst <$> ds) ->
  forall c,
    (scan current_time read ds c).1 = first_firing current_time read c ds
    /\ forall d, (scan current_time read ds c).1 = Some d ->
         exists before pin after,
           ds = before ++ (d, pin) :: after
           /\ Forall (fun e => fires current_time read c e = false) before
           /\ fires current_time read c (d, pin) = true
           /\ entries (scan current_time read ds c).2 d
              = (Some current_time, Some 1, Some true, repeat_active c !! d)
           /\ forall e, e ∈ (fst <$> after) ->
                entries (scan current_time read ds c).2 e = entries c e.
Proof.
  induction ds as [|[e pin] ds IH]; intros Hnd c.
  - split; [reflexivity|]. intros d [=].
  - cbn [fmap list_fmap fst] in Hnd. apply NoDup_cons in Hnd as [Hnotin Hnd].
    specialize (IH Hnd).
    unfold first_firing. cbn [scan List.filter].
    destruct (fires current_time read c (e, pin)) eqn:Hf.
    + rewrite (check_fires _ _ _ _ _ Hf). cbn [fst snd head fmap option_fmap option_map].
      split; [reflexivity|]. intros d [= <-].
      exists [], pin, ds. split; [reflexivity|]. split; [constructor|].
      split; [exact Hf|]. split.
      * unfold entries. nav_fields. rewrite !lookup_insert_eq. reflexivity.
      * intros e' He'. unfold entries. nav_fields.
        assert (e <> e') by (intros ->; contradiction).
        rewrite !lookup_insert_ne by assumption. reflexivity.
    + assert (Hrest : forall c', (forall e', e' ∈ (fst <$> ds) ->
                                    entries c' e' = entries c e') ->
                (scan current_time read ds c').1
                = fst <$> head (List.filter (fires current_time read c) ds)
                /\ forall d, (scan current_time read ds c').1 = Some d ->
                     exists before pin0 after,
                       (e, pin) :: ds = before ++ (d, pin0) :: after
                       /\ Forall (fun x => fires current_time read c x = false)
                                 before
                       /\ fires current_time read c (d, pin0) = true
                       /\ entries (scan current_time read ds c').2 d
                          = (Some current_time, Some 1, Some true,
                             repeat_active c !! d)
                       /\ forall x, x ∈ (fst <$> after) ->
                            entries (scan current_time read ds c').2 x
                            = entries c x).
      { intros c' Hsame. destruct (IH c') as [Hres Hdet].
        split.
        - rewrite Hres. unfold first_firing.
          rewrite (filter_fires_ext _ _ c c' ds Hsame). reflexivity.
        - intros d Hd. destruct (Hdet d Hd)
            as (before & pin0 & after & -> & Hbefore & Hfires & Hent & Hafter).
          assert (Hin : forall x, x ∈ (fst <$> (before ++ (d, pin0) :: after)) ->
                                  entries c' x = entries c x) by exact Hsame.
          exists ((e, pin) :: before), pin0, after.
          split; [reflexivity|].
          split.
          { constructor; [exact Hf|].
            rewrite Forall_forall in Hbefore |- *. intros x Hx.
            rewrite <- (Hbefore x Hx). symmetry. apply fires_entries.
            apply Hin. rewrite fmap_app. apply elem_of_app. left.
            apply list_elem_of_fmap. exists x. split; [reflexivity | exact Hx]. }
          split.
          { rewrite <- Hfires. symmetry. apply (fires_entries _ _ c c' (d, pin0)).
            apply Hin. rewrite fmap_app. apply elem_of_app. right.
            cbn [fmap list_fmap fst]. left. }
          split.
          { rewrite Hent. do 1 f_equal.
            assert (Hd' : entries c' d = entries c d).
            { apply Hin. rewrite fmap_app. apply elem_of_app. right.
              cbn [fmap list_fmap fst]. left. }
            unfold entries in Hd'. congruence. }
          intros x Hx. rewrite (Hafter x Hx). apply Hin.
          rewrite fmap_app. apply elem_of_app. right.
          cbn [fmap list_fmap fst]. right. exact Hx. }
      destruct (check_quiet _ _ _ _ _ Hf) as [Hnone | [c' Hsome]].
      * rewrite Hnone. apply Hrest.
        intros e' _. apply entries_print.
      * rewrite Hsome. apply Hrest.
        intros e' He'. assert (e <> e') by (intros ->; contradiction).
        eapply check_other; eassumption.
Qed.

Lemma pins_NoDup : NoDup (fst <$> pins).
Proof.
  cbn [pins fmap list_fmap fst].
  repeat (apply NoDup_cons; split;
          [rewrite ?elem_of_cons, elem_of_nil; intuition discriminate|]).
  apply NoDup_nil_2.
Qed.

(** X22. [get_input] reports the first new press. A direction fires when
    its pin is read high, it is not registered as pressed, and the time
    in its [last_press] entry is at least 200 ms old. The result is the
    first direction in the order UP, DOWN, LEFT, RIGHT, CENTER that fires,
    and [None] when none does. The reported direction is registered as
    pressed at the current time with a press count of 1, and the directions
    after it are not looked at: their entries are unchanged, so a second
    button pressed at the same time is left for the next call. *)
Theorem get_input_reports_the_first_new_press (current_time : Z)
    (read : Z -> option bool) (c : controller) :
  let result := get_input current_time read c in
  result.1 = first_firing current_time read c pins
  /\ forall d, result.1 = Some d ->
       exists before pin after,
         pins = before ++ (d, pin) :: after
         /\ Forall (fun e => fires current_time read c e = false) before
         /\ read pin = Some true
         /\ button_states c !! d = Some false
         /\ (exists last, last_press c !! d = Some last
                          /\ debounce_time <= current_time - last)
         /\ entries result.2 d
            = (Some current_time, Some 1, Some true, repeat_active c !! d)
         /\ forall e, e ∈ (fst <$> after) -> entries result.2 e = entries c e.
Proof.
  cbv zeta. unfold get_input.
  destruct (scan_first_firing current_time read pins pins_NoDup c)
    as [Hres Hdet].
  split; [exact Hres|]. intros d Hd.
  destruct (Hdet d Hd)
    as (before & pin & after & Hpins & Hbefore & Hfires & Hent & Hafter).
  exists before, pin, after. split; [exact Hpins|]. split; [exact Hbefore|].
  unfold fires in Hfires. cbn [fst snd] in Hfires.
  destruct (read pin) as [[|]|]; try discriminate.
  destruct (button_states c !! d) as [[|]|]; try discriminate.
  destruct (last_press c !! d) as [last|]; try discriminate.
  split; [reflexivity|]. split; [reflexivity|].
  split; [exists last; split; [reflexivity | lia]|].
  split; assumption.
Qed.

(** The repeat thread never writes the button states. *)
Lemma repeat_one_button_states (current_time : Z) (d : string) (c : controller) :
  button_states (repeat_one current_time d c).1 = button_states c.
Proof.
  unfold repeat_one.
  repeat match goal with
         | |- context [match ?x with _ => _ end] => destruct x
         end; reflexivity.
Qed.

Lemma repeat_round_button_states (current_time : Z) (ds : list string) :
  forall c, button_states (repeat_round current_time ds c).1 = button_states c.
Proof.
  induction ds as [|d ds IH]; intros c; [reflexivity|].
  cbn [repeat_round].
  pose proof (repeat_one_button_states current_time d c) as H.
  destruct (repeat_one current_time d c) as [c' [|]]; cbn [fst] in *.
  - rewrite IH. exact H.
  - exact H.
Qed.

(** While a button registered as pressed is not read as released, a poll
    neither reports it nor forgets it. *)
Lemma scan_keeps_held (current_time : Z) (read : Z -> option bool)
    (d : string) (pin : Z) (ds : list (string * Z)) :
  (forall p, (d, p) ∈ ds -> p = pin) ->
  read pin <> Some false ->
  forall c,
    button_states c !! d = Some true ->
    (scan current_time read ds c).1 <> Some d
    /\ button_states (scan current_time read ds c).2 !! d = Some true.
Proof.
  intros Hpin Hread.
  induction ds as [|[e p] ds IH]; intros c Hheld.
  - split; [discriminate | exact Hheld].
  - assert (IH' : forall c', button_states c' !! d = Some true ->
              (scan current_time read ds c').1 <> Some d
              /\ button_states (scan current_time read ds c').2 !! d = Some true).
    { apply IH. intros p' Hp'. apply Hpin. right. exact Hp'. }
    cbn [scan].
    destruct (decide (e = d)) as [->|Hne].
    + assert (p = pin) as -> by (apply Hpin; left).
      unfold check.
      destruct (read pin) as [[|]|]; cbn [mbind option_bind];
        [|contradiction|apply IH'; exact Hheld].
      rewrite Hheld. cbn [mbind option_bind negb].
      destruct (last_press c !! d) as [last|]; cbn [mbind option_bind];
        [|apply IH'; exact Hheld].
      destruct (repeat_delay <=? current_time - last);
        [|apply IH'; exact Hheld].
      destruct (repeat_active c !! d) as [[|]|]; cbn [mbind option_bind negb];
        apply IH'; exact Hheld.
    + destruct (check current_time read e p c) as [[st c']|] eqn:Hcheck.
      * destruct (check_other _ _ _ _ _ _ _ _ Hne Hcheck) as [Hent Hst].
        assert (Hheld' : button_states c' !! d = Some true).
        { unfold entries in Hent. injection Hent as _ _ H _. congruence. }
        destruct st as [|r].
        -- apply IH'. exact Hheld'.
        -- cbn [fst snd]. split; [congruence | exact Hheld'].
      * apply IH'. exact Hheld.
Qed.

(** X23. Holding a button never repeats the input. Once a direction is
    registered as pressed, no call of [get_input] reports it again for as
    long as its pin is not read low (read high, or the read fails),
    whatever the times of the calls and however the rounds of the repeat
    thread fall between them: the repeat delay and the repeat rate only
    lead to bookkeeping and messages. *)
Theorem held_button_is_never_reported_again (d : string) (pin : Z)
    (activities : list activity) :
  (d, pin) ∈ pins ->
  (forall current_time read,
     Poll current_time read ∈ activities -> read pin <> Some false) ->
  forall c,
    button_states c !! d = Some true ->
    Some d ∉ reported activities c.
Proof.
  intros Hd. induction activities as [|a rest IH]; intros Hread c Hheld.
  - cbn [reported]. apply not_elem_of_nil.
  - assert (Hrest : forall current_time read,
              Poll current_time read ∈ rest -> read pin <> Some false).
    { intros t r Hin. apply (Hread t r). right. exact Hin. }
    destruct a as [current_time read | current_time]; cbn [reported].
    + unfold get_input.
      destruct (scan_keeps_held current_time read d pin pins) with (c := c)
        as [Hno Hkept].
      * intros p Hp.
        revert Hd Hp. unfold pins. rewrite !elem_of_cons, !elem_of_nil.
        intros Hd Hp.
        repeat (destruct Hd as [Hd|Hd]; [injection Hd as -> ->|]);
          try contradiction;
          repeat (destruct Hp as [Hp|Hp];
                  [first [discriminate Hp | injection Hp as ->; reflexivity]|]);
          contradiction.
      * apply (Hread current_time read). left.
      * exact Hheld.
      * destruct (scan current_time read pins c) as [input c'].
        cbn [fst snd] in *. apply not_elem_of_cons. split.
        -- congruence.
        -- apply IH; assumption.
    + apply IH; [exact Hrest|].
      rewrite repeat_round_button_states. exact Hheld.
Qed.

Lemma held_button_is_never_reported_again_witness :
  button_states (get_input 1000 (fun _ => Some true) setup_gpio).2 !! "UP"
  = Some true
  /\ Some "UP" ∉ reported [Poll 1050 (fun _ => Some true); Round 1600;
                          Poll 1650 (fun _ => Some true)]
                         (get_input 1000 (fun _ => Some true) setup_gpio).2.
Proof.
  split; [reflexivity|].
  apply (held_button_is_never_reported_again "UP" 17).
  - left.
  - intros current_time read Hin.
    rewrite !elem_of_cons, elem_of_nil in Hin.
    destruct Hin as [Hin | [Hin | [Hin | Hin]]];
      try contradiction; try discriminate Hin;
      inversion Hin; discriminate.
  - reflexivity.
Defined.

(** *** The dicts keep their keys *)

Lemma keeps_keys_refl (c : controller) : keeps_keys c c.
Proof. intros d. repeat split; trivial. Qed.

Lemma keeps_keys_trans (c1 c2 c3 : controller) :
  keeps_keys c1 c2 -> keeps_keys c2 c3 -> keeps_keys c1 c3.
Proof.
  intros H12 H23 d. destruct (H12 d) as (A1 & A2 & A3 & A4).
  destruct (H23 d) as (B1 & B2 & B3 & B4). repeat split; auto.
Qed.

Lemma is_Some_insert {A} (m : gmap string A) (k d : string) (v : A) :
  is_Some (m !! d) -> is_Some (<[k := v]> m !! d).
Proof.
  intros H. destruct (decide (k = d)) as [->|Hne].
  - rewrite lookup_insert_eq. eexists. reflexivity.
  - rewrite lookup_insert_ne by exact Hne. exact H.
Qed.

Ltac keys := intros ?; nav_fields; repeat split; intros ?;
             repeat apply is_Some_insert; assumption.

Lemma check_keeps_keys (current_time : Z) (read : Z -> option bool)
    (d : string) (pin : Z) (c c' : controller) (st : step) :
  check current_time read d pin c = Some (st, c') -> keeps_keys c c'.
Proof.
  unfold check.
  destruct (read pin) as [[|]|]; cbn [mbind option_bind]; [| |discriminate].
  - destruct (button_states c !! d) as [[|]|]; cbn [mbind option_bind negb];
      [| |discriminate];
      (destruct (last_press c !! d) as [last|]; cbn [mbind option_bind];
       [|discriminate]).
    + destruct (repeat_delay <=? current_time - last);
        [|intros [= <- <-]; keys].
      destruct (repeat_active c !! d) as [[|]|]; cbn [mbind option_bind negb];
        [| |discriminate]; intros [= <- <-]; keys.
    + destruct (debounce_time <=? current_time - last); intros [= <- <-]; keys.
  - destruct (button_states c !! d) as [[|]|]; cbn [mbind option_bind];
      [| |discriminate]; intros [= <- <-]; keys.
Qed.

Lemma scan_keeps_keys (current_time : Z) (read : Z -> option bool)
    (ds : list (string * Z)) :
  forall c, keeps_keys c (scan current_time read ds c).2.
Proof.
  induction ds as [|[d pin] ds IH]; intros c; [apply keeps_keys_refl|].
  cbn [scan].
  destruct (check current_time read d pin c) as [[[|r] c']|] eqn:Hcheck.
  - eapply keeps_keys_trans; [eapply check_keeps_keys; exact Hcheck | apply IH].
  - eapply check_keeps_keys. exact Hcheck.
  - eapply keeps_keys_trans; [|apply IH]. keys.
Qed.

Lemma repeat_one_keeps_keys (current_time : Z) (d : string) (c : controller) :
  keeps_keys c (repeat_one current_time d c).1.
Proof.
  unfold repeat_one.
  repeat match goal with
         | |- context [match ?x with _ => _ end] => destruct x
         end; cbn [fst]; keys.
Qed.

Lemma repeat_one_alive (current_time : Z) (d : string) (c : controller) :
  is_Some (last_press c !! d) -> is_Some (press_count c !! d) ->
  is_Some (button_states c !! d) -> is_Some (repeat_active c !! d) ->
  (repeat_one current_time d c).2 = true.
Proof.
  intros [l Hl] [n Hn] [b Hb] [a Ha]. unfold repeat_one.
  rewrite Ha, Hb, Hl. nav_fields. rewrite Hn.
  destruct a, b; try reflexivity.
  destruct (repeat_rate <=? current_time - l); reflexivity.
Qed.

Lemma repeat_round_alive (current_time : Z) (ds : list string) :
  forall c,
    (forall d, d ∈ ds ->
       is_Some (last_press c !! d) /\ is_Some (press_count c !! d)
       /\ is_Some (button_states c !! d) /\ is_Some (repeat_active c !! d)) ->
    (repeat_round current_time ds c).2 = true
    /\ keeps_keys c (repeat_round current_time ds c).1.
Proof.
  induction ds as [|d ds IH]; intros c Hc.
  - split; [reflexivity | apply keeps_keys_refl].
  - cbn [repeat_round].
    destruct (Hc d) as (H1 & H2 & H3 & H4); [left|].
    pose proof (repeat_one_alive current_time d c H1 H2 H3 H4) as Halive.
    pose proof (repeat_one_keeps_keys current_time d c) as Hkeys.
    destruct (repeat_one current_time d c) as [c' alive].
    cbn [fst snd] in *. subst alive.
    destruct (IH c') as [Hlive Hk].
    + intros e He. destruct (Hc e) as (E1 & E2 & E3 & E4); [right; exact He|].
      destruct (Hkeys e) as (K1 & K2 & K3 & K4). auto.
    + split; [exact Hlive|]. eapply keeps_keys_trans; eassumption.
Qed.

Lemma tracked_keeps_keys (c c' : controller) :
  tracked c -> keeps_keys c c' -> tracked c'.
Proof.
  intros Ht Hk d Hd. destruct (Ht d Hd) as (T1 & T2 & T3 & T4).
  destruct (Hk d) as (K1 & K2 & K3 & K4). auto.
Qed.

Lemma check_printed (current_time : Z) (read : Z -> option bool)
    (d e : string) (pin : Z) (c c' : controller) (st : step) :
  check current_time read d pin c = Some (st, c') ->
  MsgGpioError e ∈ printed c' -> MsgGpioError e ∈ printed c.
Proof.
  assert (Hp : forall msg c0, (forall x, msg <> MsgGpioError x) ->
            MsgGpioError e ∈ printed (print msg c0) ->
            MsgGpioError e ∈ printed c0).
  { intros msg c0 Hmsg. nav_fields. rewrite elem_of_app, list_elem_of_singleton.
    intros [H|H]; [exact H | symmetry in H; destruct (Hmsg _ H)]. }
  unfold check.
  destruct (read pin) as [[|]|]; cbn [mbind option_bind]; [| |discriminate].
  - destruct (button_states c !! d) as [[|]|]; cbn [mbind option_bind negb];
      [| |discriminate];
      (destruct (last_press c !! d) as [last|]; cbn [mbind option_bind];
       [|discriminate]).
    + destruct (repeat_delay <=? current_time - last);
        [|intros [= <- <-]; trivial].
      destruct (repeat_active c !! d) as [[|]|]; cbn [mbind option_bind negb];
        [| |discriminate]; intros [= <- <-]; trivial.
      intros H. apply Hp in H; [exact H | discriminate].
    + destruct (debounce_time <=? current_time - last); intros [= <- <-];
        trivial.
      intros H. apply Hp in H; [exact H | discriminate].
  - destruct (button_states c !! d) as [[|]|]; cbn [mbind option_bind];
      [| |discriminate]; intros [= <- <-]; trivial.
Qed.

Lemma check_raises (current_time : Z) (read : Z -> option bool)
    (d : string) (pin : Z) (c : controller) :
  is_Some (last_press c !! d) -> is_Some (button_states c !! d) ->
  is_Some (repeat_active c !! d) ->
  check current_time read d pin c = None -> read pin = None.
Proof.
  intros [l Hl] [b Hb] [a Ha]. unfold check. rewrite Hb, Hl, Ha.
  destruct (read pin) as [[|]|]; cbn [mbind option_bind]; [| |reflexivity].
  - destruct b; cbn [negb].
    + destruct (repeat_delay <=? current_time - l); [|discriminate].
      destruct a; discriminate.
    + destruct (debounce_time <=? current_time - l); discriminate.
  - destruct b; discriminate.
Qed.

Lemma scan_errors (current_time : Z) (read : Z -> option bool) (e : string)
    (ds : list (string * Z)) :
  forall c,
    (forall d, d ∈ (fst <$> ds) ->
       is_Some (last_press c !! d) /\ is_Some (press_count c !! d)
       /\ is_Some (button_states c !! d) /\ is_Some (repeat_active c !! d)) ->
    MsgGpioError e ∈ printed (scan current_time read ds c).2 ->
    MsgGpioError e ∈ printed c
    \/ exists pin, (e, pin) ∈ ds /\ read pin = None.
Proof.
  induction ds as [|[d pin] ds IH]; intros c Hc; [left; assumption|].
  cbn [scan].
  destruct (Hc d) as (H1 & H2 & H3 & H4); [left|].
  assert (Hnext : forall c', keeps_keys c c' ->
            MsgGpioError e ∈ printed (scan current_time read ds c').2 ->
            MsgGpioError e ∈ printed c'
            \/ exists pin0, (e, pin0) ∈ (d, pin) :: ds /\ read pin0 = None).
  { intros c' Hk H. destruct (IH c') as [Hin | (pin0 & Hin & Hr)].
    - intros x Hx. destruct (Hc x) as (X1 & X2 & X3 & X4); [right; exact Hx|].
      destruct (Hk x) as (K1 & K2 & K3 & K4). auto.
    - exact H.
    - left. exact Hin.
    - right. exists pin0. split; [right; exact Hin | exact Hr]. }
  destruct (check current_time read d pin c) as [[[|r] c']|] eqn:Hcheck.
  - intros H. destruct (Hnext c') as [Hin | Hex];
      [eapply check_keeps_keys; exact Hcheck | exact H | | right; exact Hex].
    left. eapply check_printed; eassumption.
  - cbn [snd]. intros H. left. eapply check_printed; eassumption.
  - intros H. destruct (Hnext (print (MsgGpioError d) c)) as [Hin | Hex];
      [keys | exact H | | right; exact Hex].
    nav_fields. rewrite elem_of_app, list_elem_of_singleton in Hin.
    destruct Hin as [Hin | [= ->]]; [left; exact Hin|].
    right. exists pin. split; [left|].
    eapply check_raises; eassumption.
Qed.

(** X24. The dicts keep their keys. [setup_gpio] gives all four dicts an
    entry for each of the five directions; [get_input] and the rounds of
    the repeat thread keep them, so the repeat thread never dies of a
    missing key, and [get_input] prints a GPIO error for a direction only
    when the read of its pin raised. *)
Theorem controller_keeps_every_direction_tracked :
  tracked setup_gpio
  /\ (forall current_time read c,
        tracked c -> tracked (get_input current_time read c).2)
  /\ (forall current_time c,
        tracked c ->
        (repeat_round current_time (fst <$> pins) c).2 = true
        /\ tracked (repeat_round current_time (fst <$> pins) c).1)
  /\ (forall current_time read c d,
        tracked c ->
        MsgGpioError d ∈ printed (get_input current_time read c).2 ->
        MsgGpioError d ∈ printed c
        \/ exists pin, (d, pin) ∈ pins /\ read pin = None).
Proof.
  split; [|split; [|split]].
  - intros d Hd. cbn [pins fmap list_fmap fst] in Hd.
    rewrite !elem_of_cons, elem_of_nil in Hd.
    repeat (destruct Hd as [->|Hd]; [vm_compute; repeat split; eauto|]).
    destruct Hd.
  - intros current_time read c Ht.
    eapply tracked_keeps_keys; [exact Ht | apply scan_keeps_keys].
  - intros current_time c Ht.
    destruct (repeat_round_alive current_time (fst <$> pins) c) as [Hlive Hk].
    + exact Ht.
    + split; [exact Hlive|]. eapply tracked_keeps_keys; eassumption.
  - intros current_time read c d Ht. unfold get_input.
    apply scan_errors. exact Ht.
Qed.

End NavigationProperties.

(** ** The capture modes of the camera application *)

Section CameraProperties.

Import CameraApp.





End CameraProperties.
